(** * Reservoir dashboard: device enrollment vault, profile resolver,
      biometric gate and data service

    A shallow embedding of [services/authService.ts], [services/geminiService.ts],
    [services/dataService.ts] and the verification loop of [components/Auth.tsx].

    The services are thin orchestration code over three outside parties: the
    browser's [localStorage], the hosted auth/database client and the hosted
    vision model.  The embedding threads an explicit [World] through a small
    state-and-exception monad.  The replies of the outside parties are an
    oracle inside the world ([Env]); every outgoing call is recorded in a
    trace, so that "how many polls", "was a sign-in attempted" and "which
    credentials were sent" are statements about data. *)

From Stdlib Require Import ZArith String Ascii List Bool Lia.
From stdpp Require Import base option list gmap strings pretty.
Import ListNotations.

Local Open Scope string_scope.
Local Open Scope list_scope.
Local Open Scope Z_scope.
Local Open Scope nat_scope.

(* ===================================================================== *)
(** ** JavaScript values *)
(* ===================================================================== *)

(** Values of type [any]: what [JSON.parse] yields and what the services pass
    around untyped.  Numbers are carried as integers: the modelled functions
    never compute with a number, they only test it for truthiness, print it
    or copy it. *)
#[warnings="-register-all"]
Inductive JsVal : Type :=
| JUndefined
| JNull
| JBool (b : bool)
| JNum (z : Z)
| JStr (s : string)
| JArr (elems : list JsVal)
| JObj (fields : list (string * JsVal)).

Definition nonempty (s : string) : bool :=
  match s with EmptyString => false | String _ _ => true end.

(** ToBoolean. *)
Definition truthy (v : JsVal) : bool :=
  match v with
  | JUndefined | JNull => false
  | JBool b => b
  | JNum z => negb (Z.eqb z 0)
  | JStr s => nonempty s
  | JArr _ | JObj _ => true
  end.

(** [a || b] on values. *)
Definition js_or (a b : JsVal) : JsVal := if truthy a then a else b.

Fixpoint assoc (k : string) (fs : list (string * JsVal)) : option JsVal :=
  match fs with
  | [] => None
  | (k', v) :: r => if String.eqb k k' then Some v else assoc k r
  end.

(** Property read [v.k].  [None] stands for the TypeError raised when [v] is
    [null] or [undefined].  The property names read by the services
    ([authorized], [email], [user_metadata], ...) are no prototype members of
    strings, numbers or arrays, so a read on those yields [undefined]. *)
Definition get_prop (v : JsVal) (k : string) : option JsVal :=
  match v with
  | JUndefined | JNull => None
  | JObj fs => Some (default JUndefined (assoc k fs))
  | _ => Some JUndefined
  end.

Definition join_with (sep : string) : list string -> string :=
  fix go (l : list string) : string :=
    match l with
    | [] => EmptyString
    | x :: r => match r with [] => x | _ :: _ => x +:+ sep +:+ go r end
    end.

(** ToString, as performed by a template literal [`${v}`]. *)
Fixpoint js_to_string (v : JsVal) : string :=
  match v with
  | JUndefined => "undefined"
  | JNull => "null"
  | JBool true => "true"
  | JBool false => "false"
  | JNum z => pretty z
  | JStr s => s
  | JArr l =>
      join_with ","
        (List.map (fun x => match x with
                            | JUndefined | JNull => EmptyString
                            | _ => js_to_string x
                            end) l)
  | JObj _ => "[object Object]"
  end.

(** Strict equality [v === "lit"] against a string literal. *)
Definition js_is_string (v : JsVal) (lit : string) : bool :=
  match v with JStr s => String.eqb s lit | _ => false end.

(* ===================================================================== *)
(** ** Encoders of the platform: [JSON.stringify] and [btoa] *)
(* ===================================================================== *)

Definition dquote : ascii := "034"%char.
Definition backslash : ascii := "092"%char.

Definition hex_digit (n : nat) : ascii :=
  default "0"%char (String.get n "0123456789abcdef").

(** The escape of one character inside a JSON string literal. *)
Definition json_escape_char (c : ascii) : string :=
  let n := nat_of_ascii c in
  if Nat.eqb n 34 then String backslash (String dquote EmptyString)
  else if Nat.eqb n 92 then String backslash (String backslash EmptyString)
  else if Nat.eqb n 8 then String backslash "b"
  else if Nat.eqb n 9 then String backslash "t"
  else if Nat.eqb n 10 then String backslash "n"
  else if Nat.eqb n 12 then String backslash "f"
  else if Nat.eqb n 13 then String backslash "r"
  else if Nat.ltb n 32 then
    String backslash ("u00" +:+ String (hex_digit (n / 16)) (String (hex_digit (n mod 16)) EmptyString))
  else String c EmptyString.

Fixpoint json_escape (s : string) : string :=
  match s with
  | EmptyString => EmptyString
  | String c r => json_escape_char c +:+ json_escape r
  end.

Definition json_quote (s : string) : string :=
  String dquote (json_escape s +:+ String dquote EmptyString).

(** [JSON.stringify(v)] without indentation.  [None] is the [undefined] that
    [JSON.stringify(undefined)] returns; inside an array [undefined] prints as
    [null], inside an object the property is left out. *)
Fixpoint JSON_stringify (v : JsVal) : option string :=
  match v with
  | JUndefined => None
  | JNull => Some "null"
  | JBool true => Some "true"
  | JBool false => Some "false"
  | JNum z => Some (pretty z)
  | JStr s => Some (json_quote s)
  | JArr l =>
      Some ("[" +:+ join_with "," (List.map (fun x => default "null" (JSON_stringify x)) l) +:+ "]")
  | JObj fs =>
      Some ("{" +:+ join_with ","
                     (List.flat_map
                        (fun kv => match JSON_stringify (snd kv) with
                                   | Some s => [json_quote (fst kv) +:+ ":" +:+ s]
                                   | None => []
                                   end) fs) +:+ "}")
  end.

Definition b64_alphabet : string :=
  "ABCDEFGHIJKLMNOPQRSTUVWXYZabcdefghijklmnopqrstuvwxyz0123456789+/".

Definition b64_char (n : nat) : ascii := default "A"%char (String.get n b64_alphabet).

Fixpoint b64_encode (bytes : list nat) : string :=
  match bytes with
  | [] => EmptyString
  | a :: r1 =>
      match r1 with
      | [] =>
          String (b64_char (a / 4)) (String (b64_char ((a mod 4) * 16)) "==")
      | b :: r2 =>
          match r2 with
          | [] =>
              String (b64_char (a / 4))
                (String (b64_char ((a mod 4) * 16 + b / 16))
                   (String (b64_char ((b mod 16) * 4)) "="))
          | c :: r3 =>
              String (b64_char (a / 4))
                (String (b64_char ((a mod 4) * 16 + b / 16))
                   (String (b64_char ((b mod 16) * 4 + c / 64))
                      (String (b64_char (c mod 64)) (b64_encode r3))))
          end
      end
  end.

Definition string_bytes (s : string) : list nat :=
  List.map nat_of_ascii (list_ascii_of_string s).

(** [btoa(s)].  Every character of a [string] here is one byte, so the
    InvalidCharacterError of [btoa] (code points above 255) cannot arise. *)
Definition btoa (s : string) : string := b64_encode (string_bytes s).

(* ===================================================================== *)
(** ** Decoders of the platform *)
(* ===================================================================== *)

(** [JSON.parse], [atob] and [encodeURIComponent] are taken as given by the
    platform.  [None] stands for the exception the decoder raises (SyntaxError,
    InvalidCharacterError).  Every function below is parametric in them, so
    the theorems hold for the browser's own decoders. *)
Class Platform := {
  JSON_parse : string -> option JsVal;
  atob : string -> option string;
  encodeURIComponent : string -> string
}.

(* ===================================================================== *)
(** ** Errors, storage, the outside world *)
(* ===================================================================== *)

(** An error object: [message], and the [code] and [status] that the errors of
    the database client carry. *)
Record JsError := mkJsError {
  message : string;
  code : option string;
  status : option Z
}.

(** [new Error(msg)]. *)
Definition Error (msg : string) : JsError := mkJsError msg None None.

(** The device's [localStorage] as the application uses it: a flat map from
    keys to strings, and the room the browser grants it.  [setItem] raises
    QuotaExceededError when the stored keys and values would take more than
    [quota] characters.  The map holds what the code of the application
    stores, the vault and the cache of the entries; the session that the
    auth client keeps for itself under a key of its own is not part of
    it. *)
Record Storage := mkStorage {
  items : gmap string string;
  quota : N
}.

Definition storage_size (m : gmap string string) : N :=
  map_fold (fun k v n => (N.of_nat (String.length k) + N.of_nat (String.length v) + n)%N) 0%N m.

(** What a remote call comes back with: the promise resolves or rejects. *)
Inductive Reply (A : Type) : Type :=
| Resolves (a : A)
| Rejects (e : JsError).
Arguments Resolves {A} a.
Arguments Rejects {A} e.

(** The [{ data, error }] pair of a database query. *)
Record QueryResult := mkQueryResult {
  q_data : JsVal;
  q_error : option JsError
}.

(** The user object of the auth client. *)
Record AuthUser := mkAuthUser {
  au_id : string;
  au_user_metadata : JsVal
}.

(** The [{ data: { user }, error }] of [auth.signUp]/[auth.signInWithPassword]. *)
Record AuthResult := mkAuthResult {
  a_user : option AuthUser;
  a_error : option JsError
}.

(** The reply of [ai.models.generateContent]: [response.text] may be
    [undefined]. *)
Record AiResponse := mkAiResponse {
  text : option string
}.

(** The behaviour of the outside parties: the reply to the [n]-th call of
    each kind, the clock and the random source.  [Math_random_base36 n] is the
    string [Math.random().toString(36)] of the [n]-th draw. *)
Record Env := mkEnv {
  profiles_single : nat -> Reply QueryResult;
  auth_signUp : nat -> Reply AuthResult;
  auth_signInWithPassword : nat -> Reply AuthResult;
  auth_getSession : nat -> Reply (option AuthUser);
  auth_signOut : nat -> Reply (option JsError);
  entries_select : nat -> Reply QueryResult;
  entries_insert : nat -> Reply (option JsError);
  entries_delete : nat -> Reply (option JsError);
  ai_generateContent : nat -> Reply AiResponse;
  Date_now : nat -> Z;
  Math_random_base36 : nat -> string
}.

(** The calls that leave the program, with their arguments. *)
Inductive Event : Type :=
| EvProfilesSingle (userId : string)
| EvSignUp (email password : string) (metadata : JsVal)
| EvSignInWithPassword (email password : JsVal)
| EvGetSession
| EvSignOut
| EvEntriesSelect
| EvEntriesInsert (payload : JsVal)
| EvEntriesDelete (id : string)
| EvGenerateContent (model : string) (imageData : string)
| EvDateNow
| EvMathRandom
| EvSleep (ms : nat)
| EvSetItem (key value : string)
| EvRemoveItem (key : string).

Inductive Kind : Type :=
| KProfilesSingle | KSignUp | KSignInWithPassword | KGetSession | KSignOut
| KEntriesSelect | KEntriesInsert | KEntriesDelete | KGenerateContent
| KDateNow | KMathRandom | KSleep | KSetItem | KRemoveItem.

Definition kind_of (e : Event) : Kind :=
  match e with
  | EvProfilesSingle _ => KProfilesSingle
  | EvSignUp _ _ _ => KSignUp
  | EvSignInWithPassword _ _ => KSignInWithPassword
  | EvGetSession => KGetSession
  | EvSignOut => KSignOut
  | EvEntriesSelect => KEntriesSelect
  | EvEntriesInsert _ => KEntriesInsert
  | EvEntriesDelete _ => KEntriesDelete
  | EvGenerateContent _ _ => KGenerateContent
  | EvDateNow => KDateNow
  | EvMathRandom => KMathRandom
  | EvSleep _ => KSleep
  | EvSetItem _ _ => KSetItem
  | EvRemoveItem _ => KRemoveItem
  end.

Definition kind_eqb (a b : Kind) : bool :=
  match a, b with
  | KProfilesSingle, KProfilesSingle | KSignUp, KSignUp
  | KSignInWithPassword, KSignInWithPassword | KGetSession, KGetSession
  | KSignOut, KSignOut | KEntriesSelect, KEntriesSelect
  | KEntriesInsert, KEntriesInsert | KEntriesDelete, KEntriesDelete
  | KGenerateContent, KGenerateContent | KDateNow, KDateNow
  | KMathRandom, KMathRandom | KSleep, KSleep | KSetItem, KSetItem
  | KRemoveItem, KRemoveItem => true
  | _, _ => false
  end.

(** How many calls of kind [k] the trace (newest first) holds. *)
Fixpoint calls (k : Kind) (tr : list Event) : nat :=
  match tr with
  | [] => 0
  | e :: r => if kind_eqb (kind_of e) k then S (calls k r) else calls k r
  end.

Record World := mkWorld {
  env : Env;
  trace : list Event;
  localStorage : Storage
}.

Definition record (e : Event) (w : World) : World :=
  mkWorld (env w) (e :: trace w) (localStorage w).

(* ===================================================================== *)
(** ** The monad of the services *)
(* ===================================================================== *)

Inductive Outcome (A : Type) : Type :=
| Ok (a : A)
| Throw (e : JsError).
Arguments Ok {A} a.
Arguments Throw {A} e.

Definition M (A : Type) : Type := World -> Outcome A * World.

Definition ret {A} (a : A) : M A := fun w => (Ok a, w).

Definition throw {A} (e : JsError) : M A := fun w => (Throw e, w).

Definition bind {A B} (c : M A) (k : A -> M B) : M B :=
  fun w => match c w with
           | (Ok a, w') => k a w'
           | (Throw e, w') => (Throw e, w')
           end.

(** [try { c } catch (e) { h e }]. *)
Definition try_catch {A} (c : M A) (h : JsError -> M A) : M A :=
  fun w => match c w with
           | (Ok a, w') => (Ok a, w')
           | (Throw e, w') => h e w'
           end.

Notation "'let*' x ':=' c 'in' k" := (bind c (fun x => k))
  (at level 10, x name, c at level 100, k at level 200).

Fixpoint mapM {A B} (f : A -> M B) (l : list A) : M (list B) :=
  match l with
  | [] => ret []
  | x :: r => let* y := f x in let* ys := mapM f r in ret (y :: ys)
  end.

(** A remote call: look up the reply to the call of this kind with this
    index, record the call, settle the promise. *)
Definition remote {A} (ev : Event) (oracle : Env -> nat -> Reply A) : M A :=
  fun w =>
    let w' := record ev w in
    match oracle (env w) (calls (kind_of ev) (trace w)) with
    | Resolves a => (Ok a, w')
    | Rejects e => (Throw e, w')
    end.

(** A read of the clock or of the random source. *)
Definition sample {A} (ev : Event) (oracle : Env -> nat -> A) : M A :=
  fun w => (Ok (oracle (env w) (calls (kind_of ev) (trace w))), record ev w).

(** [await new Promise(resolve => setTimeout(resolve, ms))]. *)
Definition sleep (ms : nat) : M unit := fun w => (Ok tt, record (EvSleep ms) w).

(** [v.k] with its TypeError. *)
Definition member (v : JsVal) (k : string) : M JsVal :=
  match get_prop v k with
  | Some x => ret x
  | None => throw (Error ("TypeError: Cannot read properties of " +:+ js_to_string v))
  end.

Definition getItem (k : string) : M (option string) :=
  fun w => (Ok (items (localStorage w) !! k), w).

Definition setItem (k v : string) : M unit :=
  fun w =>
    let m := <[k := v]> (items (localStorage w)) in
    if N.leb (storage_size m) (quota (localStorage w)) then
      (Ok tt, mkWorld (env w) (EvSetItem k v :: trace w)
                (mkStorage m (quota (localStorage w))))
    else (Throw (Error "QuotaExceededError"), w).

Definition removeItem (k : string) : M unit :=
  fun w =>
    (Ok tt, mkWorld (env w) (EvRemoveItem k :: trace w)
              (mkStorage (delete k (items (localStorage w))) (quota (localStorage w)))).

(** [s ? s : undefined]-style truthiness of a [getItem] result. *)
Definition present (o : option string) : bool :=
  match o with Some s => nonempty s | None => false end.

(** [JSON.parse(s)] and [atob(s)] with their exceptions. *)
Definition JSON_parse_M `{Platform} (s : string) : M JsVal :=
  match JSON_parse s with
  | Some v => ret v
  | None => throw (Error "SyntaxError: Unexpected token in JSON")
  end.

Definition atob_M `{Platform} (s : string) : M string :=
  match atob s with
  | Some d => ret d
  | None => throw (Error "InvalidCharacterError: The string to be decoded is not correctly encoded.")
  end.

(** [s.substring(n)]: the characters of [s] from index [n] on. *)
Fixpoint substring_from (n : nat) (s : string) : string :=
  match n, s with
  | 0, _ => s
  | S n', String _ r => substring_from n' r
  | S _, EmptyString => EmptyString
  end.

Fixpoint strip_prefix (p s : string) : option string :=
  match p, s with
  | EmptyString, _ => Some s
  | String a p', String b s' => if Ascii.eqb a b then strip_prefix p' s' else None
  | String _ _, EmptyString => None
  end.

(** A string literal between double quotes. *)
Definition quoted (s : string) : string :=
  String dquote (s +:+ String dquote EmptyString).

(* ===================================================================== *)
(** ** types.ts *)
(* ===================================================================== *)

Inductive UserRole : Type := SUPER_ADMIN | ADMIN | DATA_ENTRY_WORKER.

(** The string value of an enum member. *)
Definition UserRole_value (r : UserRole) : string :=
  match r with
  | SUPER_ADMIN => "SUPER_ADMIN"
  | ADMIN => "ADMIN"
  | DATA_ENTRY_WORKER => "DATA_ENTRY_WORKER"
  end.

(** [interface User].  The fields are filled from untyped rows and metadata
    ([profile.role as UserRole] is a cast, not a check), so at run time they
    hold whatever the row holds. *)
Record User := mkUser {
  u_id : JsVal;
  u_name : JsVal;
  u_role : JsVal;
  u_avatarUrl : JsVal
}.

Inductive ReservoirStatus : Type := NORMAL | WARNING | CRITICAL | SPILLING.

Definition ReservoirStatus_value (s : ReservoirStatus) : string :=
  match s with
  | NORMAL => "NORMAL"
  | WARNING => "WARNING"
  | CRITICAL => "CRITICAL"
  | SPILLING => "SPILLING"
  end.

Record Coordinates := mkCoordinates {
  latitude : Z;
  longitude : Z
}.

Record ReservoirEntry := mkReservoirEntry {
  e_id : string;
  e_name : string;
  locationName : string;
  coordinates : Coordinates;
  waterLevel : Z;
  capacityPercentage : Z;
  e_status : ReservoirStatus;
  notes : string;
  timestamp : Z;
  submittedBy : string;
  isVerified : bool;
  geminiAnalysis : option string;
  groundingUrl : option string
}.

Definition js_optional (o : option string) : JsVal :=
  match o with Some s => JStr s | None => JUndefined end.

(** The entry as the object that [JSON.stringify] and the array spread see. *)
Definition entry_object (e : ReservoirEntry) : JsVal :=
  JObj [ ("id", JStr (e_id e));
         ("name", JStr (e_name e));
         ("locationName", JStr (locationName e));
         ("coordinates", JObj [ ("latitude", JNum (latitude (coordinates e)));
                                ("longitude", JNum (longitude (coordinates e))) ]);
         ("waterLevel", JNum (waterLevel e));
         ("capacityPercentage", JNum (capacityPercentage e));
         ("status", JStr (ReservoirStatus_value (e_status e)));
         ("notes", JStr (notes e));
         ("timestamp", JNum (timestamp e));
         ("submittedBy", JStr (submittedBy e));
         ("isVerified", JBool (isVerified e));
         ("geminiAnalysis", js_optional (geminiAnalysis e));
         ("groundingUrl", js_optional (groundingUrl e)) ].

(* ===================================================================== *)
(** ** services/geminiService.ts: the biometric gate *)
(* ===================================================================== *)

Section Services.
Context `{Platform}.

(** [base64Image.replace(/^data:image\/(png|jpeg|jpg);base64,/, EMPTY)]. *)
Definition strip_data_url_header (base64Image : string) : string :=
  match strip_prefix "data:image/png;base64," base64Image with
  | Some r => r
  | None =>
      match strip_prefix "data:image/jpeg;base64," base64Image with
      | Some r => r
      | None =>
          match strip_prefix "data:image/jpg;base64," base64Image with
          | Some r => r
          | None => base64Image
          end
      end
  end.

(** The JSON text parsed when [response.text] is empty or missing. *)
Definition no_response_json : string :=
  "{" +:+ quoted "authorized" +:+ ": false, " +:+ quoted "reason" +:+ ": "
      +:+ quoted "No response from AI" +:+ "}".

(** [response.text || fallback]. *)
Definition text_or (response : AiResponse) (fallback : string) : string :=
  match text response with
  | Some t => if nonempty t then t else fallback
  | None => fallback
  end.

Definition verdict (authorized : bool) (reason : string) : JsVal :=
  JObj [("authorized", JBool authorized); ("reason", JStr reason)].

Definition service_unavailable : JsVal :=
  verdict false "Biometric Service Unavailable. Check connection.".

Definition analyzeFaceForAccess (base64Image : string) : M JsVal :=
  try_catch
    (let modelId := "gemini-2.5-flash" in
     let cleanBase64 := strip_data_url_header base64Image in
     let* response := remote (EvGenerateContent modelId cleanBase64) ai_generateContent in
     let* result := JSON_parse_M (text_or response no_response_json) in
     ret result)
    (fun e => ret service_unavailable).

(* ===================================================================== *)
(** ** services/authService.ts *)
(* ===================================================================== *)

Definition BIOMETRIC_VAULT_KEY : string := "lrw_biometric_vault".

Definition is_error (o : option JsError) : bool :=
  match o with Some _ => true | None => false end.

Definition option_is (o : option string) (lit : string) : bool :=
  match o with Some s => String.eqb s lit | None => false end.

Definition status_is (o : option Z) (n : Z) : bool :=
  match o with Some z => Z.eqb z n | None => false end.

Definition trigger_crash_message : string :=
  "DATABASE CONFIG ERROR: The Supabase Trigger is crashing. Please run the provided 'schema.sql' script in your Supabase SQL Editor to fix this.".

(** The [options.data] object that [signUp] attaches to the new account. *)
Definition signUp_metadata (name : string) (role : UserRole) : JsVal :=
  JObj [ ("name", JStr name);
         ("role", JStr (UserRole_value role));
         ("avatar_url",
          JStr ("https://ui-avatars.com/api/?name=" +:+ encodeURIComponent name
                  +:+ "&background=random")) ].

Definition signUp (email password name : string) (role : UserRole)
  : M (option AuthUser * option JsError) :=
  let* r := remote (EvSignUp email password (signUp_metadata name role)) auth_signUp in
  match a_error r with
  | Some authError =>
      if status_is (status authError) 500 || option_is (code authError) "unexpected_failure"
      then throw (Error trigger_crash_message)
      else throw (Error (if nonempty (message authError) then message authError
                         else "Registration failed"))
  | None =>
      match a_user r with
      | None => throw (Error "User creation failed")
      | Some user => ret (Some user, None)
      end
  end.

(** The result pair [{ appUser, error }] of [signIn] and [getUserProfile]. *)
Record ProfileResult := mkProfileResult {
  appUser : option User;
  error : option JsError
}.

Definition maxAttempts : nat := 5.
Definition delayMs : nat := 500.

(** The [while (attempts < maxAttempts)] loop of [getUserProfile], by the
    number [remaining = maxAttempts - attempts] of iterations still allowed.
    [Some user] is the [return] from inside the loop, [None] the exit when
    the bound is reached. *)
Fixpoint poll_profiles (remaining : nat) (userId : string) : M (option User) :=
  match remaining with
  | 0 => ret None
  | S r =>
      let* q := remote (EvProfilesSingle userId) profiles_single in
      let profile := q_data q in
      if negb (is_error (q_error q)) && truthy profile then
        let* p_id := member profile "id" in
        let* p_name := member profile "name" in
        let* p_role := member profile "role" in
        let* p_avatar := member profile "avatar_url" in
        ret (Some (mkUser p_id p_name p_role p_avatar))
      else
        let* _ := (match r with 0 => ret tt | S _ => sleep delayMs end) in
        poll_profiles r userId
  end.

Definition profile_unavailable : JsError :=
  Error "Profile could not be loaded. Please try logging out and logging back in.".

Definition getUserProfile (userId : string) (authUserFallback : JsVal) : M ProfileResult :=
  let* found := poll_profiles maxAttempts userId in
  match found with
  | Some appUser => ret (mkProfileResult (Some appUser) None)
  | None =>
      let* guard :=
        (if truthy authUserFallback then member authUserFallback "user_metadata"
         else ret authUserFallback) in
      if truthy guard then
        let* meta := member authUserFallback "user_metadata" in
        let* m_name := member meta "name" in
        let* m_role := member meta "role" in
        let* m_avatar := member meta "avatar_url" in
        ret (mkProfileResult
               (Some (mkUser (JStr userId)
                        (js_or m_name (JStr "Unknown User"))
                        (js_or m_role (JStr (UserRole_value DATA_ENTRY_WORKER)))
                        (js_or m_avatar
                           (JStr "https://ui-avatars.com/api/?name=User&background=random"))))
               None)
      else ret (mkProfileResult None (Some profile_unavailable))
  end.

(** The auth client's user object, seen as [any]. *)
Definition AuthUser_object (u : AuthUser) : JsVal :=
  JObj [("id", JStr (au_id u)); ("user_metadata", au_user_metadata u)].

Definition signIn (email password : JsVal) : M ProfileResult :=
  let* r := remote (EvSignInWithPassword email password) auth_signInWithPassword in
  match a_error r with
  | Some e => ret (mkProfileResult None (Some (Error (message e))))
  | None =>
      match a_user r with
      | None => ret (mkProfileResult None (Some (Error "No user found")))
      | Some user => getUserProfile (au_id user) (AuthUser_object user)
      end
  end.

Definition signOut : M (option JsError) := remote EvSignOut auth_signOut.

Definition getCurrentUser : M (option User) :=
  let* session_user := remote EvGetSession auth_getSession in
  match session_user with
  | None => ret None
  | Some user =>
      let* r := getUserProfile (au_id user) (AuthUser_object user) in
      ret (appUser r)
  end.

Definition isDeviceEnrolled : M bool :=
  let* v := getItem BIOMETRIC_VAULT_KEY in ret (present v).

(** The synthetic credential pair of step 2 of [enrollDevice]. *)
Record Credentials := mkCredentials {
  c_email : string;
  c_password : string
}.

Definition Credentials_object (c : Credentials) : JsVal :=
  JObj [("email", JStr (c_email c)); ("password", JStr (c_password c))].

Definition generateCredentials : M Credentials :=
  let* timestamp := sample EvDateNow Date_now in
  let* draw1 := sample EvMathRandom Math_random_base36 in
  let randomSuffix := substring_from 7 draw1 in
  let email := "officer." +:+ pretty timestamp +:+ "." +:+ randomSuffix
                 +:+ "@lankareservoir.secure" in
  let* draw2 := sample EvMathRandom Math_random_base36 in
  let password := "SECURE_" +:+ pretty timestamp +:+ "_" +:+ substring_from 2 draw2
                    +:+ "!@#" in
  ret (mkCredentials email password).

Definition enrollDevice (name : string) (role : UserRole) (faceImageBase64 : string)
  : M User :=
  let* analysis := analyzeFaceForAccess faceImageBase64 in
  let* authorized := member analysis "authorized" in
  if negb (truthy authorized) then
    let* reason := member analysis "reason" in
    throw (Error ("Face Enrollment Failed: " +:+ js_to_string reason))
  else
    let* creds := generateCredentials in
    let* registered := signUp (c_email creds) (c_password creds) name role in
    match snd registered with
    | Some e => throw e
    | None =>
        match fst registered with
        | None => throw (Error "Cloud Registration Failed")
        | Some _ =>
            let vaultData :=
              btoa (default "undefined" (JSON_stringify (Credentials_object creds))) in
            let* _ := setItem BIOMETRIC_VAULT_KEY vaultData in
            let* login := signIn (JStr (c_email creds)) (JStr (c_password creds)) in
            match error login, appUser login with
            | None, Some appUser => ret appUser
            | _, _ => throw (Error "Enrollment Login Failed")
            end
        end
    end.

Definition token_corrupted : JsError :=
  Error "Biometric Token Corrupted. Please Re-Enroll.".

Definition faceLogin (faceImageBase64 : string) : M User :=
  let* vault := getItem BIOMETRIC_VAULT_KEY in
  if negb (present vault) then
    throw (Error "Device not enrolled. Please perform One-Time Setup.")
  else
    let* analysis := analyzeFaceForAccess faceImageBase64 in
    let* authorized := member analysis "authorized" in
    if negb (truthy authorized) then
      let* reason := member analysis "reason" in
      throw (Error ("Access Denied: " +:+ js_to_string reason))
    else
      try_catch
        (let* decoded := atob_M (default EmptyString vault) in
         let* creds := JSON_parse_M decoded in
         let* email := member creds "email" in
         let* password := member creds "password" in
         let* login := signIn email password in
         match error login with
         | Some e => throw e
         | None =>
             match appUser login with
             | None => throw (Error "User not found.")
             | Some appUser => ret appUser
             end
         end)
        (fun e => throw token_corrupted).

Definition resetEnrollment : M unit := removeItem BIOMETRIC_VAULT_KEY.

(* ===================================================================== *)
(** ** services/dataService.ts *)
(* ===================================================================== *)

Definition LOCAL_STORAGE_KEY : string := "reservoir_entries".

Inductive Source : Type := MYSQL | LOCAL.

Record EntriesResult := mkEntriesResult {
  data : JsVal;
  source : Source;
  isMissingTable : bool
}.

(** The receiver of [.map] and [.filter] has to be an array. *)
Definition as_array (v : JsVal) : M (list JsVal) :=
  match v with
  | JArr l => ret l
  | _ => throw (Error "TypeError: not a function")
  end.

(** The elements that iterating over [v] yields: those of an array, the
    characters of a string; [None] when [v] is not iterable. *)
Definition iterate (v : JsVal) : option (list JsVal) :=
  match v with
  | JArr l => Some l
  | JStr s => Some (List.map (fun c => JStr (String c EmptyString)) (list_ascii_of_string s))
  | _ => None
  end.

(** The spread [...v], with its TypeError. *)
Definition spread (v : JsVal) : M (list JsVal) :=
  match iterate v with
  | Some l => ret l
  | None => throw (Error "TypeError: not iterable")
  end.

(** The callback of [data.map]: snake_case columns to the camelCase entry. *)
Definition mapRow (row : JsVal) : M JsVal :=
  let* r_id := member row "id" in
  let* r_name := member row "name" in
  let* r_location := member row "location_name" in
  let* r_latitude := member row "latitude" in
  let* r_longitude := member row "longitude" in
  let* r_level := member row "water_level" in
  let* r_capacity := member row "capacity_percentage" in
  let* r_status := member row "status" in
  let* r_notes := member row "notes" in
  let* r_timestamp := member row "timestamp" in
  let* r_submitted := member row "submitted_by" in
  let* r_verified := member row "is_verified" in
  let* r_analysis := member row "gemini_analysis" in
  let* r_grounding := member row "grounding_url" in
  ret (JObj [ ("id", r_id);
              ("name", r_name);
              ("locationName", r_location);
              ("coordinates", JObj [("latitude", r_latitude); ("longitude", r_longitude)]);
              ("waterLevel", r_level);
              ("capacityPercentage", r_capacity);
              ("status", r_status);
              ("notes", r_notes);
              ("timestamp", r_timestamp);
              ("submittedBy", r_submitted);
              ("isVerified", r_verified);
              ("geminiAnalysis", r_analysis);
              ("groundingUrl", r_grounding) ]).

Definition MISSING_TABLE_CODE : string := "PGRST205".

(** [saved ? JSON.parse(saved) : []]. *)
Definition parse_saved (saved : option string) : M JsVal :=
  if present saved then JSON_parse_M (default EmptyString saved) else ret (JArr []).

Definition getEntries : M EntriesResult :=
  try_catch
    (let* r := remote EvEntriesSelect entries_select in
     match q_error r with
     | Some e => throw e
     | None =>
         let* rows := as_array (js_or (q_data r) (JArr [])) in
         let* mappedData := mapM mapRow rows in
         ret (mkEntriesResult (JArr mappedData) MYSQL false)
     end)
    (fun e =>
       let isMissingTable := option_is (code e) MISSING_TABLE_CODE in
       let* saved := getItem LOCAL_STORAGE_KEY in
       let* data := parse_saved saved in
       ret (mkEntriesResult data LOCAL isMissingTable)).

Definition dbPayload (entry : ReservoirEntry) : JsVal :=
  JObj [ ("id", JStr (e_id entry));
         ("name", JStr (e_name entry));
         ("location_name", JStr (locationName entry));
         ("latitude", JNum (latitude (coordinates entry)));
         ("longitude", JNum (longitude (coordinates entry)));
         ("water_level", JNum (waterLevel entry));
         ("capacity_percentage", JNum (capacityPercentage entry));
         ("status", JStr (ReservoirStatus_value (e_status entry)));
         ("notes", JStr (notes entry));
         ("timestamp", JNum (timestamp entry));
         ("submitted_by", JStr (submittedBy entry));
         ("is_verified", JBool (isVerified entry));
         ("gemini_analysis", js_optional (geminiAnalysis entry));
         ("grounding_url", js_optional (groundingUrl entry)) ].

(** The first [try] of [addEntry]: the pair [(success, errorMessage)] it
    leaves behind.  Both only feed the console. *)
Definition insert_remote (entry : ReservoirEntry) : M (bool * string) :=
  try_catch
    (let* insert_error := remote (EvEntriesInsert (JArr [dbPayload entry])) entries_insert in
     match insert_error with
     | None => ret (true, EmptyString)
     | Some e =>
         if option_is (code e) MISSING_TABLE_CODE
         then ret (false, "Table 'reservoir_entries' does not exist. Run schema.sql in Supabase.")
         else ret (false, message e)
     end)
    (fun e => ret (false, if nonempty (message e) then message e else "Unknown error")).

(** The second [try] of [addEntry]: the mirror into the local cache. *)
Definition mirror_local (entry : ReservoirEntry) : M unit :=
  try_catch
    (let* saved := getItem LOCAL_STORAGE_KEY in
     let* entries := parse_saved saved in
     let* rest := spread entries in
     let newEntries := JArr (entry_object entry :: rest) in
     setItem LOCAL_STORAGE_KEY (default "undefined" (JSON_stringify newEntries)))
    (fun e => ret tt).

Definition addEntry (entry : ReservoirEntry) : M unit :=
  let* remote_outcome := insert_remote entry in
  let* _ := mirror_local entry in
  ret tt.

Fixpoint filterM {A} (f : A -> M bool) (l : list A) : M (list A) :=
  match l with
  | [] => ret []
  | x :: r =>
      let* keep := f x in
      let* rest := filterM f r in
      ret (if keep then x :: rest else rest)
  end.

Definition deleteEntry (id : string) : M unit :=
  let* _ := try_catch (let* _ := remote (EvEntriesDelete id) entries_delete in ret tt)
                      (fun e => ret tt) in
  let* saved := getItem LOCAL_STORAGE_KEY in
  if present saved then
    let* parsed := JSON_parse_M (default EmptyString saved) in
    let* entries := as_array parsed in
    let* filtered :=
      filterM (fun e => let* e_id := member e "id" in ret (negb (js_is_string e_id id)))
              entries in
    setItem LOCAL_STORAGE_KEY (default "undefined" (JSON_stringify (JArr filtered)))
  else ret tt.

(* ===================================================================== *)
(** ** components/Auth.tsx: the verification loop *)
(* ===================================================================== *)

Inductive Mode : Type := CHECK | ENROLL | VERIFY.

Definition Mode_eqb (a b : Mode) : bool :=
  match a, b with
  | CHECK, CHECK | ENROLL, ENROLL | VERIFY, VERIFY => true
  | _, _ => false
  end.

(** The state and refs of the [Auth] component.  [scanIntervalRef] holds,
    while the interval is armed, the [mode] that its callback closed over;
    [loginSuccesses] counts the calls of [onLoginSuccess]. *)
Record AuthState := mkAuthState {
  mode : Mode;
  isLoading : bool;
  ui_error : option string;
  statusMessage : string;
  ui_name : string;
  ui_role : UserRole;
  isEnrollmentStarted : bool;
  streamRef : bool;
  scanIntervalRef : option Mode;
  isScanningRef : bool;
  loginSuccesses : nat
}.

Definition stopCamera (st : AuthState) : AuthState :=
  mkAuthState (mode st) (isLoading st) (ui_error st) (statusMessage st) (ui_name st)
    (ui_role st) (isEnrollmentStarted st) false (scanIntervalRef st) (isScanningRef st)
    (loginSuccesses st).

Definition stopScanningLoop (st : AuthState) : AuthState :=
  mkAuthState (mode st) (isLoading st) (ui_error st) (statusMessage st) (ui_name st)
    (ui_role st) (isEnrollmentStarted st) (streamRef st) None (isScanningRef st)
    (loginSuccesses st).

(** [startScanningLoop] as called from a render whose [mode] is
    [closure_mode]: arms the interval unless one is armed. *)
Definition startScanningLoop (closure_mode : Mode) (st : AuthState) : AuthState :=
  match scanIntervalRef st with
  | Some _ => st
  | None =>
      mkAuthState (mode st) (isLoading st) (ui_error st) (statusMessage st) (ui_name st)
        (ui_role st) (isEnrollmentStarted st) (streamRef st) (Some closure_mode)
        (isScanningRef st) (loginSuccesses st)
  end.

(** [handleAutoVerify] up to its [await]. *)
Definition handleAutoVerify_begin (st : AuthState) : AuthState :=
  mkAuthState (mode st) true None "Scanning..." (ui_name st) (ui_role st)
    (isEnrollmentStarted st) (streamRef st) (scanIntervalRef st) true (loginSuccesses st).

(** [handleAutoVerify] from the moment [faceLogin] settles. *)
Definition handleAutoVerify_settle (r : Outcome User) (st : AuthState) : AuthState :=
  match r with
  | Ok _ =>
      let st1 := stopCamera (stopScanningLoop st) in
      mkAuthState (mode st1) (isLoading st1) (ui_error st1) "Identity Verified" (ui_name st1)
        (ui_role st1) (isEnrollmentStarted st1) (streamRef st1) (scanIntervalRef st1)
        (isScanningRef st1) (S (loginSuccesses st1))
  | Throw _ =>
      mkAuthState (mode st) false (ui_error st) "Adjust face position..." (ui_name st)
        (ui_role st) (isEnrollmentStarted st) (streamRef st) (scanIntervalRef st) false
        (loginSuccesses st)
  end.

(** One whole verification attempt.  The result type has no room for an
    exception: the [try]/[catch] of [handleAutoVerify] covers its only call. *)
Definition handleAutoVerify (image : string) (st : AuthState) (w : World)
  : AuthState * World :=
  let st1 := handleAutoVerify_begin st in
  let (r, w') := faceLogin image w in
  (handleAutoVerify_settle r st1, w').

(** [handleReset], given the answer to its [confirm] dialog. *)
Definition handleReset (confirmed : bool) (st : AuthState) (w : World)
  : AuthState * World :=
  if confirmed then
    let (_, w') := resetEnrollment w in
    let st1 := stopScanningLoop st in
    (mkAuthState ENROLL (isLoading st1) None (statusMessage st1) EmptyString (ui_role st1)
       false (streamRef st1) (scanIntervalRef st1) (isScanningRef st1) (loginSuccesses st1),
     w')
  else (st, w).

(** The component on the event loop.  [inflight] holds the verification
    attempts whose [faceLogin] promise has not settled yet, each with the
    outcome it will settle with. *)
Record Session := mkSession {
  ui : AuthState;
  world : World;
  inflight : list (Outcome User)
}.

Inductive UiEvent : Type :=
| Tick (frame : option string)
| Settle
| ArmLoop (closure_mode : Mode)
| Reset (confirmed : bool)
| Cleanup.

(** The callback of [setInterval]; [frame] is what [captureImage()] returns. *)
Definition scanTick (frame : option string) (s : Session) : Session :=
  match scanIntervalRef (ui s) with
  | None => s
  | Some closure_mode =>
      if isScanningRef (ui s) || negb (Mode_eqb closure_mode VERIFY) then s
      else
        match frame with
        | None => s
        | Some image =>
            let st1 := handleAutoVerify_begin (ui s) in
            let (r, w') := faceLogin image (world s) in
            mkSession st1 w' (r :: inflight s)
        end
  end.

Definition step (ev : UiEvent) (s : Session) : Session :=
  match ev with
  | Tick frame => scanTick frame s
  | Settle =>
      match inflight s with
      | [] => s
      | r :: rest => mkSession (handleAutoVerify_settle r (ui s)) (world s) rest
      end
  | ArmLoop closure_mode => mkSession (startScanningLoop closure_mode (ui s)) (world s) (inflight s)
  | Reset confirmed =>
      let (st', w') := handleReset confirmed (ui s) (world s) in
      mkSession st' w' (inflight s)
  | Cleanup => mkSession (stopScanningLoop (stopCamera (ui s))) (world s) (inflight s)
  end.

Definition run (evs : list UiEvent) (s : Session) : Session :=
  fold_left (fun acc ev => step ev acc) evs s.

End Services.

(* ===================================================================== *)
(** ** A reference platform *)
(* ===================================================================== *)

(** Executable decoders, for running the services on concrete worlds:
    the forgiving base64 decoding of [atob], [encodeURIComponent] on one-byte
    characters, and [JSON.parse] on the JSON whose numbers are integers
    (a fraction or an exponent has no [JsVal] and is refused). *)
Module Reference.

Definition is_ws (c : ascii) : bool :=
  let n := nat_of_ascii c in
  Nat.eqb n 9 || Nat.eqb n 10 || Nat.eqb n 12 || Nat.eqb n 13 || Nat.eqb n 32.

Definition b64_index (c : ascii) : option nat :=
  let n := nat_of_ascii c in
  if Nat.leb 65 n && Nat.leb n 90 then Some (n - 65)
  else if Nat.leb 97 n && Nat.leb n 122 then Some (n - 97 + 26)
  else if Nat.leb 48 n && Nat.leb n 57 then Some (n - 48 + 52)
  else if Nat.eqb n 43 then Some 62
  else if Nat.eqb n 47 then Some 63
  else None.

Fixpoint sextets (l : list ascii) : option (list nat) :=
  match l with
  | [] => Some []
  | c :: r =>
      match b64_index c, sextets r with
      | Some n, Some ns => Some (n :: ns)
      | _, _ => None
      end
  end.

Fixpoint b64_decode (ns : list nat) : list nat :=
  match ns with
  | a :: b :: c :: d :: r =>
      (a * 4 + b / 16) :: ((b mod 16) * 16 + c / 4) :: ((c mod 4) * 64 + d) :: b64_decode r
  | [a; b; c] => [a * 4 + b / 16; (b mod 16) * 16 + c / 4]
  | [a; b] => [a * 4 + b / 16]
  | _ => []
  end.

Definition strip_padding (l : list ascii) : list ascii :=
  if Nat.eqb (length l mod 4) 0 then
    match rev l with
    | "="%char :: "="%char :: r => rev r
    | "="%char :: r => rev r
    | _ => l
    end
  else l.

Definition atob (s : string) : option string :=
  let l := strip_padding (List.filter (fun c => negb (is_ws c)) (list_ascii_of_string s)) in
  if Nat.eqb (length l mod 4) 1 then None
  else
    match sextets l with
    | Some ns => Some (string_of_list_ascii (List.map ascii_of_nat (b64_decode ns)))
    | None => None
    end.

Definition upper_hex (n : nat) : ascii :=
  default "0"%char (String.get n "0123456789ABCDEF").

Definition percent (n : nat) : string :=
  String "%"%char (String (upper_hex (n / 16)) (String (upper_hex (n mod 16)) EmptyString)).

Definition unreserved (c : ascii) : bool :=
  let n := nat_of_ascii c in
  (Nat.leb 65 n && Nat.leb n 90) || (Nat.leb 97 n && Nat.leb n 122)
  || (Nat.leb 48 n && Nat.leb n 57)
  || existsb (Ascii.eqb c) (list_ascii_of_string "-_.!~*'()").

Fixpoint encodeURIComponent (s : string) : string :=
  match s with
  | EmptyString => EmptyString
  | String c r =>
      let n := nat_of_ascii c in
      (if unreserved c then String c EmptyString
       else if Nat.ltb n 128 then percent n
       else percent (192 + n / 64) +:+ percent (128 + n mod 64))
      +:+ encodeURIComponent r
  end.

Definition is_json_ws (c : ascii) : bool :=
  let n := nat_of_ascii c in
  Nat.eqb n 9 || Nat.eqb n 10 || Nat.eqb n 13 || Nat.eqb n 32.

Fixpoint skip_ws (l : list ascii) : list ascii :=
  match l with
  | c :: r => if is_json_ws c then skip_ws r else l
  | [] => []
  end.

Definition digit_value (c : ascii) : option nat :=
  let n := nat_of_ascii c in
  if Nat.leb 48 n && Nat.leb n 57 then Some (n - 48) else None.

Definition hex_value (c : ascii) : option nat :=
  let n := nat_of_ascii c in
  if Nat.leb 48 n && Nat.leb n 57 then Some (n - 48)
  else if Nat.leb 97 n && Nat.leb n 102 then Some (n - 87)
  else if Nat.leb 65 n && Nat.leb n 70 then Some (n - 55)
  else None.

(** The digits at the head of [l], as a number, and what follows them. *)
Fixpoint read_digits (acc : N) (l : list ascii) : N * list ascii :=
  match l with
  | c :: r =>
      match digit_value c with
      | Some d => read_digits (acc * 10 + N.of_nat d)%N r
      | None => (acc, l)
      end
  | [] => (acc, [])
  end.

(** What may not follow an integer literal: a further digit (after a leading
    zero), a fraction or an exponent. *)
Definition continues_number (l : list ascii) : bool :=
  match l with
  | c :: _ =>
      match digit_value c with
      | Some _ => true
      | None => existsb (Ascii.eqb c) (list_ascii_of_string ".eE")
      end
  | [] => false
  end.

Definition read_number (l : list ascii) : option (Z * list ascii) :=
  let (negative, body) :=
    match l with
    | "-"%char :: r => (true, r)
    | _ => (false, l)
    end in
  match body with
  | c :: r =>
      match digit_value c with
      | Some d =>
          let (n, rest) := if Nat.eqb d 0 then (0%N, r) else read_digits 0%N body in
          if continues_number rest then None
          else Some (if negative then (- Z.of_N n)%Z else Z.of_N n, rest)
      | None => None
      end
  | [] => None
  end.

(** The characters of a string literal after its opening quote, up to and
    without the closing quote.  Escapes [\uXXXX] above one byte are refused. *)
Fixpoint read_string (l : list ascii) : option (string * list ascii) :=
  match l with
  | [] => None
  | c :: r =>
      if Ascii.eqb c dquote then Some (EmptyString, r)
      else if Nat.ltb (nat_of_ascii c) 32 then None
      else if Ascii.eqb c backslash then
        match r with
        | e :: r1 =>
            let plain (x : ascii) :=
              match read_string r1 with
              | Some (s, rest) => Some (String x s, rest)
              | None => None
              end in
            if Ascii.eqb e dquote then plain dquote
            else if Ascii.eqb e backslash then plain backslash
            else if Ascii.eqb e "/"%char then plain "/"%char
            else if Ascii.eqb e "b"%char then plain (ascii_of_nat 8)
            else if Ascii.eqb e "f"%char then plain (ascii_of_nat 12)
            else if Ascii.eqb e "n"%char then plain (ascii_of_nat 10)
            else if Ascii.eqb e "r"%char then plain (ascii_of_nat 13)
            else if Ascii.eqb e "t"%char then plain (ascii_of_nat 9)
            else if Ascii.eqb e "u"%char then
              match r1 with
              | "0"%char :: "0"%char :: h :: k :: r2 =>
                  match hex_value h, hex_value k, read_string r2 with
                  | Some a, Some b, Some (s, rest) =>
                      Some (String (ascii_of_nat (a * 16 + b)) s, rest)
                  | _, _, _ => None
                  end
              | _ => None
              end
            else None
        | [] => None
        end
      else
        match read_string r with
        | Some (s, rest) => Some (String c s, rest)
        | None => None
        end
  end.

(** A later property of the same name wins. *)
Fixpoint set_field (k : string) (v : JsVal) (fs : list (string * JsVal))
  : list (string * JsVal) :=
  match fs with
  | [] => [(k, v)]
  | (k0, v0) :: r => if String.eqb k k0 then (k, v) :: r else (k0, v0) :: set_field k v r
  end.

Fixpoint read_value (fuel : nat) (l : list ascii) : option (JsVal * list ascii) :=
  match fuel with
  | 0 => None
  | S fuel1 =>
      match skip_ws l with
      | "n"%char :: "u"%char :: "l"%char :: "l"%char :: r => Some (JNull, r)
      | "t"%char :: "r"%char :: "u"%char :: "e"%char :: r => Some (JBool true, r)
      | "f"%char :: "a"%char :: "l"%char :: "s"%char :: "e"%char :: r => Some (JBool false, r)
      | "["%char :: r =>
          match skip_ws r with
          | "]"%char :: r1 => Some (JArr [], r1)
          | _ => read_elements fuel1 [] r
          end
      | "{"%char :: r =>
          match skip_ws r with
          | "}"%char :: r1 => Some (JObj [], r1)
          | _ => read_members fuel1 [] r
          end
      | c :: r =>
          if Ascii.eqb c dquote then
            match read_string r with
            | Some (s, rest) => Some (JStr s, rest)
            | None => None
            end
          else
            match read_number (c :: r) with
            | Some (z, rest) => Some (JNum z, rest)
            | None => None
            end
      | [] => None
      end
  end
with read_elements (fuel : nat) (acc : list JsVal) (l : list ascii)
  : option (JsVal * list ascii) :=
  match fuel with
  | 0 => None
  | S fuel1 =>
      match read_value fuel1 l with
      | Some (v, rest) =>
          match skip_ws rest with
          | ","%char :: r => read_elements fuel1 (acc ++ [v]) r
          | "]"%char :: r => Some (JArr (acc ++ [v]), r)
          | _ => None
          end
      | None => None
      end
  end
with read_members (fuel : nat) (acc : list (string * JsVal)) (l : list ascii)
  : option (JsVal * list ascii) :=
  match fuel with
  | 0 => None
  | S fuel1 =>
      match skip_ws l with
      | q :: r =>
          if Ascii.eqb q dquote then
            match read_string r with
            | Some (k, rest) =>
                match skip_ws rest with
                | ":"%char :: r1 =>
                    match read_value fuel1 r1 with
                    | Some (v, rest1) =>
                        match skip_ws rest1 with
                        | ","%char :: r2 => read_members fuel1 (set_field k v acc) r2
                        | "}"%char :: r2 => Some (JObj (set_field k v acc), r2)
                        | _ => None
                        end
                    | None => None
                    end
                | _ => None
                end
            | None => None
            end
          else None
      | [] => None
      end
  end.

Definition JSON_parse (s : string) : option JsVal :=
  let l := list_ascii_of_string s in
  match read_value (2 * length l + 2) l with
  | Some (v, rest) => match skip_ws rest with [] => Some v | _ :: _ => None end
  | None => None
  end.

End Reference.

Definition reference_platform : Platform :=
  {| JSON_parse := Reference.JSON_parse;
     atob := Reference.atob;
     encodeURIComponent := Reference.encodeURIComponent |}.

(* ===================================================================== *)
(** ** Vocabulary of the statements *)
(* ===================================================================== *)

(** The world after the calls [evs] (newest first) went out, storage
    untouched. *)
Definition extend (evs : list Event) (w : World) : World :=
  mkWorld (env w) (evs ++ trace w) (localStorage w).

(** [v.k] where the read cannot fail. *)
Definition field (v : JsVal) (k : string) : JsVal :=
  default JUndefined (get_prop v k).

(** A computation that leaves the world as it is. *)
Definition silent {A} (c : M A) : Prop := forall w, snd (c w) = w.

(** [c] takes every world [w] to a world related to [w] by [P]. *)
Definition preserves (P : World -> World -> Prop) {A} (c : M A) : Prop :=
  forall w, P w (snd (c w)).

(** An event that writes [localStorage]. *)
Definition storage_event (ev : Event) : bool :=
  match ev with
  | EvSetItem _ _ | EvRemoveItem _ => true
  | _ => false
  end.

Definition not_storage_kind (k : Kind) : bool :=
  match k with KSetItem | KRemoveItem => false | _ => true end.

(** [w'] differs from [w] by outgoing calls only: same outside world, same
    storage, and no storage event among the new calls. *)
Definition only_calls (w w' : World) : Prop :=
  env w' = env w /\ localStorage w' = localStorage w /\
  exists new, trace w' = new ++ trace w /\ forallb (fun ev => negb (storage_event ev)) new = true.

(** The device counts as enrolled: [!!localStorage.getItem(BIOMETRIC_VAULT_KEY)]. *)
Definition enrolled (w : World) : bool :=
  present (items (localStorage w) !! BIOMETRIC_VAULT_KEY).

(* ===================================================================== *)
(** ** Vocabulary of the profile resolver *)
(* ===================================================================== *)

(** A poll of the profile store that finds the row: [!error && profile]. *)
Definition row_found (r : Reply QueryResult) : bool :=
  match r with
  | Resolves q => negb (is_error (q_error q)) && truthy (q_data q)
  | Rejects _ => false
  end.

(** A poll that fails: the query comes back with an error or without a row. *)
Definition attempt_fails (r : Reply QueryResult) : bool :=
  match r with
  | Resolves q => is_error (q_error q) || negb (truthy (q_data q))
  | Rejects _ => false
  end.

(** The reply that the [i]-th poll from world [w] on will get. *)
Definition poll_reply (w : World) (i : nat) : Reply QueryResult :=
  profiles_single (env w) (calls KProfilesSingle (trace w) + i).

(** [j + 1] polls for [userId], a wait of 500 ms between two of them. *)
Fixpoint backoff_trace (userId : string) (j : nat) : list Event :=
  match j with
  | 0 => [EvProfilesSingle userId]
  | S j' => EvProfilesSingle userId :: EvSleep 500 :: backoff_trace userId j'
  end.

(** [k] failed rounds, each a poll and the wait after it (newest first). *)
Fixpoint failed_rounds (userId : string) (k : nat) : list Event :=
  match k with
  | 0 => []
  | S k' => EvSleep delayMs :: EvProfilesSingle userId :: failed_rounds userId k'
  end.

(** The [User] mapped from a profile row. *)
Definition mapped_profile (profile : JsVal) : User :=
  mkUser (field profile "id") (field profile "name") (field profile "role")
         (field profile "avatar_url").

(** The [User] synthesized from the metadata of the auth user. *)
Definition fallback_profile (userId : string) (meta : JsVal) : User :=
  mkUser (JStr userId)
         (js_or (field meta "name") (JStr "Unknown User"))
         (js_or (field meta "role") (JStr "DATA_ENTRY_WORKER"))
         (js_or (field meta "avatar_url")
                (JStr "https://ui-avatars.com/api/?name=User&background=random")).

(** Fallback metadata is supplied: [authUserFallback && authUserFallback.user_metadata]. *)
Definition metadata_supplied (authUserFallback : JsVal) : bool :=
  truthy authUserFallback && truthy (field authUserFallback "user_metadata").

(* ===================================================================== *)
(** ** Vocabulary of the gate *)
(* ===================================================================== *)

(** The reply that the next call of the vision model will get. *)
Definition gate_reply (w : World) : Reply AiResponse :=
  ai_generateContent (env w) (calls KGenerateContent (trace w)).

(** The world after the gate was called with [image]. *)
Definition after_gate (image : string) (w : World) : World :=
  record (EvGenerateContent "gemini-2.5-flash" (strip_data_url_header image)) w.

(** The value the gate returns in world [w]. *)
Definition gate_value `{Platform} (w : World) : JsVal :=
  match gate_reply w with
  | Rejects _ => service_unavailable
  | Resolves response =>
      match JSON_parse (text_or response no_response_json) with
      | Some v => v
      | None => service_unavailable
      end
  end.

(** A value of the shape [{ authorized: boolean, reason: string }]. *)
Definition is_verdict (v : JsVal) : bool :=
  match get_prop v "authorized", get_prop v "reason" with
  | Some (JBool _), Some (JStr _) => true
  | _, _ => false
  end.

(** The gate rejects: the value has a falsy [authorized]. *)
Definition gate_rejects (v : JsVal) : bool :=
  match get_prop v "authorized" with
  | Some a => negb (truthy a)
  | None => false
  end.

(** The gate accepts: the value has a truthy [authorized]. *)
Definition gate_accepts (v : JsVal) : bool :=
  match get_prop v "authorized" with
  | Some a => truthy a
  | None => false
  end.

(* ===================================================================== *)
(** ** Vocabulary of the enrollment *)
(* ===================================================================== *)

(** The credential pairs sent to the sign-up endpoint, newest first. *)
Fixpoint registered (tr : list Event) : list (string * string) :=
  match tr with
  | [] => []
  | EvSignUp email password _ :: r => (email, password) :: registered r
  | _ :: r => registered r
  end.

Definition same_registered (w w' : World) : Prop :=
  registered (trace w') = registered (trace w).

Definition not_signUp_kind (k : Kind) : bool := negb (kind_eqb k KSignUp).

(** What the next reading of the clock and the [i]-th next random draw
    will be. *)
Definition clock_reading (w : World) : Z :=
  Date_now (env w) (calls KDateNow (trace w)).

Definition random_draw (w : World) (i : nat) : string :=
  Math_random_base36 (env w) (calls KMathRandom (trace w) + i).

(* ===================================================================== *)
(** ** Vocabulary of the vault *)
(* ===================================================================== *)

(** The vault was stored more recently than it was cleared: the newest
    vault operation of the trace is a write. *)
Fixpoint stored_since_clear (tr : list Event) : bool :=
  match tr with
  | [] => false
  | EvSetItem k _ :: r =>
      if String.eqb k BIOMETRIC_VAULT_KEY then true else stored_since_clear r
  | EvRemoveItem k :: r =>
      if String.eqb k BIOMETRIC_VAULT_KEY then false else stored_since_clear r
  | _ :: r => stored_since_clear r
  end.

(** The vault entry that the storage operations of the trace leave behind. *)
Fixpoint vault_replay (tr : list Event) : option string :=
  match tr with
  | [] => None
  | EvSetItem k v :: r =>
      if String.eqb k BIOMETRIC_VAULT_KEY then Some v else vault_replay r
  | EvRemoveItem k :: r =>
      if String.eqb k BIOMETRIC_VAULT_KEY then None else vault_replay r
  | _ :: r => vault_replay r
  end.

(** The number of completed vault writes. *)
Fixpoint vault_writes (tr : list Event) : nat :=
  match tr with
  | [] => 0
  | EvSetItem k _ :: r =>
      if String.eqb k BIOMETRIC_VAULT_KEY then S (vault_writes r) else vault_writes r
  | _ :: r => vault_writes r
  end.

(** Some call of the trace cleared the vault. *)
Fixpoint vault_cleared (tr : list Event) : bool :=
  match tr with
  | [] => false
  | EvRemoveItem k :: r => String.eqb k BIOMETRIC_VAULT_KEY || vault_cleared r
  | _ :: r => vault_cleared r
  end.

(** The storage holds the vault that the trace accounts for, and a vault
    that is held is not the empty string. *)
Definition vault_consistent (w : World) : Prop :=
  items (localStorage w) !! BIOMETRIC_VAULT_KEY = vault_replay (trace w)
  /\ forall v, vault_replay (trace w) = Some v -> nonempty v = true.

Definition keeps_vault_consistent (w w' : World) : Prop :=
  vault_consistent w -> vault_consistent w'.

Definition no_vault_clear (w w' : World) : Prop :=
  exists new, trace w' = new ++ trace w /\ vault_cleared new = false.

(** A device on which nothing has happened yet. *)
Definition fresh_device (w : World) : Prop :=
  trace w = [] /\ items (localStorage w) !! BIOMETRIC_VAULT_KEY = None.

(** The calls that the components make on the services. *)
Inductive ApiCall : Type :=
| CallSignUp (email password name : string) (role : UserRole)
| CallSignIn (email password : JsVal)
| CallSignOut
| CallGetCurrentUser
| CallGetUserProfile (userId : string) (authUserFallback : JsVal)
| CallIsDeviceEnrolled
| CallEnrollDevice (name : string) (role : UserRole) (faceImageBase64 : string)
| CallFaceLogin (faceImageBase64 : string)
| CallResetEnrollment
| CallAnalyzeFaceForAccess (base64Image : string)
| CallGetEntries
| CallAddEntry (entry : ReservoirEntry)
| CallDeleteEntry (id : string).

(** The world after a call, whatever the call returned or threw. *)
Definition perform `{Platform} (c : ApiCall) (w : World) : World :=
  match c with
  | CallSignUp email password name role => snd (signUp email password name role w)
  | CallSignIn email password => snd (signIn email password w)
  | CallSignOut => snd (signOut w)
  | CallGetCurrentUser => snd (getCurrentUser w)
  | CallGetUserProfile userId fb => snd (getUserProfile userId fb w)
  | CallIsDeviceEnrolled => snd (isDeviceEnrolled w)
  | CallEnrollDevice name role image => snd (enrollDevice name role image w)
  | CallFaceLogin image => snd (faceLogin image w)
  | CallResetEnrollment => snd (resetEnrollment w)
  | CallAnalyzeFaceForAccess image => snd (analyzeFaceForAccess image w)
  | CallGetEntries => snd (getEntries w)
  | CallAddEntry entry => snd (addEntry entry w)
  | CallDeleteEntry id => snd (deleteEntry id w)
  end.

Definition session `{Platform} (cs : list ApiCall) (w0 : World) : World :=
  fold_left (fun w c => perform c w) cs w0.

(* ===================================================================== *)
(** ** Vocabulary of the data service *)
(* ===================================================================== *)

(** The local cache as [getEntries] reads it: [saved ? JSON.parse(saved) : []].
    [None] when the stored text does not parse. *)
Definition local_cache `{Platform} (w : World) : option JsVal :=
  match items (localStorage w) !! LOCAL_STORAGE_KEY with
  | Some saved => if nonempty saved then JSON_parse saved else Some (JArr [])
  | None => Some (JArr [])
  end.

(** The entries of the local cache as [addEntry] spreads them. *)
Definition cached_entries `{Platform} (w : World) : option (list JsVal) :=
  match local_cache w with
  | Some v => iterate v
  | None => None
  end.

(** The storage has room for [v] under key [k]. *)
Definition fits (k v : string) (w : World) : bool :=
  N.leb (storage_size (<[k := v]> (items (localStorage w)))) (quota (localStorage w)).

(** The text of an array as the data service stores it. *)
Definition array_text (l : list JsVal) : string :=
  default "undefined" (JSON_stringify (JArr l)).

(** The text that [addEntry] stores for [entry] in front of [rest]. *)
Definition cache_text (entry : ReservoirEntry) (rest : list JsVal) : string :=
  array_text (entry_object entry :: rest).

(** The reply that the next read of the entries will get, and the error it
    fails with, if it fails. *)
Definition select_reply (w : World) : Reply QueryResult :=
  entries_select (env w) (calls KEntriesSelect (trace w)).

Definition read_error (r : Reply QueryResult) : option JsError :=
  match r with
  | Rejects e => Some e
  | Resolves q => q_error q
  end.

(** The cache text that the storage operations of the trace leave behind. *)
Fixpoint cache_replay (tr : list Event) : option string :=
  match tr with
  | [] => None
  | EvSetItem k v :: r =>
      if String.eqb k LOCAL_STORAGE_KEY then Some v else cache_replay r
  | EvRemoveItem k :: r =>
      if String.eqb k LOCAL_STORAGE_KEY then None else cache_replay r
  | _ :: r => cache_replay r
  end.

(** The storage holds the cache that the trace accounts for, and a cache
    that is held is the text of an array. *)
Definition cache_wellformed (w : World) : Prop :=
  items (localStorage w) !! LOCAL_STORAGE_KEY = cache_replay (trace w)
  /\ forall v, cache_replay (trace w) = Some v -> exists l, v = array_text l.

Definition keeps_cache_wellformed (w w' : World) : Prop :=
  cache_wellformed w -> cache_wellformed w'.

(** The platform's [JSON.parse] reads back what [JSON.stringify] wrote for
    an array. *)
Definition parses_own_arrays `{Platform} : Prop :=
  forall l, exists v, JSON_parse (array_text l) = Some v.

(** A device on which nothing has happened yet and that holds no cache. *)
Definition fresh_cache (w : World) : Prop :=
  trace w = [] /\ items (localStorage w) !! LOCAL_STORAGE_KEY = None.

(* ===================================================================== *)
(** ** Vocabulary of the verification loop *)
(* ===================================================================== *)

(** An attempt in flight holds the scanning flag, and there is no second
    one. *)
Definition attempt_invariant (s : Session) : Prop :=
  match inflight s with
  | [] => True
  | [_] => isScanningRef (ui s) = true
  | _ :: _ :: _ => False
  end.

Definition same_gate_calls (w w' : World) : Prop :=
  calls KGenerateContent (trace w') = calls KGenerateContent (trace w).

Definition not_gate_kind (k : Kind) : bool := negb (kind_eqb k KGenerateContent).

(* ===================================================================== *)
(** ** Concrete worlds *)
(* ===================================================================== *)

Definition offline : JsError := mkJsError "Failed to fetch" None None.

(** An outside world in which every remote call fails. *)
Definition dead_env : Env :=
  {| profiles_single := fun _ => Resolves (mkQueryResult JNull (Some offline));
     auth_signUp := fun _ => Resolves (mkAuthResult None (Some offline));
     auth_signInWithPassword := fun _ => Resolves (mkAuthResult None (Some offline));
     auth_getSession := fun _ => Resolves None;
     auth_signOut := fun _ => Resolves None;
     entries_select := fun _ => Resolves (mkQueryResult JNull (Some offline));
     entries_insert := fun _ => Resolves (Some offline);
     entries_delete := fun _ => Resolves (Some offline);
     ai_generateContent := fun _ => Rejects offline;
     Date_now := fun _ => 1764498001000%Z;
     Math_random_base36 := fun n => if Nat.even n then "0.k3j9x2m1qz8" else "0.7fh2a9c4d1e" |}.

(** The outside world [e] with one of its parties replaced. *)
Definition with_signUp (reply : nat -> Reply AuthResult) (e : Env) : Env :=
  {| profiles_single := profiles_single e;
     auth_signUp := reply;
     auth_signInWithPassword := auth_signInWithPassword e;
     auth_getSession := auth_getSession e;
     auth_signOut := auth_signOut e;
     entries_select := entries_select e;
     entries_insert := entries_insert e;
     entries_delete := entries_delete e;
     ai_generateContent := ai_generateContent e;
     Date_now := Date_now e;
     Math_random_base36 := Math_random_base36 e |}.

Definition with_signIn (reply : nat -> Reply AuthResult) (e : Env) : Env :=
  {| profiles_single := profiles_single e;
     auth_signUp := auth_signUp e;
     auth_signInWithPassword := reply;
     auth_getSession := auth_getSession e;
     auth_signOut := auth_signOut e;
     entries_select := entries_select e;
     entries_insert := entries_insert e;
     entries_delete := entries_delete e;
     ai_generateContent := ai_generateContent e;
     Date_now := Date_now e;
     Math_random_base36 := Math_random_base36 e |}.

Definition with_profiles (reply : nat -> Reply QueryResult) (e : Env) : Env :=
  {| profiles_single := reply;
     auth_signUp := auth_signUp e;
     auth_signInWithPassword := auth_signInWithPassword e;
     auth_getSession := auth_getSession e;
     auth_signOut := auth_signOut e;
     entries_select := entries_select e;
     entries_insert := entries_insert e;
     entries_delete := entries_delete e;
     ai_generateContent := ai_generateContent e;
     Date_now := Date_now e;
     Math_random_base36 := Math_random_base36 e |}.

Definition with_ai (reply : nat -> Reply AiResponse) (e : Env) : Env :=
  {| profiles_single := profiles_single e;
     auth_signUp := auth_signUp e;
     auth_signInWithPassword := auth_signInWithPassword e;
     auth_getSession := auth_getSession e;
     auth_signOut := auth_signOut e;
     entries_select := entries_select e;
     entries_insert := entries_insert e;
     entries_delete := entries_delete e;
     ai_generateContent := reply;
     Date_now := Date_now e;
     Math_random_base36 := Math_random_base36 e |}.

Definition with_entries_insert (reply : nat -> Reply (option JsError)) (e : Env) : Env :=
  {| profiles_single := profiles_single e;
     auth_signUp := auth_signUp e;
     auth_signInWithPassword := auth_signInWithPassword e;
     auth_getSession := auth_getSession e;
     auth_signOut := auth_signOut e;
     entries_select := entries_select e;
     entries_insert := reply;
     entries_delete := entries_delete e;
     ai_generateContent := ai_generateContent e;
     Date_now := Date_now e;
     Math_random_base36 := Math_random_base36 e |}.

Definition with_entries_select (reply : nat -> Reply QueryResult) (e : Env) : Env :=
  {| profiles_single := profiles_single e;
     auth_signUp := auth_signUp e;
     auth_signInWithPassword := auth_signInWithPassword e;
     auth_getSession := auth_getSession e;
     auth_signOut := auth_signOut e;
     entries_select := reply;
     entries_insert := entries_insert e;
     entries_delete := entries_delete e;
     ai_generateContent := ai_generateContent e;
     Date_now := Date_now e;
     Math_random_base36 := Math_random_base36 e |}.

(** The vision model answers every image with the given text. *)
Definition ai_says (t : string) (e : Env) : Env :=
  with_ai (fun _ => Resolves (mkAiResponse (Some t))) e.

(** The JSON text of a verdict without its reason. *)
Definition bare_approval_json : string :=
  "{" +:+ quoted "authorized" +:+ ": true}".

Definition approval_json : string :=
  "{" +:+ quoted "authorized" +:+ ": true, " +:+ quoted "reason" +:+ ": "
      +:+ quoted "One live frontal face" +:+ "}".

(** A rejection whose [authorized] is a string. *)
Definition stringly_rejection_json : string :=
  "{" +:+ quoted "authorized" +:+ ": " +:+ quoted "false" +:+ ", " +:+ quoted "reason"
      +:+ ": " +:+ quoted "No face detected" +:+ "}".

Definition rejection_json : string :=
  "{" +:+ quoted "authorized" +:+ ": false, " +:+ quoted "reason" +:+ ": "
      +:+ quoted "No face detected" +:+ "}".

Definition fresh_storage : Storage := mkStorage ∅ 5000000%N.

Definition world_of (e : Env) (st : Storage) : World := mkWorld e [] st.

Definition face : string := "data:image/jpeg;base64,/9j/4AAQSkZJRgABAQ".

Definition other_face : string := "data:image/png;base64,iVBORw0KGgoAAAANSUhEUg".

Definition perera_row : JsVal :=
  JObj [ ("id", JStr "u-1"); ("name", JStr "J. Perera"); ("role", JStr "ADMIN");
         ("avatar_url", JStr "https://ui-avatars.com/api/?name=J.%20Perera&background=random") ].

(** The profile row becomes visible at the third poll. *)
Definition late_row_env : Env :=
  with_profiles (fun n => if Nat.ltb n 2
                          then Resolves (mkQueryResult JNull (Some offline))
                          else Resolves (mkQueryResult perera_row None))
    dead_env.

(** An auth user whose metadata has a name but no role. *)
Definition roleless_user : JsVal :=
  JObj [ ("id", JStr "u-1"); ("user_metadata", JObj [("name", JStr "J. Perera")]) ].

Definition perera_credentials : Credentials :=
  mkCredentials "officer.1764498001000.2m1qz8@lankareservoir.secure"
                "SECURE_1764498001000_7fh2a9c4d1e!@#".

(** The vault as [enrollDevice] writes it for these credentials. *)
Definition perera_vault : string :=
  btoa (default "undefined" (JSON_stringify (Credentials_object perera_credentials))).

Definition enrolled_storage : Storage :=
  mkStorage {[ BIOMETRIC_VAULT_KEY := perera_vault ]} 5000000%N.

Definition invalid_login : JsError :=
  mkJsError "Invalid login credentials" (Some "invalid_credentials") (Some 400%Z).

(** The gate approves, the auth service refuses the sign-in. *)
Definition refused_signin_env : Env :=
  with_signIn (fun _ => Resolves (mkAuthResult None (Some invalid_login)))
    (ai_says approval_json dead_env).

(** The sign-up, the sign-in and the profile store all succeed. *)
Definition perera_auth_user : AuthUser :=
  mkAuthUser "u-1" (JObj [("name", JStr "J. Perera"); ("role", JStr "ADMIN")]).

Definition happy_env : Env :=
  with_profiles (fun _ => Resolves (mkQueryResult perera_row None))
    (with_signIn (fun _ => Resolves (mkAuthResult (Some perera_auth_user) None))
       (with_signUp (fun _ => Resolves (mkAuthResult (Some perera_auth_user) None))
          (ai_says approval_json dead_env))).

Definition verifying : AuthState :=
  mkAuthState VERIFY false None EmptyString EmptyString DATA_ENTRY_WORKER false true
    (Some VERIFY) false 0.

(** The component just mounted on an enrolled device, the interval armed. *)
Definition mounted (w : World) : Session := mkSession verifying w [].

Definition kandalama : ReservoirEntry :=
  {| e_id := "e-1"; e_name := "Kandalama"; locationName := "Kandalama Reservoir";
     coordinates := mkCoordinates 7 80;
     waterLevel := 12; capacityPercentage := 64; e_status := NORMAL;
     notes := EmptyString; timestamp := 1764498001000%Z; submittedBy := "J. Perera";
     isVerified := true; geminiAnalysis := None; groundingUrl := None |}.

(** A storage with the empty cache and no room for more. *)
Definition full_storage : Storage :=
  mkStorage {[ LOCAL_STORAGE_KEY := "[]" ]} 19%N.

Definition missing_table : JsError :=
  mkJsError "Could not find the table 'public.reservoir_entries' in the schema cache"
            (Some "PGRST205") (Some 404%Z).

Definition missing_table_env : Env :=
  with_entries_select (fun _ => Resolves (mkQueryResult JNull (Some missing_table))) dead_env.

(** The remote insert succeeds. *)
Definition insert_ok_env : Env :=
  with_entries_insert (fun _ => Resolves None) dead_env.

(* ===================================================================== *)
(** ** services/geminiService.ts: the geofence and the risk analysis *)
(* ===================================================================== *)

(** A string is read as its UTF-16 code units, all of them below 256. *)
Definition code_units (s : string) : list N :=
  List.map N_of_ascii (list_ascii_of_string s).

Fixpoint starts_with (needle hay : list N) : bool :=
  match needle, hay with
  | [], _ => true
  | n :: needle', h :: hay' => N.eqb n h && starts_with needle' hay'
  | _ :: _, [] => false
  end.

(** [hay.includes(needle)], on code units. *)
Fixpoint includes_units (needle hay : list N) {struct hay} : bool :=
  match hay with
  | [] => starts_with needle []
  | _ :: rest => starts_with needle hay || includes_units needle rest
  end.

Definition includes (hay needle : string) : bool :=
  includes_units (code_units needle) (code_units hay).

(** The code units that [toUpperCase] puts for the code unit [c]: the
    letters a-z and the lower-case letters of Latin-1 go to their capitals,
    the micro sign to the Greek capital mu, the sharp s to two capital S,
    the y with diaeresis to its capital outside Latin-1. *)
Definition upper_units (c : N) : list N :=
  if N.leb 97 c && N.leb c 122 then [N.sub c 32]
  else if N.eqb c 181 then [924%N]
  else if N.eqb c 223 then [83%N; 83%N]
  else if N.eqb c 255 then [376%N]
  else if N.leb 224 c && N.leb c 254 && negb (N.eqb c 247) then [N.sub c 32]
  else [c].

Definition toUpperCase (s : string) : list N := flat_map upper_units (code_units s).

(** White space and line terminators below 256: the class [\s] of a regular
    expression, and what [trim] removes. *)
Definition is_space (c : ascii) : bool :=
  let n := N_of_ascii c in
  N.eqb n 9 || N.eqb n 10 || N.eqb n 11 || N.eqb n 12 || N.eqb n 13 || N.eqb n 32
  || N.eqb n 160.

(** The characters that [.] does not match. *)
Definition is_line_terminator (c : ascii) : bool :=
  let n := N_of_ascii c in N.eqb n 10 || N.eqb n 13.

Fixpoint trimStart (s : string) : string :=
  match s with
  | EmptyString => EmptyString
  | String c r => if is_space c then trimStart r else s
  end.

Fixpoint trimEnd (s : string) : string :=
  match s with
  | EmptyString => EmptyString
  | String c r =>
      let r' := trimEnd r in
      if is_space c && negb (nonempty r') then EmptyString else String c r'
  end.

Definition trim (s : string) : string := trimEnd (trimStart s).

(** The canonical form of a code unit under the flag [i]: its capital, when
    that is one code unit and does not take a code unit from 128 on below
    128. *)
Definition canonicalize (c : N) : N :=
  match upper_units c with
  | [u] => if N.leb 128 c && N.ltb u 128 then c else u
  | _ => c
  end.

(** The literal [lit] at the start of [s], letters in either case: what
    follows it. *)
Fixpoint match_literal (lit : list N) (s : string) : option string :=
  match lit with
  | [] => Some s
  | p :: lit' =>
      match s with
      | EmptyString => None
      | String c r =>
          if N.eqb (canonicalize (N_of_ascii c)) (canonicalize p)
          then match_literal lit' r else None
      end
  end.

(** The group of the expression, any characters but line terminators: up to
    the end of the line. *)
Fixpoint rest_of_line (s : string) : string :=
  match s with
  | EmptyString => EmptyString
  | String c r => if is_line_terminator c then EmptyString else String c (rest_of_line r)
  end.

(** [text.match(re)] for the expressions of the geofence, a literal, white
    space and a group, under the flag [i]: the group of the leftmost match,
    [None] when there is no match.  After the literal the white space is
    skipped, line ends included, and the group runs to the end of the line
    reached. *)
Fixpoint regex_group (lit : list N) (text : string) : option string :=
  match match_literal lit text with
  | Some after => Some (rest_of_line (trimStart after))
  | None =>
      match text with
      | EmptyString => None
      | String _ r => regex_group lit r
      end
  end.

(** [chunk.maps] and [chunk.web] of a grounding chunk. *)
Record GroundingRef := mkGroundingRef {
  uri : option string;
  title : option string
}.

Record GroundingChunk := mkGroundingChunk {
  maps : option GroundingRef;
  web : option GroundingRef
}.

(** The reply of the grounded call: the text, and
    [response.candidates?.[0]?.groundingMetadata?.groundingChunks]. *)
Record GroundedResponse := mkGroundedResponse {
  g_response : AiResponse;
  g_groundingChunks : option (list GroundingChunk)
}.

(** The result of [verifyLocationAndFetchDetails]; [mapLink] is absent from
    the object returned by the [catch]. *)
Record LocationDetails := mkLocationDetails {
  ld_name : string;
  ld_description : string;
  isValidReservoir : bool;
  mapLink : option string
}.

(** [r?.uri] and [r?.title]. *)
Definition ref_uri (r : option GroundingRef) : option string :=
  match r with Some x => uri x | None => None end.

Definition ref_title (r : option GroundingRef) : option string :=
  match r with Some x => title x | None => None end.

(** The [for] loop over the chunks, from [mapLink = EMPTY]. *)
Fixpoint find_map_link (chunks : list GroundingChunk) : string :=
  match chunks with
  | [] => EmptyString
  | chunk :: rest =>
      if present (ref_uri (maps chunk)) then default EmptyString (ref_uri (maps chunk))
      else if present (ref_uri (web chunk))
              && includes (default EmptyString (ref_uri (web chunk))) "google.com/maps"
      then default EmptyString (ref_uri (web chunk))
      else find_map_link rest
  end.

(** [c.maps?.title || c.web?.title], as a test and as a value. *)
Definition has_title (c : GroundingChunk) : bool :=
  present (ref_title (maps c)) || present (ref_title (web c)).

Definition chunk_title (c : GroundingChunk) : string :=
  if present (ref_title (maps c)) then default EmptyString (ref_title (maps c))
  else default EmptyString (ref_title (web c)).

Definition location_error : LocationDetails :=
  mkLocationDetails "Manual Location (Error)"
    "Could not verify location with AI services. Please check network." false None.

Definition option_present {A} (o : option A) : bool :=
  match o with Some _ => true | None => false end.

(** [verifyLocationAndFetchDetails], given the settlement of its one call of
    [generateContent]: the coordinates enter the request only, the result is
    computed from the reply. *)
Definition verifyLocationAndFetchDetails (reply : Reply GroundedResponse) : LocationDetails :=
  match reply with
  | Rejects _ => location_error
  | Resolves response =>
      let text := text_or (g_response response) "Location analysis unavailable." in
      let groundingChunks := g_groundingChunks response in
      let mapLink :=
        match groundingChunks with
        | Some chunks => find_map_link chunks
        | None => EmptyString
        end in
      let nameMatch := regex_group (code_units "NAME:") text in
      let verdictMatch := regex_group (code_units "VERDICT:") text in
      let descMatch := regex_group (code_units "DESCRIPTION:") text in
      let locationName :=
        match nameMatch with Some g => trim g | None => "Unknown Location" end in
      let isValidReservoir :=
        match verdictMatch with
        | Some g => includes_units (code_units "VALID") (toUpperCase (trim g))
        | None => false
        end in
      let description := match descMatch with Some g => trim g | None => text end in
      let locationName' :=
        match groundingChunks with
        | Some chunks =>
            if negb (option_present nameMatch) || String.eqb locationName "Unknown"
               || negb (nonempty locationName)
            then match List.find has_title chunks with
                 | Some titleChunk => chunk_title titleChunk
                 | None => locationName
                 end
            else locationName
        | None => locationName
        end in
      mkLocationDetails locationName' description isValidReservoir (Some mapLink)
  end.

Definition line_feed : string := String "010"%char EmptyString.

(** The prompt of [generateRiskAnalysis]. *)
Definition risk_prompt (name : string) (level capacity : Z) : string :=
  "The " +:+ name +:+ " in Sri Lanka is currently at " +:+ pretty level
    +:+ "m water level, which is " +:+ pretty capacity +:+ "% of its capacity. "
    +:+ line_feed
    +:+ "      Provide a one-sentence risk assessment (Low/Medium/High risk of flooding or drought) and a recommendation for irrigation management.".

(** [generateRiskAnalysis({name, level, capacity})]: [response.text], which
    may be [undefined], or the fixed text of the [catch]. *)
Definition generateRiskAnalysis (name : string) (level capacity : Z) : M (option string) :=
  try_catch
    (let* response :=
       remote (EvGenerateContent "gemini-2.5-flash" (risk_prompt name level capacity))
              ai_generateContent in
     ret (text response))
    (fun e => ret (Some "Analysis unavailable.")).

(* ===================================================================== *)
(** ** components/DataEntryForm.tsx *)
(* ===================================================================== *)

(** The state of the form.  The numeric fields are [number | EMPTY], the
    numbers taken at the integers that [ReservoirEntry] holds; [submitted]
    collects the entries handed to [onSubmit], newest first. *)
Record FormState := mkFormState {
  coords : option Coordinates;
  isLocating : bool;
  f_locationName : string;
  locationAnalysis : string;
  locationVerified : bool;
  f_mapLink : option string;
  isVerifying : bool;
  f_waterLevel : option Z;
  capacity : option Z;
  f_notes : string;
  f_status : ReservoirStatus;
  isSubmitting : bool;
  submitted : list ReservoirEntry
}.

(** What [navigator.geolocation] does with the request. *)
Inductive Geolocation : Type :=
| Unsupported
| PositionError
| Position (c : Coordinates).

(** [handleGetLocation], through to the end of the callback that
    [getCurrentPosition] calls. *)
Definition handleGetLocation (geo : Geolocation) (reply : Reply GroundedResponse)
    (st : FormState) : FormState :=
  match geo with
  | Unsupported => st
  | PositionError =>
      mkFormState (coords st) false (f_locationName st) (locationAnalysis st) false
        (f_mapLink st) (isVerifying st) (f_waterLevel st) (capacity st) (f_notes st)
        (f_status st) (isSubmitting st) (submitted st)
  | Position c =>
      let details := verifyLocationAndFetchDetails reply in
      mkFormState (Some c) false (ld_name details) (ld_description details)
        (isValidReservoir details) (mapLink details) false (f_waterLevel st) (capacity st)
        (f_notes st) (f_status st) (isSubmitting st) (submitted st)
  end.

(** The condition under which the measurement form is rendered:
    [coords && !isVerifying && locationVerified]. *)
Definition formShown (st : FormState) : bool :=
  option_present (coords st) && negb (isVerifying st) && locationVerified st.

(** [Number(v)] of a field: the empty field counts as 0. *)
Definition Number_of (v : option Z) : Z := default 0%Z v.

(** [handleSubmit], through to the end of its [setTimeout] callback;
    [user_name] is [user.name]. *)
Definition handleSubmit (user_name : string) (st : FormState) : M FormState :=
  match coords st with
  | None => ret st
  | Some c =>
      if negb (nonempty (f_locationName st)) then ret st
      else
        let* analysis :=
          generateRiskAnalysis (f_locationName st) (Number_of (f_waterLevel st))
            (Number_of (capacity st)) in
        let* id_now := sample EvDateNow Date_now in
        let* timestamp_now := sample EvDateNow Date_now in
        let newEntry :=
          {| e_id := pretty id_now;
             e_name := f_locationName st;
             locationName := f_locationName st;
             coordinates := c;
             waterLevel := Number_of (f_waterLevel st);
             capacityPercentage := Number_of (capacity st);
             e_status := f_status st;
             notes := f_notes st;
             timestamp := timestamp_now;
             submittedBy := user_name;
             isVerified := locationVerified st;
             geminiAnalysis := analysis;
             groundingUrl := f_mapLink st |} in
        let* _ := sleep 1000 in
        ret (mkFormState None (isLocating st) EmptyString EmptyString (locationVerified st)
               (f_mapLink st) (isVerifying st) None None EmptyString NORMAL false
               (newEntry :: submitted st))
  end.

(* ===================================================================== *)
(** ** components/Dashboard.tsx and the enrollment of components/Auth.tsx *)
(* ===================================================================== *)

Section Components.
Context `{Platform}.

Inductive Tab : Type := overview | entry_tab | map_tab.

Record DashboardState := mkDashboardState {
  entries : JsVal;
  dbSource : Source;
  activeTab : Tab;
  d_isLoading : bool;
  d_isMissingTable : bool
}.

(** [loadData].  When [getEntries] throws, the state stays the one with
    [isLoading] set. *)
Definition loadData (st : DashboardState) : M DashboardState :=
  let* r := getEntries in
  ret (mkDashboardState (data r) (source r) (activeTab st) false (isMissingTable r)).

Definition handleNewEntry (entry : ReservoirEntry) (st : DashboardState)
  : M DashboardState :=
  let* _ := addEntry entry in
  let* st1 := loadData st in
  ret (mkDashboardState (entries st1) (dbSource st1) overview (d_isLoading st1)
         (d_isMissingTable st1)).

(** [handleDeleteEntry], given the answer to its [confirm] dialog. *)
Definition handleDeleteEntry (confirmed : bool) (id : string) (st : DashboardState)
  : M DashboardState :=
  if confirmed then
    let* _ := deleteEntry id in
    loadData st
  else ret st.

(** The effect run on mount: [setMode(enrolled ? 'VERIFY' : 'ENROLL')]. *)
Definition checkEnrollment (st : AuthState) (w : World) : AuthState * World :=
  let (r, w') := isDeviceEnrolled w in
  let m := match r with Ok true => VERIFY | _ => ENROLL end in
  (mkAuthState m (isLoading st) (ui_error st) (statusMessage st) (ui_name st) (ui_role st)
     (isEnrollmentStarted st) (streamRef st) (scanIntervalRef st) (isScanningRef st)
     (loginSuccesses st),
   w').

(** [performEnrollmentCapture] as called from the countdown of a render
    whose [name] and [role] are the given ones; [frame] is what
    [captureImage()] returns. *)
Definition performEnrollmentCapture (name : string) (role : UserRole) (frame : option string)
    (st : AuthState) (w : World) : AuthState * World :=
  let (_, w1) := sleep 200 w in
  match frame with
  | None =>
      (mkAuthState (mode st) false (Some "Failed to capture. Please reload.")
         "Capturing Biometric Data..." (ui_name st) (ui_role st) (isEnrollmentStarted st)
         (streamRef st) (scanIntervalRef st) (isScanningRef st) (loginSuccesses st),
       w1)
  | Some image =>
      let (r, w2) := enrollDevice name role image w1 in
      match r with
      | Ok _ =>
          (mkAuthState (mode st) true (ui_error st) "Capturing Biometric Data..."
             (ui_name st) (ui_role st) (isEnrollmentStarted st) false (scanIntervalRef st)
             (isScanningRef st) (S (loginSuccesses st)),
           w2)
      | Throw err =>
          (mkAuthState (mode st) false
             (Some (if nonempty (message err) then message err else "Enrollment Failed"))
             "Capturing Biometric Data..." (ui_name st) (ui_role st) false (streamRef st)
             (scanIntervalRef st) (isScanningRef st) (loginSuccesses st),
           w2)
      end
  end.

End Components.

(* ===================================================================== *)
(** ** Vocabulary of the further properties *)
(* ===================================================================== *)

(** The vault text that [enrollDevice] writes for a credential pair. *)
Definition vault_text (creds : Credentials) : string :=
  btoa (default "undefined" (JSON_stringify (Credentials_object creds))).

(** The credential pairs sent to the sign-in endpoint, newest first. *)
Fixpoint signin_requests (tr : list Event) : list (JsVal * JsVal) :=
  match tr with
  | [] => []
  | EvSignInWithPassword email password :: r => (email, password) :: signin_requests r
  | _ :: r => signin_requests r
  end.

Definition same_signin_requests (w w' : World) : Prop :=
  signin_requests (trace w') = signin_requests (trace w).

Definition not_signIn_kind (k : Kind) : bool := negb (kind_eqb k KSignInWithPassword).

(** The reply that the next registration will get. *)
Definition signUp_reply (w : World) : Reply AuthResult :=
  auth_signUp (env w) (calls KSignUp (trace w)).

(** The calls whose code writes [localStorage]. *)
Definition writes_storage (c : ApiCall) : bool :=
  match c with
  | CallEnrollDevice _ _ _ | CallResetEnrollment | CallAddEntry _ | CallDeleteEntry _ => true
  | _ => false
  end.

(** The storage holds the same under key [k]. *)
Definition same_item (k : string) (w w' : World) : Prop :=
  items (localStorage w') !! k = items (localStorage w) !! k.

(** The test [e.id !== id] of [deleteEntry], on an entry that can be read. *)
Definition other_id (id : string) (e : JsVal) : bool :=
  negb (js_is_string (field e "id") id).

(** The second poll of the profile store is rejected. *)
Definition rejecting_poll_env : Env :=
  with_profiles (fun n => if Nat.ltb n 1
                          then Resolves (mkQueryResult JNull (Some offline))
                          else Rejects offline)
    dead_env.

(** Registration succeeds, the login after it is refused. *)
Definition refused_login_env : Env :=
  with_signUp (fun _ => Resolves (mkAuthResult (Some perera_auth_user) None))
    (ai_says approval_json dead_env).

(** A cache of two entries. *)
Definition two_entries : list JsVal :=
  [ JObj [("id", JStr "e-1"); ("name", JStr "Kandalama")];
    JObj [("id", JStr "e-2"); ("name", JStr "Victoria")] ].

Definition cached_storage : Storage :=
  mkStorage {[ LOCAL_STORAGE_KEY := array_text two_entries ]} 5000000%N.

(** The world after a [setItem] that found room. *)
Definition with_item (k v : string) (w : World) : World :=
  mkWorld (env w) (EvSetItem k v :: trace w)
    (mkStorage (<[k := v]> (items (localStorage w))) (quota (localStorage w))).

(** The calls that begin an enrollment. *)
Definition is_enrollment (c : ApiCall) : bool :=
  match c with CallEnrollDevice _ _ _ => true | _ => false end.

(** A cached entry whose [id] can be read: anything but [null] and
    [undefined]. *)
Definition readable (e : JsVal) : bool :=
  match get_prop e "id" with Some _ => true | None => false end.

(** The answer of [faceLogin] on a device that is not enrolled. *)
Definition not_enrolled_error : JsError :=
  Error "Device not enrolled. Please perform One-Time Setup.".

(** There is no reply, or the reply carries no verdict. *)
Definition gives_no_verdict (reply : Reply GroundedResponse) : bool :=
  match reply with
  | Rejects _ => true
  | Resolves response =>
      negb (option_present
              (regex_group (code_units "VERDICT:")
                 (text_or (g_response response) "Location analysis unavailable.")))
  end.

(** The analysis that [generateRiskAnalysis] makes of a reply. *)
Definition risk_text (reply : Reply AiResponse) : option string :=
  match reply with
  | Resolves response => text response
  | Rejects _ => Some "Analysis unavailable."
  end.

(** The [i]-th reading of the clock from world [w] on. *)
Definition clock_at (w : World) (i : nat) : Z :=
  Date_now (env w) (calls KDateNow (trace w) + i).

Definition same_select_reply (w w' : World) : Prop :=
  select_reply w' = select_reply w.

Definition not_select_kind (k : Kind) : bool := negb (kind_eqb k KEntriesSelect).

(** A reply in the format that the prompt asks for, the verdict INVALID. *)
Definition invalid_verdict_text : string :=
  "NAME: Unknown" +:+ line_feed +:+ "VERDICT: INVALID" +:+ line_feed
    +:+ "DESCRIPTION: A street in Colombo, far from any reservoir.".

Definition invalid_verdict : GroundedResponse :=
  mkGroundedResponse (mkAiResponse (Some invalid_verdict_text)) None.

Definition colombo : Coordinates := mkCoordinates 7 80.

Definition empty_form : FormState :=
  mkFormState None false EmptyString EmptyString false None false None None EmptyString
    NORMAL false [].

Definition kandalama_link : string := "https://maps.google.com/?cid=1".

Definition kandalama_chunk : GroundingChunk :=
  mkGroundingChunk (Some (mkGroundingRef (Some kandalama_link) (Some "Kandalama Reservoir")))
    None.

Definition valid_verdict : GroundedResponse :=
  mkGroundedResponse
    (mkAiResponse (Some ("NAME: Kandalama Reservoir" +:+ line_feed +:+ "VERDICT: VALID"
                           +:+ line_feed +:+ "DESCRIPTION: On the bund.")))
    (Some [kandalama_chunk]).

(** The form after a location check that passed, the fields filled in. *)
Definition verified_form : FormState :=
  mkFormState (Some colombo) false "Kandalama Reservoir" "On the bund." true
    (Some kandalama_link) false (Some 12%Z) (Some 64%Z) EmptyString NORMAL false [].

Definition empty_dashboard : DashboardState :=
  mkDashboardState (JArr []) LOCAL entry_tab true false.

(** The scan loop has come to rest with the reentrancy flag set: no attempt
    is in flight and none can start. *)
Definition scan_stopped (s : Session) : Prop :=
  isScanningRef (ui s) = true /\ inflight s = [].

(** The world in which [performEnrollmentCapture] calls [enrollDevice]. *)
Definition capture_start (w : World) : World := record (EvSleep 200) w.

(** The reply that the next read of the session will get. *)
Definition session_reply (w : World) : Reply (option AuthUser) :=
  auth_getSession (env w) (calls KGetSession (trace w)).

(** A verification whose [faceLogin] will settle with the user [u]. *)
Definition verification_in_flight (u : User) (w : World) : Session :=
  mkSession (handleAutoVerify_begin verifying) w [Ok u].

Definition perera : User :=
  mkUser (JStr "u-1") (JStr "J. Perera") (JStr "ADMIN") JUndefined.

(** A session whose user names its own role; the profile store is down. *)
Definition self_styled_admin : AuthUser :=
  mkAuthUser "u-9" (JObj [("name", JStr "K. Silva"); ("role", JStr "SUPER_ADMIN")]).

Definition session_only_env : Env :=
  {| profiles_single := profiles_single dead_env;
     auth_signUp := auth_signUp dead_env;
     auth_signInWithPassword := auth_signInWithPassword dead_env;
     auth_getSession := fun _ => Resolves (Some self_styled_admin);
     auth_signOut := auth_signOut dead_env;
     entries_select := entries_select dead_env;
     entries_insert := entries_insert dead_env;
     entries_delete := entries_delete dead_env;
     ai_generateContent := ai_generateContent dead_env;
     Date_now := Date_now dead_env;
     Math_random_base36 := Math_random_base36 dead_env |}.

(** The email that [generateCredentials] makes when the suffix is empty. *)
Definition bare_email (timestamp : Z) : string :=
  "officer." +:+ pretty timestamp +:+ ".@lankareservoir.secure".

(** The random source yields 0.5, which reads "0.i" in base 36. *)
Definition short_draw_env : Env :=
  {| profiles_single := profiles_single dead_env;
     auth_signUp := auth_signUp dead_env;
     auth_signInWithPassword := auth_signInWithPassword dead_env;
     auth_getSession := auth_getSession dead_env;
     auth_signOut := auth_signOut dead_env;
     entries_select := entries_select dead_env;
     entries_insert := entries_insert dead_env;
     entries_delete := entries_delete dead_env;
     ai_generateContent := ai_generateContent dead_env;
     Date_now := Date_now dead_env;
     Math_random_base36 := fun _ => "0.i" |}.

(** A storage too small for any vault. *)
Definition cramped_storage : Storage := mkStorage ∅ 40%N.

Definition victoria : ReservoirEntry :=
  {| e_id := "e-2"; e_name := "Victoria"; locationName := "Victoria Reservoir";
     coordinates := mkCoordinates 7 81;
     waterLevel := 30; capacityPercentage := 88; e_status := WARNING;
     notes := "Spill gates checked"; timestamp := 1764498002000%Z;
     submittedBy := "K. Silva"; isVerified := true;
     geminiAnalysis := Some "Low risk."; groundingUrl := None |}.

(** The remote store returns what was inserted for two entries. *)
Definition stored_rows_env : Env :=
  with_entries_select
    (fun _ => Resolves (mkQueryResult (JArr (List.map dbPayload [victoria; kandalama])) None))
    dead_env.

(** The entry that [getEntries] makes of a row that can be read. *)
Definition mapped_entry (row : JsVal) : JsVal :=
  JObj [ ("id", field row "id");
         ("name", field row "name");
         ("locationName", field row "location_name");
         ("coordinates", JObj [("latitude", field row "latitude");
                               ("longitude", field row "longitude")]);
         ("waterLevel", field row "water_level");
         ("capacityPercentage", field row "capacity_percentage");
         ("status", field row "status");
         ("notes", field row "notes");
         ("timestamp", field row "timestamp");
         ("submittedBy", field row "submitted_by");
         ("isVerified", field row "is_verified");
         ("geminiAnalysis", field row "gemini_analysis");
         ("groundingUrl", field row "grounding_url") ].

(** The remote read returns a row of another entry. *)
Definition other_row_env : Env :=
  with_entries_select (fun _ => Resolves (mkQueryResult (JArr [dbPayload victoria]) None))
    dead_env.

(* ===================================================================== *)
(** * Properties *)
(* ===================================================================== *)

(** ** The monad and the primitives *)

Lemma member_world (v : JsVal) (k : string) (w : World) : snd (member v k w) = w.
Proof. unfold member. destruct (get_prop v k); reflexivity. Qed.

Lemma member_ok (v : JsVal) (k : string) (w : World) :
  v <> JUndefined -> v <> JNull -> member v k w = (Ok (field v k), w).
Proof.
  intros Hu Hn. unfold member, field.
  destruct v; try congruence; reflexivity.
Qed.

Lemma member_truthy (v : JsVal) (k : string) (w : World) :
  truthy v = true -> member v k w = (Ok (field v k), w).
Proof.
  intros Ht. apply member_ok; intros ->; discriminate.
Qed.

Lemma extend_nil (w : World) : extend [] w = w.
Proof. by destruct w. Qed.

(** ** The profile resolver *)

Lemma backoff_trace_snoc (u : string) (j : nat) :
  backoff_trace u j ++ [EvSleep delayMs; EvProfilesSingle u]
  = EvProfilesSingle u :: EvSleep delayMs :: backoff_trace u j.
Proof.
  induction j as [|j IH]; simpl; [reflexivity|]. by rewrite IH.
Qed.

Lemma backoff_failed_rounds (u : string) (k : nat) :
  EvProfilesSingle u :: failed_rounds u k = backoff_trace u k.
Proof.
  induction k as [|k IH]; simpl; [reflexivity|]. by rewrite <- IH.
Qed.

Lemma calls_failed_rounds (u : string) (k : nat) (tr : list Event) :
  calls KProfilesSingle (failed_rounds u k ++ tr) = k + calls KProfilesSingle tr.
Proof.
  induction k as [|k IH]; simpl; [reflexivity|]. by rewrite IH.
Qed.

Lemma extend_backoff_round (u : string) (j : nat) (w : World) :
  extend (backoff_trace u j) (record (EvSleep delayMs) (record (EvProfilesSingle u) w))
  = extend (backoff_trace u (S j)) w.
Proof.
  unfold extend, record. cbn [env trace localStorage]. f_equal.
  change (backoff_trace u (S j))
    with (EvProfilesSingle u :: EvSleep delayMs :: backoff_trace u j).
  rewrite <- backoff_trace_snoc. by rewrite <- app_assoc.
Qed.

(** One iteration of the loop. *)
Lemma poll_profiles_S (u : string) (r : nat) (w : World) :
  poll_profiles (S r) u w =
  let w1 := record (EvProfilesSingle u) w in
  match poll_reply w 0 with
  | Rejects e => (Throw e, w1)
  | Resolves q =>
      if row_found (Resolves q) then (Ok (Some (mapped_profile (q_data q))), w1)
      else match r with
           | 0 => (Ok None, w1)
           | S _ => poll_profiles r u (record (EvSleep delayMs) w1)
           end
  end.
Proof.
  unfold poll_reply. rewrite Nat.add_0_r.
  cbn [poll_profiles]. unfold bind at 1, remote at 1. cbn [kind_of].
  destruct (profiles_single (env w) _) as [q|e]; cbn [row_found]; [|reflexivity].
  destruct (negb (is_error (q_error q)) && truthy (q_data q)) eqn:Hfound.
  - apply andb_prop in Hfound as [_ Ht].
    unfold bind. by rewrite !(member_truthy _ _ _ Ht).
  - destruct r; reflexivity.
Qed.

(** Whatever the outside world answers, the loop sends at most [S r]
    polls, [delayMs] apart, and does nothing else. *)
Lemma poll_profiles_trace (u : string) (r : nat) (w : World) :
  exists j, j <= r /\ snd (poll_profiles (S r) u w) = extend (backoff_trace u j) w.
Proof.
  revert w. induction r as [|r IH]; intros w; rewrite poll_profiles_S; cbv zeta.
  - exists 0. split; [lia|].
    destruct (poll_reply w 0); [|done]. by destruct (row_found _).
  - destruct (poll_reply w 0) as [q|e]; [|exists 0; split; [lia|done]].
    destruct (row_found _); [exists 0; split; [lia|done]|].
    destruct (IH (record (EvSleep delayMs) (record (EvProfilesSingle u) w)))
      as [j [Hj Heq]].
    exists (S j). split; [lia|]. rewrite Heq. apply extend_backoff_round.
Qed.

Lemma bind_ok {A B} (c : M A) (k : A -> M B) (w w' : World) (a : A) :
  c w = (Ok a, w') -> bind c k w = k a w'.
Proof. unfold bind. by intros ->. Qed.

Lemma bind_ret {A B} (a : A) (k : A -> M B) (w : World) : bind (ret a) k w = k a w.
Proof. reflexivity. Qed.

Lemma bind_throw {A B} (c : M A) (k : A -> M B) (w w' : World) (e : JsError) :
  c w = (Throw e, w') -> bind c k w = (Throw e, w').
Proof. unfold bind. by intros ->. Qed.

Lemma silent_ret {A} (a : A) : silent (ret a).
Proof. by intros w. Qed.

Lemma silent_throw {A} (e : JsError) : silent (@throw A e).
Proof. by intros w. Qed.

Lemma silent_member (v : JsVal) (k : string) : silent (member v k).
Proof. intros w. apply member_world. Qed.

Lemma silent_bind {A B} (c : M A) (k : A -> M B) :
  silent c -> (forall a, silent (k a)) -> silent (bind c k).
Proof.
  intros Hc Hk w. unfold bind. specialize (Hc w).
  destruct (c w) as [[a|e] w']; simpl in Hc; subst w'; [apply Hk|done].
Qed.

Lemma bind_silent_snd {A B} (c : M A) (k : A -> M B) (w : World) :
  (forall a, silent (k a)) -> snd (bind c k w) = snd (c w).
Proof.
  intros Hk. unfold bind. destruct (c w) as [[a|e] w']; [apply Hk|done].
Qed.

Create HintDb silent.
#[local] Hint Resolve silent_ret silent_throw silent_member : silent.

Ltac silent_tac :=
  repeat first
    [ progress intros
    | apply silent_bind
    | solve [auto with silent]
    | match goal with
      | |- silent (if ?b then _ else _) => destruct b
      | |- silent (match ?x with _ => _ end) => destruct x
      end ].

Lemma failed_rounds_snoc (u : string) (k : nat) :
  failed_rounds u k ++ [EvSleep delayMs; EvProfilesSingle u]
  = EvSleep delayMs :: EvProfilesSingle u :: failed_rounds u k.
Proof.
  induction k as [|k IH]; [reflexivity|].
  cbn [failed_rounds app]. by rewrite IH.
Qed.

Lemma attempt_fails_inv (r : Reply QueryResult) :
  attempt_fails r = true -> exists q, r = Resolves q /\ row_found r = false.
Proof.
  destruct r as [q|e]; [|discriminate]. simpl. intros Hf. exists q. split; [done|].
  destruct (is_error (q_error q)), (truthy (q_data q)); done.
Qed.

Lemma poll_reply_round (u : string) (w : World) (i : nat) :
  poll_reply (record (EvSleep delayMs) (record (EvProfilesSingle u) w)) i
  = poll_reply w (S i).
Proof. unfold poll_reply. simpl. f_equal. lia. Qed.

(** Failed polls are retried while the bound allows. *)
Lemma poll_profiles_failures (u : string) (k r : nat) (w : World) :
  (forall i, i < k -> attempt_fails (poll_reply w i) = true) ->
  poll_profiles (k + S r) u w = poll_profiles (S r) u (extend (failed_rounds u k) w).
Proof.
  revert w. induction k as [|k IH]; intros w Hfail.
  - by rewrite extend_nil.
  - change (S k + S r) with (S (k + S r)). rewrite poll_profiles_S. cbv zeta.
    destruct (attempt_fails_inv _ (Hfail 0 ltac:(lia))) as [q [-> ->]].
    replace (k + S r) with (S (k + r)) at 1 by lia.
    rewrite IH.
    + f_equal. unfold extend, record. cbn [env trace localStorage]. f_equal.
      change (failed_rounds u (S k))
        with (EvSleep delayMs :: EvProfilesSingle u :: failed_rounds u k).
      rewrite <- failed_rounds_snoc. by rewrite <- app_assoc.
    + intros i Hi. rewrite poll_reply_round. apply Hfail. lia.
Qed.

Lemma poll_reply_failed_rounds (u : string) (k : nat) (w : World) :
  poll_reply (extend (failed_rounds u k) w) 0 = poll_reply w k.
Proof.
  unfold poll_reply, extend. cbn [env trace]. rewrite calls_failed_rounds.
  f_equal. lia.
Qed.

Lemma record_failed_rounds (u : string) (k : nat) (w : World) :
  record (EvProfilesSingle u) (extend (failed_rounds u k) w)
  = extend (backoff_trace u k) w.
Proof.
  unfold record, extend. cbn [env trace localStorage]. f_equal.
  by rewrite <- backoff_failed_rounds.
Qed.

(** The loop returns at the first poll that finds the row. *)
Lemma poll_profiles_found (u : string) (k : nat) (q : QueryResult) (w : World) :
  k < maxAttempts ->
  (forall i, i < k -> attempt_fails (poll_reply w i) = true) ->
  poll_reply w k = Resolves q ->
  row_found (Resolves q) = true ->
  poll_profiles maxAttempts u w
  = (Ok (Some (mapped_profile (q_data q))), extend (backoff_trace u k) w).
Proof.
  intros Hk Hfail Hq Hfound.
  replace maxAttempts with (k + S (maxAttempts - S k)) by lia.
  rewrite poll_profiles_failures by done.
  rewrite poll_profiles_S. cbv zeta.
  rewrite poll_reply_failed_rounds, Hq, Hfound. by rewrite record_failed_rounds.
Qed.

(** The loop gives up after [maxAttempts] failed polls. *)
Lemma poll_profiles_exhausted (u : string) (w : World) :
  (forall i, i < maxAttempts -> attempt_fails (poll_reply w i) = true) ->
  poll_profiles maxAttempts u w = (Ok None, extend (backoff_trace u 4) w).
Proof.
  intros Hfail.
  change maxAttempts with (4 + 1).
  rewrite poll_profiles_failures by (intros; apply Hfail; unfold maxAttempts; lia).
  rewrite poll_profiles_S. cbv zeta. rewrite poll_reply_failed_rounds.
  destruct (attempt_fails_inv _ (Hfail 4 ltac:(unfold maxAttempts; lia))) as [q [-> ->]].
  by rewrite record_failed_rounds.
Qed.

(** C1.  [getUserProfile] polls the profile store at most [maxAttempts] = 5
    times, [delayMs] = 500 ms apart, and does nothing else; it returns the
    profile mapped from the first row found; when all five polls fail it
    returns the profile synthesized from the fallback metadata, the role
    being DATA_ENTRY_WORKER when the metadata has none; and when all five
    fail and no fallback metadata is supplied it returns no profile and
    the "profile could not be loaded" error. *)
Theorem getUserProfile_resolves (userId : string) (authUserFallback : JsVal) (w : World) :
  (exists j, j < 5 /\
     snd (getUserProfile userId authUserFallback w) = extend (backoff_trace userId j) w)
  /\ (forall k q,
        k < maxAttempts ->
        (forall i, i < k -> attempt_fails (poll_reply w i) = true) ->
        poll_reply w k = Resolves q ->
        row_found (Resolves q) = true ->
        getUserProfile userId authUserFallback w
        = (Ok (mkProfileResult (Some (mapped_profile (q_data q))) None),
           extend (backoff_trace userId k) w))
  /\ ((forall i, i < maxAttempts -> attempt_fails (poll_reply w i) = true) ->
      metadata_supplied authUserFallback = true ->
      let meta := field authUserFallback "user_metadata" in
      exists user,
        getUserProfile userId authUserFallback w
        = (Ok (mkProfileResult (Some user) None), extend (backoff_trace userId 4) w)
        /\ user = fallback_profile userId meta
        /\ u_id user = JStr userId
        /\ u_role user = (if truthy (field meta "role") then field meta "role"
                          else JStr "DATA_ENTRY_WORKER"))
  /\ ((forall i, i < maxAttempts -> attempt_fails (poll_reply w i) = true) ->
      metadata_supplied authUserFallback = false ->
      getUserProfile userId authUserFallback w
      = (Ok (mkProfileResult None (Some profile_unavailable)),
         extend (backoff_trace userId 4) w)).
Proof.
  repeat split.
  - destruct (poll_profiles_trace userId 4 w) as [j [Hj Heq]].
    exists j. split; [lia|].
    unfold getUserProfile. rewrite bind_silent_snd; [exact Heq|].
    silent_tac.
  - intros k q Hk Hfail Hq Hfound. unfold getUserProfile.
    by rewrite (bind_ok _ _ _ _ _ (poll_profiles_found userId k q w Hk Hfail Hq Hfound)).
  - intros Hfail Hmeta meta. unfold getUserProfile.
    rewrite (bind_ok _ _ _ _ _ (poll_profiles_exhausted userId w Hfail)).
    unfold metadata_supplied in Hmeta. apply andb_prop in Hmeta as [Hfb Hmd].
    rewrite Hfb. unfold bind.
    rewrite (member_truthy _ _ _ Hfb). cbv beta iota. rewrite Hmd.
    rewrite (member_truthy _ _ _ Hfb). cbv beta iota.
    repeat (rewrite (member_truthy _ _ _ Hmd); cbv beta iota).
    eexists. split; [reflexivity|]. repeat split.
  - intros Hfail Hmeta. unfold getUserProfile.
    rewrite (bind_ok _ _ _ _ _ (poll_profiles_exhausted userId w Hfail)).
    unfold metadata_supplied in Hmeta. unfold bind.
    destruct (truthy authUserFallback) eqn:Hfb.
    + rewrite (member_truthy _ _ _ Hfb). cbv beta iota.
      simpl in Hmeta. by rewrite Hmeta.
    + unfold ret. by rewrite Hfb.
Qed.

Lemma getUserProfile_resolves_witness :
  getUserProfile "u-1" JUndefined (world_of late_row_env fresh_storage)
  = (Ok (mkProfileResult (Some (mapped_profile perera_row)) None),
     mkWorld late_row_env
       [EvProfilesSingle "u-1"; EvSleep 500; EvProfilesSingle "u-1"; EvSleep 500;
        EvProfilesSingle "u-1"]
       fresh_storage)
  /\ (exists user,
        getUserProfile "u-1" roleless_user (world_of dead_env fresh_storage)
        = (Ok (mkProfileResult (Some user) None),
           extend (backoff_trace "u-1" 4) (world_of dead_env fresh_storage))
        /\ u_name user = JStr "J. Perera"
        /\ u_role user = JStr "DATA_ENTRY_WORKER")
  /\ getUserProfile "u-1" JUndefined (world_of dead_env fresh_storage)
     = (Ok (mkProfileResult None (Some profile_unavailable)),
        extend (backoff_trace "u-1" 4) (world_of dead_env fresh_storage)).
Proof.
  split; [|split].
  - destruct (getUserProfile_resolves "u-1" JUndefined (world_of late_row_env fresh_storage))
      as (_ & Hfound & _).
    apply (Hfound 2 (mkQueryResult perera_row None)).
    + unfold maxAttempts; lia.
    + intros [|[|i]] Hi; [reflexivity|reflexivity|lia].
    + reflexivity.
    + reflexivity.
  - destruct (getUserProfile_resolves "u-1" roleless_user (world_of dead_env fresh_storage))
      as (_ & _ & Hfallback & _).
    destruct Hfallback as (user & Hrun & Huser & _ & Hrole).
    + intros i _. reflexivity.
    + reflexivity.
    + exists user. split; [exact Hrun|]. split; [by rewrite Huser|exact Hrole].
  - destruct (getUserProfile_resolves "u-1" JUndefined (world_of dead_env fresh_storage))
      as (_ & _ & _ & Hnone).
    apply Hnone.
    + intros i _. reflexivity.
    + reflexivity.
Defined.

(** ** The biometric gate *)

Section Gate.
Context `{Platform}.

(** The gate makes one call to the vision model and always returns. *)
Lemma analyzeFaceForAccess_run (image : string) (w : World) :
  analyzeFaceForAccess image w = (Ok (gate_value w), after_gate image w).
Proof.
  unfold analyzeFaceForAccess, gate_value, gate_reply, try_catch, bind, remote, JSON_parse_M.
  cbn [kind_of].
  destruct (ai_generateContent (env w) _) as [response|e]; [|reflexivity].
  destruct (JSON_parse _); reflexivity.
Qed.

(** What the gate does return.  [analyzeFaceForAccess] never raises and calls
    the vision model once.  When that call throws, or its text does not
    parse, the gate returns authorized = false with the reason "Biometric
    Service Unavailable. Check connection."; when the text is missing or
    empty it returns authorized = false with the reason "No response from
    AI"; otherwise it returns the parsed value as it is, without looking
    at its shape. *)
Theorem analyzeFaceForAccess_total (image : string) (w : World) :
  JSON_parse no_response_json = Some (verdict false "No response from AI") ->
  exists v,
    analyzeFaceForAccess image w = (Ok v, after_gate image w)
    /\ (forall e, gate_reply w = Rejects e ->
          v = verdict false "Biometric Service Unavailable. Check connection.")
    /\ (forall r, gate_reply w = Resolves r ->
          JSON_parse (text_or r no_response_json) = None ->
          v = verdict false "Biometric Service Unavailable. Check connection.")
    /\ (forall r, gate_reply w = Resolves r ->
          present (text r) = false ->
          v = verdict false "No response from AI")
    /\ (forall r parsed, gate_reply w = Resolves r ->
          JSON_parse (text_or r no_response_json) = Some parsed ->
          v = parsed).
Proof.
  intros Hdefault. exists (gate_value w).
  split; [apply analyzeFaceForAccess_run|].
  unfold gate_value. repeat split.
  - by intros e ->.
  - by intros r -> ->.
  - intros r -> Hempty.
    assert (text_or r no_response_json = no_response_json) as ->.
    { unfold text_or. destruct (text r) as [t|]; [|done].
      simpl in Hempty. by rewrite Hempty. }
    by rewrite Hdefault.
  - by intros r parsed -> ->.
Qed.

End Gate.

Lemma analyzeFaceForAccess_total_witness :
  exists v,
    @analyzeFaceForAccess reference_platform face (world_of dead_env fresh_storage)
    = (Ok v, after_gate face (world_of dead_env fresh_storage))
    /\ v = verdict false "Biometric Service Unavailable. Check connection.".
Proof.
  destruct (@analyzeFaceForAccess_total reference_platform face
              (world_of dead_env fresh_storage))
    as (v & Hrun & Hout & _).
  - vm_compute. reflexivity.
  - exists v. split; [exact Hrun|]. apply (Hout offline). reflexivity.
Defined.

(** C10, evaluated where it fails.  The vision model answers with JSON that
    is no [{ authorized: boolean, reason: string }]: an approval without a
    reason, [null], or a rejection whose [authorized] is the string "false".
    The gate returns each as it is; the last one is truthy, so the callers
    take the rejection for an approval. *)
Theorem analyzeFaceForAccess_unchecked_shape :
  fst (@analyzeFaceForAccess reference_platform face
         (world_of (ai_says bare_approval_json dead_env) fresh_storage))
  = Ok (JObj [("authorized", JBool true)])
  /\ is_verdict (JObj [("authorized", JBool true)]) = false
  /\ fst (@analyzeFaceForAccess reference_platform face
            (world_of (ai_says "null" dead_env) fresh_storage))
     = Ok JNull
  /\ is_verdict JNull = false
  /\ fst (@analyzeFaceForAccess reference_platform face
            (world_of (ai_says stringly_rejection_json dead_env) fresh_storage))
     = Ok (JObj [("authorized", JStr "false"); ("reason", JStr "No face detected")])
  /\ is_verdict (JObj [("authorized", JStr "false"); ("reason", JStr "No face detected")])
     = false
  /\ gate_accepts (JObj [("authorized", JStr "false"); ("reason", JStr "No face detected")])
     = true.
Proof. vm_compute. repeat split. Qed.

(** ** The vault blob *)

Lemma btoa_nonempty (s : string) : nonempty s = true -> nonempty (btoa s) = true.
Proof.
  destruct s as [|c s]; [discriminate|]. intros _.
  unfold btoa, string_bytes. cbn [list_ascii_of_string List.map].
  destruct (List.map nat_of_ascii (list_ascii_of_string s)) as [|b [|d l]]; reflexivity.
Qed.

(** The blob that [enrollDevice] writes is never the empty string. *)
Lemma vault_blob_nonempty (creds : Credentials) :
  nonempty (btoa (default "undefined" (JSON_stringify (Credentials_object creds)))) = true.
Proof.
  apply btoa_nonempty. unfold Credentials_object. cbn [JSON_stringify].
  reflexivity.
Qed.

(** ** The steps of [enrollDevice] *)

Lemma member_get (v : JsVal) (k : string) (x : JsVal) (w : World) :
  get_prop v k = Some x -> member v k w = (Ok x, w).
Proof. unfold member. by intros ->. Qed.

Lemma get_prop_field (v : JsVal) (k : string) (x : JsVal) :
  get_prop v k = Some x -> forall k', get_prop v k' = Some (field v k').
Proof. unfold field. destruct v; try discriminate; done. Qed.

Lemma gate_rejects_inv (v : JsVal) :
  gate_rejects v = true ->
  exists a, get_prop v "authorized" = Some a /\ truthy a = false.
Proof.
  unfold gate_rejects. destruct (get_prop v "authorized") as [a|]; [|discriminate].
  intros Ha. exists a. split; [done|]. by destruct (truthy a).
Qed.

Lemma gate_accepts_inv (v : JsVal) :
  gate_accepts v = true ->
  exists a, get_prop v "authorized" = Some a /\ truthy a = true.
Proof.
  unfold gate_accepts. destruct (get_prop v "authorized") as [a|]; [|discriminate].
  intros Ha. by exists a.
Qed.

Section EnrollmentSteps.
Context `{Platform}.

Lemma enrollDevice_rejected (name : string) (role : UserRole) (image : string) (w : World) :
  gate_rejects (gate_value w) = true ->
  enrollDevice name role image w
  = (Throw (Error ("Face Enrollment Failed: " +:+ js_to_string (field (gate_value w) "reason"))),
     after_gate image w).
Proof.
  intros Hrej. destruct (gate_rejects_inv _ Hrej) as (a & Hget & Ha).
  unfold enrollDevice.
  rewrite (bind_ok _ _ _ _ _ (analyzeFaceForAccess_run image w)).
  rewrite (bind_ok _ _ _ _ _ (member_get _ _ _ _ Hget)).
  rewrite Ha. cbn [negb].
  by rewrite (bind_ok _ _ _ _ _ (member_get _ _ _ _ (get_prop_field _ _ _ Hget "reason"))).
Qed.

(** With the gate's approval, enrollment goes on to the credentials and
    the registration. *)
Lemma enrollDevice_accepted (name : string) (role : UserRole) (image : string) (w : World) :
  gate_accepts (gate_value w) = true ->
  enrollDevice name role image w
  = bind generateCredentials
      (fun creds =>
         let* registered := signUp (c_email creds) (c_password creds) name role in
         match snd registered with
         | Some e => throw e
         | None =>
             match fst registered with
             | None => throw (Error "Cloud Registration Failed")
             | Some _ =>
                 let vaultData :=
                   btoa (default "undefined" (JSON_stringify (Credentials_object creds))) in
                 let* _ := setItem BIOMETRIC_VAULT_KEY vaultData in
                 let* login := signIn (JStr (c_email creds)) (JStr (c_password creds)) in
                 match error login, appUser login with
                 | None, Some appUser => ret appUser
                 | _, _ => throw (Error "Enrollment Login Failed")
                 end
             end
         end)
      (after_gate image w).
Proof.
  intros Hacc. destruct (gate_accepts_inv _ Hacc) as (a & Hget & Ha).
  unfold enrollDevice.
  rewrite (bind_ok _ _ _ _ _ (analyzeFaceForAccess_run image w)).
  rewrite (bind_ok _ _ _ _ _ (member_get _ _ _ _ Hget)).
  rewrite Ha. reflexivity.
Qed.

(** Whatever it comes back with, [signUp] sends one request. *)
Lemma signUp_world (email password name : string) (role : UserRole) (w : World) :
  snd (signUp email password name role w)
  = record (EvSignUp email password (signUp_metadata name role)) w.
Proof.
  unfold signUp, bind, remote. destruct (auth_signUp (env w) _) as [r|e]; [|done].
  destruct (a_error r) as [ae|].
  - by destruct (_ || _).
  - by destruct (a_user r).
Qed.

End EnrollmentSteps.

(** The credentials are a function of the clock and of two random draws. *)
Lemma generateCredentials_determined (w1 w2 : World) :
  clock_reading w1 = clock_reading w2 ->
  (forall i, i < 2 -> random_draw w1 i = random_draw w2 i) ->
  fst (generateCredentials w1) = fst (generateCredentials w2).
Proof.
  unfold clock_reading, random_draw. intros Hclock Hdraw.
  pose proof (Hdraw 0 ltac:(lia)) as H0. pose proof (Hdraw 1 ltac:(lia)) as H1.
  rewrite !Nat.add_0_r in H0. rewrite !Nat.add_1_r in H1.
  unfold generateCredentials, bind, sample, ret, record.
  cbn [kind_of env trace fst calls kind_eqb].
  by rewrite Hclock, H0, H1.
Qed.

Lemma generateCredentials_ok (w : World) :
  exists creds w', generateCredentials w = (Ok creds, w').
Proof. unfold generateCredentials, bind, sample, ret. by eexists _, _. Qed.

(** ** Frame rules *)

(** [P] relates a world to a later one; [quiet] tells the kinds of calls
    whose going out keeps [P].  Each rule names the kinds of calls its
    function makes. *)
Section Preservation.
Context `{Platform}.
Variable P : World -> World -> Prop.
Variable quiet : Kind -> bool.
Hypothesis P_refl : forall w, P w w.
Hypothesis P_trans : forall a b c, P a b -> P b c -> P a c.
Hypothesis P_record : forall ev w, quiet (kind_of ev) = true -> P w (record ev w).

Lemma preserves_silent {A} (c : M A) : silent c -> preserves P c.
Proof. intros Hc w. rewrite Hc. apply P_refl. Qed.

Lemma preserves_ret {A} (a : A) : preserves P (ret a).
Proof. intros w. apply P_refl. Qed.

Lemma preserves_throw {A} (e : JsError) : preserves P (@throw A e).
Proof. intros w. apply P_refl. Qed.

Lemma preserves_member (v : JsVal) (k : string) : preserves P (member v k).
Proof. apply preserves_silent, silent_member. Qed.

Lemma preserves_getItem (k : string) : preserves P (getItem k).
Proof. intros w. apply P_refl. Qed.

Lemma preserves_JSON_parse_M (s : string) : preserves P (JSON_parse_M s).
Proof. intros w. unfold JSON_parse_M. destruct (JSON_parse s); apply P_refl. Qed.

Lemma preserves_atob_M (s : string) : preserves P (atob_M s).
Proof. intros w. unfold atob_M. destruct (atob s); apply P_refl. Qed.

Lemma preserves_as_array (v : JsVal) : preserves P (as_array v).
Proof. intros w. destruct v; apply P_refl. Qed.

Lemma preserves_spread (v : JsVal) : preserves P (spread v).
Proof. intros w. unfold spread. destruct (iterate v); apply P_refl. Qed.

Lemma preserves_bind {A B} (c : M A) (k : A -> M B) :
  preserves P c -> (forall a, preserves P (k a)) -> preserves P (bind c k).
Proof.
  intros Hc Hk w. unfold bind. specialize (Hc w).
  destruct (c w) as [[a|e] w']; simpl in *; [|done].
  eapply P_trans; [exact Hc|apply Hk].
Qed.

Lemma preserves_try_catch {A} (c : M A) (h : JsError -> M A) :
  preserves P c -> (forall e, preserves P (h e)) -> preserves P (try_catch c h).
Proof.
  intros Hc Hh w. unfold try_catch. specialize (Hc w).
  destruct (c w) as [[a|e] w']; simpl in *; [done|].
  eapply P_trans; [exact Hc|apply Hh].
Qed.

Lemma preserves_remote {A} (ev : Event) (oracle : Env -> nat -> Reply A) :
  quiet (kind_of ev) = true -> preserves P (remote ev oracle).
Proof.
  intros Hev w. unfold remote. destruct (oracle _ _); by apply P_record.
Qed.

Lemma preserves_sample {A} (ev : Event) (oracle : Env -> nat -> A) :
  quiet (kind_of ev) = true -> preserves P (sample ev oracle).
Proof. intros Hev w. by apply P_record. Qed.

Lemma preserves_sleep (ms : nat) : quiet KSleep = true -> preserves P (sleep ms).
Proof. intros Hq w. by apply P_record. Qed.

Lemma preserves_mapM {A B} (f : A -> M B) (l : list A) :
  (forall a, preserves P (f a)) -> preserves P (mapM f l).
Proof.
  intros Hf. induction l as [|x l IH]; [apply preserves_ret|].
  cbn [mapM]. apply preserves_bind; [apply Hf|]. intros y.
  apply preserves_bind; [exact IH|]. intros ys. apply preserves_ret.
Qed.

Lemma preserves_filterM {A} (f : A -> M bool) (l : list A) :
  (forall a, preserves P (f a)) -> preserves P (filterM f l).
Proof.
  intros Hf. induction l as [|x l IH]; [apply preserves_ret|].
  cbn [filterM]. apply preserves_bind; [apply Hf|]. intros y.
  apply preserves_bind; [exact IH|]. intros ys. apply preserves_ret.
Qed.

Ltac frame :=
  repeat first
    [ progress intros
    | apply preserves_ret
    | apply preserves_throw
    | apply preserves_member
    | apply preserves_getItem
    | apply preserves_JSON_parse_M
    | apply preserves_atob_M
    | apply preserves_as_array
    | apply preserves_spread
    | apply preserves_sleep; assumption
    | apply preserves_remote; cbn [kind_of]; assumption
    | apply preserves_sample; cbn [kind_of]; assumption
    | apply preserves_bind
    | apply preserves_try_catch
    | apply preserves_mapM
    | apply preserves_filterM
    | eassumption
    | match goal with
      | Hset : forall v, preserves _ (setItem _ v) |- preserves _ (setItem _ _) => apply Hset
      | |- preserves _ (if ?b then _ else _) => destruct b
      | |- preserves _ (match ?x with _ => _ end) => destruct x
      | |- preserves _ (let _ := _ in _) => cbv zeta
      end ].

Lemma preserves_analyzeFaceForAccess (image : string) :
  quiet KGenerateContent = true ->
  preserves P (analyzeFaceForAccess image).
Proof. unfold analyzeFaceForAccess. frame. Qed.

Lemma preserves_poll_profiles (remaining : nat) (u : string) :
  quiet KProfilesSingle = true -> quiet KSleep = true ->
  preserves P (poll_profiles remaining u).
Proof.
  intros Hp Hs. induction remaining as [|r IH]; cbn [poll_profiles]; frame.
Qed.

Lemma preserves_getUserProfile (u : string) (fb : JsVal) :
  quiet KProfilesSingle = true -> quiet KSleep = true ->
  preserves P (getUserProfile u fb).
Proof.
  intros Hp Hs. unfold getUserProfile.
  pose proof (fun r => preserves_poll_profiles r u Hp Hs). frame.
Qed.

Lemma preserves_signIn (email password : JsVal) :
  quiet KSignInWithPassword = true -> quiet KProfilesSingle = true -> quiet KSleep = true ->
  preserves P (signIn email password).
Proof.
  intros Hi Hp Hs. unfold signIn.
  pose proof (fun u fb => preserves_getUserProfile u fb Hp Hs). frame.
Qed.

Lemma preserves_signUp (email password name : string) (role : UserRole) :
  quiet KSignUp = true ->
  preserves P (signUp email password name role).
Proof. unfold signUp. frame. Qed.

Lemma preserves_getCurrentUser :
  quiet KGetSession = true -> quiet KProfilesSingle = true -> quiet KSleep = true ->
  preserves P getCurrentUser.
Proof.
  intros Hg Hp Hs. unfold getCurrentUser.
  pose proof (fun u fb => preserves_getUserProfile u fb Hp Hs). frame.
Qed.

Lemma preserves_generateCredentials :
  quiet KDateNow = true -> quiet KMathRandom = true ->
  preserves P generateCredentials.
Proof. unfold generateCredentials. frame. Qed.

Lemma preserves_faceLogin (image : string) :
  quiet KGenerateContent = true ->
  quiet KSignInWithPassword = true -> quiet KProfilesSingle = true -> quiet KSleep = true ->
  preserves P (faceLogin image).
Proof.
  intros Hg Hi Hp Hs. unfold faceLogin.
  pose proof (fun i => preserves_analyzeFaceForAccess i Hg).
  pose proof (fun e p => preserves_signIn e p Hi Hp Hs). frame.
Qed.

Lemma preserves_getEntries :
  quiet KEntriesSelect = true -> preserves P getEntries.
Proof. unfold getEntries, parse_saved, mapRow. frame. Qed.

Lemma preserves_insert_remote (entry : ReservoirEntry) :
  quiet KEntriesInsert = true -> preserves P (insert_remote entry).
Proof. unfold insert_remote. frame. Qed.

(** The functions that write the storage preserve [P] as far as their
    writes do. *)
Lemma preserves_addEntry (entry : ReservoirEntry) :
  quiet KEntriesInsert = true ->
  (forall l, preserves P (setItem LOCAL_STORAGE_KEY (array_text l))) ->
  preserves P (addEntry entry).
Proof.
  intros Hq Hset. unfold addEntry, mirror_local, parse_saved.
  pose proof (preserves_insert_remote entry Hq). frame. apply Hset.
Qed.

Lemma preserves_deleteEntry (id : string) :
  quiet KEntriesDelete = true ->
  (forall l, preserves P (setItem LOCAL_STORAGE_KEY (array_text l))) ->
  preserves P (deleteEntry id).
Proof. intros Hq Hset. unfold deleteEntry. frame. apply Hset. Qed.

Lemma preserves_enrollDevice (name : string) (role : UserRole) (image : string) :
  quiet KGenerateContent = true -> quiet KDateNow = true -> quiet KMathRandom = true ->
  quiet KSignUp = true ->
  quiet KSignInWithPassword = true -> quiet KProfilesSingle = true -> quiet KSleep = true ->
  (forall v, nonempty v = true -> preserves P (setItem BIOMETRIC_VAULT_KEY v)) ->
  preserves P (enrollDevice name role image).
Proof.
  intros Hg Hd Hm Hu Hi Hp Hs Hset. unfold enrollDevice.
  pose proof (fun i => preserves_analyzeFaceForAccess i Hg).
  pose proof (fun e p => preserves_signIn e p Hi Hp Hs).
  pose proof (fun e p n r => preserves_signUp e p n r Hu).
  pose proof (preserves_generateCredentials Hd Hm).
  frame. apply Hset. apply vault_blob_nonempty.
Qed.

Lemma bind_snd_related {A B} (c : M A) (k : A -> M B) (w : World) :
  (forall a, preserves P (k a)) -> P (snd (c w)) (snd (bind c k w)).
Proof.
  intros Hk. unfold bind. destruct (c w) as [[a|e] w']; [apply Hk|apply P_refl].
Qed.

(** Once the gate has approved and the credentials are drawn, the rest of
    [enrollDevice] is the registration, the vault write and the login. *)
Lemma enrollDevice_after_signUp
    (name : string) (role : UserRole) (image : string) (w w2 : World) (creds : Credentials) :
  quiet KSignInWithPassword = true -> quiet KProfilesSingle = true -> quiet KSleep = true ->
  (forall v, nonempty v = true -> preserves P (setItem BIOMETRIC_VAULT_KEY v)) ->
  gate_accepts (gate_value w) = true ->
  generateCredentials (after_gate image w) = (Ok creds, w2) ->
  P (record (EvSignUp (c_email creds) (c_password creds) (signUp_metadata name role)) w2)
    (snd (enrollDevice name role image w)).
Proof.
  intros Hi Hp Hs Hset Hacc Hgen.
  rewrite (enrollDevice_accepted _ _ _ _ Hacc).
  rewrite (bind_ok _ _ _ _ _ Hgen).
  rewrite <- (signUp_world (c_email creds) (c_password creds) name role w2).
  apply bind_snd_related.
  pose proof (fun e p => preserves_signIn e p Hi Hp Hs).
  frame. apply Hset. apply vault_blob_nonempty.
Qed.

(** On an enrolled device [faceLogin] is the call of the gate and what
    follows it. *)
Lemma faceLogin_after_gate (image : string) (w : World) :
  quiet KSignInWithPassword = true -> quiet KProfilesSingle = true -> quiet KSleep = true ->
  enrolled w = true ->
  P (after_gate image w) (snd (faceLogin image w)).
Proof.
  intros Hi Hp Hs Hen. unfold enrolled in Hen.
  unfold faceLogin. unfold bind at 1, getItem at 1. rewrite Hen. cbn [negb].
  replace (after_gate image w) with (snd (analyzeFaceForAccess image w))
    by (by rewrite analyzeFaceForAccess_run).
  apply bind_snd_related.
  pose proof (fun e p => preserves_signIn e p Hi Hp Hs). frame.
Qed.

End Preservation.

(** Outgoing calls only: an instance of the frame. *)

Lemma only_calls_refl (w : World) : only_calls w w.
Proof. repeat split. by exists []. Qed.

Lemma only_calls_trans (a b c : World) :
  only_calls a b -> only_calls b c -> only_calls a c.
Proof.
  intros (He1 & Hs1 & n1 & Ht1 & Hq1) (He2 & Hs2 & n2 & Ht2 & Hq2).
  split; [congruence|]. split; [congruence|].
  exists (n2 ++ n1). split.
  - rewrite Ht2, Ht1. by rewrite app_assoc.
  - rewrite forallb_app. by rewrite Hq1, Hq2.
Qed.

Lemma only_calls_record (ev : Event) (w : World) :
  not_storage_kind (kind_of ev) = true -> only_calls w (record ev w).
Proof.
  intros Hq. repeat split. exists [ev]. split; [done|].
  simpl. destruct ev; try done.
Qed.

Lemma only_calls_frame {A} (c : M A) :
  (forall P : World -> World -> Prop,
     (forall w, P w w) -> (forall a b d, P a b -> P b d -> P a d) ->
     (forall ev w, not_storage_kind (kind_of ev) = true -> P w (record ev w)) ->
     preserves P c) ->
  forall w, only_calls w (snd (c w)).
Proof.
  intros Hc. apply (Hc only_calls).
  - apply only_calls_refl.
  - apply only_calls_trans.
  - apply only_calls_record.
Qed.

Lemma only_calls_signUp `{Platform} (email password name : string) (role : UserRole) (w : World) :
  only_calls w (snd (signUp email password name role w)).
Proof.
  apply only_calls_frame. intros P Hr Ht Hrec.
  by apply (preserves_signUp P not_storage_kind).
Qed.

Lemma only_calls_generateCredentials (w : World) :
  only_calls w (snd (generateCredentials w)).
Proof.
  apply only_calls_frame. intros P Hr Ht Hrec.
  by apply (preserves_generateCredentials P not_storage_kind).
Qed.

(** ** A failed enrollment leaves the vault alone *)

Section Enrollment.
Context `{Platform}.

(** C7.  When the gate rejects the image, [enrollDevice] fails with the
    gate's reason; when the registration of the account fails, it fails
    with the error of the registration.  Either way nothing is written to
    [localStorage], and the device is enrolled after the attempt exactly if
    it was before. *)
Theorem enrollDevice_failure_leaves_vault
    (name : string) (role : UserRole) (image : string) (w : World) :
  (gate_rejects (gate_value w) = true ->
   exists w',
     enrollDevice name role image w
     = (Throw (Error ("Face Enrollment Failed: "
                        +:+ js_to_string (field (gate_value w) "reason"))), w')
     /\ localStorage w' = localStorage w
     /\ enrolled w' = enrolled w
     /\ calls KSignUp (trace w') = calls KSignUp (trace w))
  /\ (gate_accepts (gate_value w) = true ->
      forall creds w2 e w3,
        generateCredentials (after_gate image w) = (Ok creds, w2) ->
        signUp (c_email creds) (c_password creds) name role w2 = (Throw e, w3) ->
        enrollDevice name role image w = (Throw e, w3)
        /\ localStorage w3 = localStorage w
        /\ enrolled w3 = enrolled w).
Proof.
  split.
  - intros Hrej. exists (after_gate image w).
    split; [by apply enrollDevice_rejected|]. repeat split.
  - intros Hacc creds w2 e w3 Hgen Hreg.
    rewrite (enrollDevice_accepted _ _ _ _ Hacc).
    rewrite (bind_ok _ _ _ _ _ Hgen).
    rewrite (bind_throw _ _ _ _ _ Hreg).
    split; [done|].
    assert (Hstore : localStorage w3 = localStorage w).
    { pose proof (only_calls_signUp (c_email creds) (c_password creds) name role w2) as (_ & Hs3 & _).
      pose proof (only_calls_generateCredentials (after_gate image w)) as (_ & Hs2 & _).
      rewrite Hreg in Hs3. rewrite Hgen in Hs2. simpl in Hs3, Hs2.
      by rewrite Hs3, Hs2. }
    split; [done|]. unfold enrolled. by rewrite Hstore.
Qed.

End Enrollment.

Lemma enrollDevice_failure_leaves_vault_witness :
  (exists w',
     @enrollDevice reference_platform "J. Perera" ADMIN face
       (world_of (ai_says rejection_json dead_env) fresh_storage)
     = (Throw (Error "Face Enrollment Failed: No face detected"), w')
     /\ localStorage w' = fresh_storage)
  /\ (exists w',
        @enrollDevice reference_platform "J. Perera" ADMIN face
          (world_of (ai_says approval_json dead_env) fresh_storage)
        = (Throw (Error "Failed to fetch"), w')
        /\ localStorage w' = fresh_storage).
Proof.
  split.
  - destruct (@enrollDevice_failure_leaves_vault reference_platform "J. Perera" ADMIN face
                (world_of (ai_says rejection_json dead_env) fresh_storage)) as [Hrej _].
    destruct Hrej as (w' & Hrun & Hls & _); [vm_compute; reflexivity|].
    exists w'. split; [exact Hrun|exact Hls].
  - destruct (@enrollDevice_failure_leaves_vault reference_platform "J. Perera" ADMIN face
                (world_of (ai_says approval_json dead_env) fresh_storage)) as [_ Hacc].
    edestruct Hacc as (Hrun & Hls & _).
    + vm_compute. reflexivity.
    + vm_compute. reflexivity.
    + vm_compute. reflexivity.
    + eexists. split; [exact Hrun|exact Hls].
Defined.

(** ** The credentials do not depend on the name or the face *)

Lemma same_registered_refl (w : World) : same_registered w w.
Proof. done. Qed.

Lemma same_registered_trans (a b c : World) :
  same_registered a b -> same_registered b c -> same_registered a c.
Proof. unfold same_registered. congruence. Qed.

Lemma same_registered_record (ev : Event) (w : World) :
  not_signUp_kind (kind_of ev) = true -> same_registered w (record ev w).
Proof. unfold same_registered. by destruct ev. Qed.

Lemma same_registered_setItem (k v : string) : preserves same_registered (setItem k v).
Proof.
  intros w. unfold setItem, same_registered. by destruct (N.leb _ _).
Qed.

Section Credentials.
Context `{Platform}.

(** The pair registered by an approved enrollment is the pair just drawn. *)
Lemma enrollDevice_registers
    (name : string) (role : UserRole) (image : string) (w w2 : World) (creds : Credentials) :
  gate_accepts (gate_value w) = true ->
  generateCredentials (after_gate image w) = (Ok creds, w2) ->
  registered (trace (snd (enrollDevice name role image w)))
  = (c_email creds, c_password creds) :: registered (trace w).
Proof.
  intros Hacc Hgen.
  pose proof (enrollDevice_after_signUp same_registered not_signUp_kind
                same_registered_refl same_registered_trans same_registered_record
                name role image w w2 creds eq_refl eq_refl eq_refl
                (fun v _ => same_registered_setItem _ v) Hacc Hgen) as Hafter.
  pose proof (preserves_generateCredentials same_registered not_signUp_kind
                same_registered_refl same_registered_trans same_registered_record
                eq_refl eq_refl (after_gate image w)) as Hdrawn.
  rewrite Hgen in Hdrawn. unfold same_registered in *. simpl in Hdrawn.
  rewrite Hafter. cbn [record trace registered]. by rewrite Hdrawn.
Qed.

(** C9.  Two enrollments that read the same clock and draw the same random
    numbers register the same email and the same password, whatever the
    names, the roles and the face images are, as long as the gate approves
    both images. *)
Theorem credentials_independent_of_name_and_face
    (name1 name2 : string) (role1 role2 : UserRole) (image1 image2 : string)
    (w1 w2 : World) :
  clock_reading w1 = clock_reading w2 ->
  (forall i, i < 2 -> random_draw w1 i = random_draw w2 i) ->
  gate_accepts (gate_value w1) = true ->
  gate_accepts (gate_value w2) = true ->
  exists email password,
    registered (trace (snd (enrollDevice name1 role1 image1 w1)))
    = (email, password) :: registered (trace w1)
    /\ registered (trace (snd (enrollDevice name2 role2 image2 w2)))
       = (email, password) :: registered (trace w2).
Proof.
  intros Hclock Hdraw Hacc1 Hacc2.
  destruct (generateCredentials_ok (after_gate image1 w1)) as (c1 & wa & Hg1).
  destruct (generateCredentials_ok (after_gate image2 w2)) as (c2 & wb & Hg2).
  assert (Hsame : c1 = c2).
  { pose proof (generateCredentials_determined (after_gate image1 w1) (after_gate image2 w2))
      as Hdet.
    rewrite Hg1, Hg2 in Hdet. simpl in Hdet.
    assert (Heq : Ok c1 = Ok c2) by (apply Hdet; assumption).
    by injection Heq. }
  subst c2. exists (c_email c1), (c_password c1). split.
  - by apply (enrollDevice_registers name1 role1 image1 w1 wa).
  - by apply (enrollDevice_registers name2 role2 image2 w2 wb).
Qed.

End Credentials.

Lemma credentials_independent_of_name_and_face_witness :
  exists email password,
    registered (trace (snd (@enrollDevice reference_platform "J. Perera" ADMIN face
                              (world_of (ai_says approval_json dead_env) fresh_storage))))
    = [(email, password)]
    /\ registered (trace (snd (@enrollDevice reference_platform "K. Silva" DATA_ENTRY_WORKER
                                 other_face
                                 (world_of (ai_says approval_json late_row_env) fresh_storage))))
       = [(email, password)].
Proof.
  apply (@credentials_independent_of_name_and_face reference_platform
           "J. Perera" "K. Silva" ADMIN DATA_ENTRY_WORKER face other_face
           (world_of (ai_says approval_json dead_env) fresh_storage)
           (world_of (ai_says approval_json late_row_env) fresh_storage)).
  - reflexivity.
  - intros i _. reflexivity.
  - vm_compute. reflexivity.
  - vm_compute. reflexivity.
Defined.

(** ** The steps of [faceLogin] *)

Section Verification.
Context `{Platform}.

Lemma faceLogin_not_enrolled (image : string) (w : World) :
  enrolled w = false ->
  faceLogin image w
  = (Throw (Error "Device not enrolled. Please perform One-Time Setup."), w).
Proof.
  unfold enrolled. intros Hne. unfold faceLogin, bind, getItem. by rewrite Hne.
Qed.

Lemma faceLogin_rejected (image : string) (w : World) :
  enrolled w = true ->
  gate_rejects (gate_value w) = true ->
  faceLogin image w
  = (Throw (Error ("Access Denied: " +:+ js_to_string (field (gate_value w) "reason"))),
     after_gate image w).
Proof.
  unfold enrolled. intros Hen Hrej.
  destruct (gate_rejects_inv _ Hrej) as (a & Hget & Ha).
  unfold faceLogin. unfold bind at 1, getItem at 1. rewrite Hen. cbn [negb].
  rewrite (bind_ok _ _ _ _ _ (analyzeFaceForAccess_run image w)).
  rewrite (bind_ok _ _ _ _ _ (member_get _ _ _ _ Hget)).
  rewrite Ha. cbn [negb].
  by rewrite (bind_ok _ _ _ _ _ (member_get _ _ _ _ (get_prop_field _ _ _ Hget "reason"))).
Qed.

(** With the vault present and the gate's approval, [faceLogin] is its
    [try] block, every error of which comes out as "token corrupted". *)
Lemma faceLogin_accepted (image : string) (w : World) :
  enrolled w = true ->
  gate_accepts (gate_value w) = true ->
  faceLogin image w
  = try_catch
      (let* decoded :=
         atob_M (default EmptyString (items (localStorage w) !! BIOMETRIC_VAULT_KEY)) in
       let* creds := JSON_parse_M decoded in
       let* email := member creds "email" in
       let* password := member creds "password" in
       let* login := signIn email password in
       match error login with
       | Some e => throw e
       | None =>
           match appUser login with
           | None => throw (Error "User not found.")
           | Some appUser => ret appUser
           end
       end)
      (fun e => throw token_corrupted)
      (after_gate image w).
Proof.
  unfold enrolled. intros Hen Hacc.
  destruct (gate_accepts_inv _ Hacc) as (a & Hget & Ha).
  unfold faceLogin. unfold bind at 1, getItem at 1. rewrite Hen. cbn [negb].
  rewrite (bind_ok _ _ _ _ _ (analyzeFaceForAccess_run image w)).
  rewrite (bind_ok _ _ _ _ _ (member_get _ _ _ _ Hget)).
  rewrite Ha. reflexivity.
Qed.

(** The error of a failed sign-in comes out of [faceLogin] as "token
    corrupted", although the vault decoded. *)
Lemma faceLogin_signIn_failure
    (image vault decoded : string) (creds email password : JsVal) (err : JsError)
    (w w' : World) :
  items (localStorage w) !! BIOMETRIC_VAULT_KEY = Some vault ->
  nonempty vault = true ->
  gate_accepts (gate_value w) = true ->
  atob vault = Some decoded ->
  JSON_parse decoded = Some creds ->
  get_prop creds "email" = Some email ->
  get_prop creds "password" = Some password ->
  signIn email password (after_gate image w) = (Ok (mkProfileResult None (Some err)), w') ->
  faceLogin image w = (Throw token_corrupted, w').
Proof.
  intros Hvault Hne Hacc Hatob Hparse Hemail Hpwd Hsign.
  rewrite faceLogin_accepted; [|unfold enrolled; by rewrite Hvault|done].
  rewrite Hvault. change (default EmptyString (Some vault)) with vault. unfold try_catch.
  unfold atob_M. rewrite Hatob, bind_ret.
  unfold JSON_parse_M. rewrite Hparse, bind_ret.
  rewrite (bind_ok _ _ _ _ _ (member_get _ _ _ _ Hemail)).
  rewrite (bind_ok _ _ _ _ _ (member_get _ _ _ _ Hpwd)).
  by rewrite (bind_ok _ _ _ _ _ Hsign).
Qed.

Lemma handleAutoVerify_mode (image : string) (st : AuthState) (w : World) :
  mode (fst (handleAutoVerify image st w)) = mode st.
Proof.
  unfold handleAutoVerify. destruct (faceLogin image w) as [[u|e] w']; reflexivity.
Qed.

(** C6.  When the gate returns authorized = false, the verification attempt
    sends no sign-in request, counts no login, leaves the mode (VERIFY) and
    the armed interval as they are, clears the scanning flag for the next
    tick, and reports the soft "Adjust face position..." status with no
    error; the attempt ends in a state, never in an exception. *)
Theorem handleAutoVerify_gate_rejection (image : string) (st : AuthState) (w : World) :
  gate_rejects (gate_value w) = true ->
  exists e st' w',
    faceLogin image w = (Throw e, w')
    /\ handleAutoVerify image st w = (st', w')
    /\ calls KSignInWithPassword (trace w') = calls KSignInWithPassword (trace w)
    /\ localStorage w' = localStorage w
    /\ mode st' = mode st
    /\ (mode st = VERIFY -> mode st' = VERIFY)
    /\ loginSuccesses st' = loginSuccesses st
    /\ scanIntervalRef st' = scanIntervalRef st
    /\ statusMessage st' = "Adjust face position..."
    /\ ui_error st' = None
    /\ isLoading st' = false
    /\ isScanningRef st' = false.
Proof.
  intros Hrej. unfold handleAutoVerify.
  destruct (enrolled w) eqn:Hen.
  - rewrite (faceLogin_rejected image w Hen Hrej).
    eexists _, _, _. repeat split. intros Hm. exact Hm.
  - rewrite (faceLogin_not_enrolled image w Hen).
    eexists _, _, _. repeat split. intros Hm. exact Hm.
Qed.

End Verification.

Lemma handleAutoVerify_gate_rejection_witness :
  exists e st' w',
    @faceLogin reference_platform face
      (world_of (ai_says rejection_json dead_env) enrolled_storage) = (Throw e, w')
    /\ @handleAutoVerify reference_platform face verifying
         (world_of (ai_says rejection_json dead_env) enrolled_storage) = (st', w')
    /\ calls KSignInWithPassword (trace w') = 0
    /\ mode st' = VERIFY
    /\ statusMessage st' = "Adjust face position..."
    /\ ui_error st' = None.
Proof.
  destruct (@handleAutoVerify_gate_rejection reference_platform face verifying
              (world_of (ai_says rejection_json dead_env) enrolled_storage))
    as (e & st' & w' & Hlogin & Hrun & Hsign & _ & Hmode & _ & _ & _ & Hstatus & Herr & _).
  - vm_compute. reflexivity.
  - exists e, st', w'. repeat split; assumption.
Defined.

(** ** What [faceLogin] reports when the sign-in fails *)

(** C2, evaluated where it fails.  The device is enrolled with a vault that
    decodes to its credential pair, the gate approves the image, and the
    auth service refuses the sign-in: [faceLogin] fails with "Biometric
    Token Corrupted. Please Re-Enroll.", the error of a corrupt vault. *)
Theorem faceLogin_signIn_failure_reported_as_corruption :
  Reference.atob perera_vault
  = JSON_stringify (Credentials_object perera_credentials)
  /\ match Reference.atob perera_vault with
     | Some json => Reference.JSON_parse json
     | None => None
     end = Some (Credentials_object perera_credentials)
  /\ gate_accepts (@gate_value reference_platform (world_of refused_signin_env enrolled_storage))
     = true
  /\ fst (@signIn (JStr (c_email perera_credentials)) (JStr (c_password perera_credentials))
            (after_gate face (world_of refused_signin_env enrolled_storage)))
     = Ok (mkProfileResult None (Some (Error "Invalid login credentials")))
  /\ fst (@faceLogin reference_platform face (world_of refused_signin_env enrolled_storage))
     = Throw (Error "Biometric Token Corrupted. Please Re-Enroll.").
Proof.
  split; [vm_compute; reflexivity|].
  split; [vm_compute; reflexivity|].
  split; [vm_compute; reflexivity|].
  split; [vm_compute; reflexivity|].
  vm_compute. reflexivity.
Qed.

(** ** Enrolled means stored more recently than cleared *)

Lemma vault_key_neq : String.eqb LOCAL_STORAGE_KEY BIOMETRIC_VAULT_KEY = false.
Proof. reflexivity. Qed.

Lemma stored_since_clear_replay (tr : list Event) :
  stored_since_clear tr = match vault_replay tr with Some _ => true | None => false end.
Proof.
  induction tr as [|ev tr IH]; [done|].
  destruct ev; cbn [stored_since_clear vault_replay]; try exact IH;
    by destruct (String.eqb _ _).
Qed.

Lemma vault_consistent_enrolled (w : World) :
  vault_consistent w -> enrolled w = stored_since_clear (trace w).
Proof.
  intros [Hitems Hne]. unfold enrolled. rewrite Hitems, stored_since_clear_replay.
  destruct (vault_replay (trace w)) as [v|]; [|done]. by apply Hne.
Qed.

Lemma fresh_device_consistent (w : World) : fresh_device w -> vault_consistent w.
Proof.
  intros [Htr Hitems]. split; rewrite Htr; [done|]. discriminate.
Qed.

Lemma kvc_refl (w : World) : keeps_vault_consistent w w.
Proof. by intros Hw. Qed.

Lemma kvc_trans (a b c : World) :
  keeps_vault_consistent a b -> keeps_vault_consistent b c -> keeps_vault_consistent a c.
Proof. unfold keeps_vault_consistent. auto. Qed.

Lemma kvc_record (ev : Event) (w : World) :
  not_storage_kind (kind_of ev) = true -> keeps_vault_consistent w (record ev w).
Proof.
  intros Hq [Hitems Hne]. unfold vault_consistent, record.
  cbn [trace localStorage]. by destruct ev.
Qed.

Lemma kvc_setItem_vault (v : string) :
  nonempty v = true -> preserves keeps_vault_consistent (setItem BIOMETRIC_VAULT_KEY v).
Proof.
  intros Hv w Hw. unfold setItem. destruct (N.leb _ _); [|exact Hw].
  split; cbn [snd trace localStorage items vault_replay].
  - rewrite String.eqb_refl. apply lookup_insert_eq.
  - rewrite String.eqb_refl. by intros ? [= <-].
Qed.

Lemma kvc_setItem_entries (v : string) :
  preserves keeps_vault_consistent (setItem LOCAL_STORAGE_KEY v).
Proof.
  intros w [Hitems Hne]. unfold setItem. destruct (N.leb _ _); [|by split].
  split; cbn [snd trace localStorage items vault_replay]; rewrite vault_key_neq; [|done].
  by rewrite lookup_insert_ne.
Qed.

Lemma kvc_removeItem_vault :
  preserves keeps_vault_consistent (removeItem BIOMETRIC_VAULT_KEY).
Proof.
  intros w _. unfold removeItem.
  split; cbn [snd trace localStorage items vault_replay]; rewrite String.eqb_refl.
  - apply lookup_delete_eq.
  - discriminate.
Qed.

Lemma nvc_refl (w : World) : no_vault_clear w w.
Proof. by exists []. Qed.

Lemma vault_cleared_app (a b : list Event) :
  vault_cleared (a ++ b) = vault_cleared a || vault_cleared b.
Proof.
  induction a as [|ev a IH]; [done|].
  destruct ev; cbn [app vault_cleared]; try exact IH.
  rewrite IH. by rewrite orb_assoc.
Qed.

Lemma nvc_trans (a b c : World) :
  no_vault_clear a b -> no_vault_clear b c -> no_vault_clear a c.
Proof.
  intros (n1 & Ht1 & Hc1) (n2 & Ht2 & Hc2). exists (n2 ++ n1). split.
  - rewrite Ht2, Ht1. by rewrite app_assoc.
  - rewrite vault_cleared_app. by rewrite Hc1, Hc2.
Qed.

Lemma nvc_record (ev : Event) (w : World) :
  not_storage_kind (kind_of ev) = true -> no_vault_clear w (record ev w).
Proof. intros Hq. exists [ev]. split; [done|]. by destruct ev. Qed.

Lemma nvc_setItem (k v : string) : preserves no_vault_clear (setItem k v).
Proof.
  intros w. unfold setItem. destruct (N.leb _ _); [|apply nvc_refl].
  by exists [EvSetItem k v].
Qed.

(** A stretch of calls that wrote the vault and did not clear it ends with
    the vault stored. *)
Lemma written_not_cleared (new old : list Event) :
  vault_cleared new = false ->
  vault_writes (new ++ old) <> vault_writes old ->
  stored_since_clear (new ++ old) = true.
Proof.
  induction new as [|ev new IH]; [done|].
  destruct ev; cbn [app vault_cleared vault_writes stored_since_clear]; try exact IH.
  - destruct (String.eqb key BIOMETRIC_VAULT_KEY); [done|exact IH].
  - destruct (String.eqb key BIOMETRIC_VAULT_KEY); [done|exact IH].
Qed.

Section Vault.
Context `{Platform}.

Lemma perform_consistent (c : ApiCall) (w : World) :
  vault_consistent w -> vault_consistent (perform c w).
Proof.
  revert w.
  change (preserves keeps_vault_consistent
            (fun w => (Ok tt, perform c w) : Outcome unit * World)).
  pose proof kvc_refl as Hr. pose proof kvc_trans as Ht. pose proof kvc_record as Hrec.
  destruct c; intros w; cbn [perform snd].
  - by apply (preserves_signUp keeps_vault_consistent not_storage_kind).
  - by apply (preserves_signIn keeps_vault_consistent not_storage_kind).
  - by apply (preserves_remote keeps_vault_consistent not_storage_kind).
  - by apply (preserves_getCurrentUser keeps_vault_consistent not_storage_kind).
  - by apply (preserves_getUserProfile keeps_vault_consistent not_storage_kind).
  - apply kvc_refl.
  - apply (preserves_enrollDevice keeps_vault_consistent not_storage_kind); try done.
    apply kvc_setItem_vault.
  - by apply (preserves_faceLogin keeps_vault_consistent not_storage_kind).
  - apply kvc_removeItem_vault.
  - by apply (preserves_analyzeFaceForAccess keeps_vault_consistent not_storage_kind).
  - by apply (preserves_getEntries keeps_vault_consistent not_storage_kind).
  - apply (preserves_addEntry keeps_vault_consistent not_storage_kind); try done.
    intros l. apply kvc_setItem_entries.
  - apply (preserves_deleteEntry keeps_vault_consistent not_storage_kind); try done.
    intros l. apply kvc_setItem_entries.
Qed.

Lemma session_consistent (cs : list ApiCall) (w0 : World) :
  vault_consistent w0 -> vault_consistent (session cs w0).
Proof.
  revert w0. induction cs as [|c cs IH]; intros w0 Hw0; [done|].
  cbn [session fold_left]. apply IH. by apply perform_consistent.
Qed.

Lemma enrollDevice_no_vault_clear (name : string) (role : UserRole) (image : string) (w : World) :
  no_vault_clear w (snd (enrollDevice name role image w)).
Proof.
  apply (preserves_enrollDevice no_vault_clear not_storage_kind
           nvc_refl nvc_trans nvc_record); try done.
  intros v _. apply nvc_setItem.
Qed.

(** C3.  On a device that starts without a vault, after any sequence of
    calls on the services, [isDeviceEnrolled] returns true exactly if the
    vault was written more recently than it was cleared.  It returns false
    at the start and after every [resetEnrollment], and true after every
    [enrollDevice] that completed its vault write. *)
Theorem isDeviceEnrolled_iff_stored_since_clear (w0 : World) (cs : list ApiCall) :
  fresh_device w0 ->
  let w := session cs w0 in
  fst (isDeviceEnrolled w) = Ok (stored_since_clear (trace w))
  /\ fst (isDeviceEnrolled w0) = Ok false
  /\ fst (isDeviceEnrolled (snd (resetEnrollment w))) = Ok false
  /\ (forall name role image,
        vault_writes (trace (snd (enrollDevice name role image w)))
        = S (vault_writes (trace w)) ->
        fst (isDeviceEnrolled (snd (enrollDevice name role image w))) = Ok true).
Proof.
  intros Hfresh w.
  assert (Hw : vault_consistent w)
    by (apply session_consistent; by apply fresh_device_consistent).
  assert (Hen : forall x, fst (isDeviceEnrolled x) = Ok (enrolled x)) by reflexivity.
  rewrite !Hen. repeat split.
  - by rewrite vault_consistent_enrolled.
  - destruct Hfresh as [_ Hitems]. unfold enrolled. by rewrite Hitems.
  - f_equal. change (snd (resetEnrollment w)) with (perform CallResetEnrollment w).
    rewrite (vault_consistent_enrolled _ (perform_consistent CallResetEnrollment w Hw)).
    reflexivity.
  - intros name role image Hwritten. rewrite Hen. f_equal.
    change (snd (enrollDevice name role image w))
      with (perform (CallEnrollDevice name role image) w).
    rewrite (vault_consistent_enrolled _
               (perform_consistent (CallEnrollDevice name role image) w Hw)).
    cbn [perform].
    destruct (enrollDevice_no_vault_clear name role image w) as (new & Htr & Hclear).
    rewrite Htr in *. apply written_not_cleared; [done|]. lia.
Qed.

End Vault.

Lemma isDeviceEnrolled_iff_stored_since_clear_witness :
  fst (isDeviceEnrolled
         (@session reference_platform
            [CallEnrollDevice "J. Perera" ADMIN face; CallAddEntry kandalama]
            (world_of happy_env fresh_storage))) = Ok true
  /\ fst (isDeviceEnrolled
            (@session reference_platform
               [CallEnrollDevice "J. Perera" ADMIN face; CallFaceLogin face;
                CallResetEnrollment; CallGetEntries]
               (world_of happy_env fresh_storage))) = Ok false.
Proof.
  split.
  - destruct (@isDeviceEnrolled_iff_stored_since_clear reference_platform
                (world_of happy_env fresh_storage)
                [CallEnrollDevice "J. Perera" ADMIN face; CallAddEntry kandalama])
      as [Hiff _]; [by split|].
    rewrite Hiff. vm_compute. reflexivity.
  - destruct (@isDeviceEnrolled_iff_stored_since_clear reference_platform
                (world_of happy_env fresh_storage)
                [CallEnrollDevice "J. Perera" ADMIN face; CallFaceLogin face;
                 CallResetEnrollment; CallGetEntries])
      as [Hiff _]; [by split|].
    rewrite Hiff. vm_compute. reflexivity.
Defined.

(** ** The data service *)

Section DataService.
Context `{Platform}.

Lemma parse_saved_run (w : World) :
  parse_saved (items (localStorage w) !! LOCAL_STORAGE_KEY) w
  = match local_cache w with
    | Some v => (Ok v, w)
    | None => (Throw (Error "SyntaxError: Unexpected token in JSON"), w)
    end.
Proof.
  unfold parse_saved, local_cache, present.
  destruct (items (localStorage w) !! LOCAL_STORAGE_KEY) as [saved|]; [|done].
  destruct (nonempty saved); [|done].
  unfold JSON_parse_M. change (default EmptyString (Some saved)) with saved.
  by destruct (JSON_parse saved).
Qed.

(** The remote insert is one request, and none of its outcomes is raised. *)
Lemma insert_remote_run (entry : ReservoirEntry) (w : World) :
  exists r, insert_remote entry w
            = (Ok r, record (EvEntriesInsert (JArr [dbPayload entry])) w).
Proof.
  unfold insert_remote, try_catch, bind, remote.
  destruct (entries_insert (env w) _) as [[e|]|e]; cbn [kind_of].
  - destruct (option_is (code e) MISSING_TABLE_CODE); by eexists.
  - by eexists.
  - by eexists.
Qed.

(** The mirror into the cache: the write, or nothing at all. *)
Lemma mirror_local_run (entry : ReservoirEntry) (w : World) :
  mirror_local entry w
  = match cached_entries w with
    | Some rest =>
        if fits LOCAL_STORAGE_KEY (cache_text entry rest) w
        then setItem LOCAL_STORAGE_KEY (cache_text entry rest) w
        else (Ok tt, w)
    | None => (Ok tt, w)
    end.
Proof.
  unfold mirror_local, try_catch, cached_entries.
  unfold bind at 1, getItem at 1.
  unfold bind at 1. rewrite parse_saved_run.
  destruct (local_cache w) as [v|]; [|done].
  unfold bind, spread. destruct (iterate v) as [rest|]; [|done].
  unfold ret. fold (cache_text entry rest).
  unfold fits, setItem. by destruct (N.leb _ _).
Qed.

Lemma local_cache_record (ev : Event) (w : World) :
  local_cache (record ev w) = local_cache w.
Proof. reflexivity. Qed.

Lemma addEntry_run (entry : ReservoirEntry) (w : World) :
  addEntry entry w
  = (Ok tt, snd (mirror_local entry (record (EvEntriesInsert (JArr [dbPayload entry])) w))).
Proof.
  unfold addEntry. destruct (insert_remote_run entry w) as [r Hr].
  rewrite (bind_ok _ _ _ _ _ Hr). unfold bind.
  rewrite mirror_local_run.
  destruct (cached_entries _) as [rest|]; [|done].
  destruct (fits _ _ _) eqn:Hfits; [|done].
  unfold setItem. unfold fits in Hfits. by rewrite Hfits.
Qed.

(** C4, as the code has it.  [addEntry] never raises, whatever the remote
    insert does.  When the local cache reads as a list and the storage has
    room, the record is prepended to the cache, whatever the remote insert
    did; when the cache text does not parse or the storage refuses the
    write, the cache stays as it was. *)
Theorem addEntry_mirrors (entry : ReservoirEntry) (w : World) :
  fst (addEntry entry w) = Ok tt
  /\ (forall rest,
        cached_entries w = Some rest ->
        fits LOCAL_STORAGE_KEY (cache_text entry rest) w = true ->
        items (localStorage (snd (addEntry entry w))) !! LOCAL_STORAGE_KEY
        = Some (cache_text entry rest))
  /\ (forall rest,
        cached_entries w = Some rest ->
        fits LOCAL_STORAGE_KEY (cache_text entry rest) w = false ->
        localStorage (snd (addEntry entry w)) = localStorage w)
  /\ (cached_entries w = None ->
      localStorage (snd (addEntry entry w)) = localStorage w).
Proof.
  rewrite addEntry_run. cbn [fst snd]. rewrite mirror_local_run.
  change (cached_entries (record _ w)) with (cached_entries w).
  split; [done|]. split; [|split].
  - intros rest -> Hfits.
    change (fits LOCAL_STORAGE_KEY (cache_text entry rest) (record _ w))
      with (fits LOCAL_STORAGE_KEY (cache_text entry rest) w).
    rewrite Hfits. unfold setItem. unfold fits in Hfits.
    cbn [record localStorage]. rewrite Hfits. cbn [snd localStorage items].
    apply lookup_insert_eq.
  - intros rest -> Hfits.
    change (fits LOCAL_STORAGE_KEY (cache_text entry rest) (record _ w))
      with (fits LOCAL_STORAGE_KEY (cache_text entry rest) w).
    by rewrite Hfits.
  - by intros ->.
Qed.

Lemma getEntries_failed_read (e : JsError) (w : World) :
  read_error (select_reply w) = Some e ->
  getEntries w
  = match local_cache w with
    | Some d =>
        (Ok (mkEntriesResult d LOCAL (option_is (code e) MISSING_TABLE_CODE)),
         record EvEntriesSelect w)
    | None =>
        (Throw (Error "SyntaxError: Unexpected token in JSON"), record EvEntriesSelect w)
    end.
Proof.
  unfold read_error, select_reply. intros Herr.
  unfold getEntries, try_catch. unfold bind at 1, remote at 1. cbn [kind_of].
  assert (Hhandler : forall w1,
            (let* saved := getItem LOCAL_STORAGE_KEY in
             let* data := parse_saved saved in
             ret (mkEntriesResult data LOCAL (option_is (code e) MISSING_TABLE_CODE))) w1
            = match local_cache w1 with
              | Some d =>
                  (Ok (mkEntriesResult d LOCAL (option_is (code e) MISSING_TABLE_CODE)), w1)
              | None => (Throw (Error "SyntaxError: Unexpected token in JSON"), w1)
              end).
  { intros w1. unfold bind at 1, getItem at 1. unfold bind. rewrite parse_saved_run.
    by destruct (local_cache w1). }
  destruct (entries_select (env w) _) as [q|e'].
  - rewrite Herr. unfold throw. rewrite Hhandler. by rewrite local_cache_record.
  - injection Herr as ->. rewrite Hhandler. by rewrite local_cache_record.
Qed.

Lemma mapRow_object (row : JsVal) (w : World) :
  row <> JUndefined -> row <> JNull -> exists mapped, mapRow row w = (Ok mapped, w).
Proof.
  intros Hu Hn. unfold mapRow.
  repeat (rewrite (bind_ok _ _ _ _ _ (member_ok _ _ _ Hu Hn))).
  by eexists.
Qed.

Lemma mapM_mapRow_objects (rows : list JsVal) (w : World) :
  Forall (fun row => row <> JUndefined /\ row <> JNull) rows ->
  exists mapped, mapM mapRow rows w = (Ok mapped, w) /\ length mapped = length rows.
Proof.
  induction 1 as [|row rows [Hu Hn] _ (mapped & Hrest & Hlen)]; [by exists []|].
  destruct (mapRow_object row w Hu Hn) as [m Hm].
  exists (m :: mapped). cbn [mapM].
  rewrite (bind_ok _ _ _ _ _ Hm), (bind_ok _ _ _ _ _ Hrest).
  split; [done|]. cbn [length]. by rewrite Hlen.
Qed.

(** A read that comes back without an error and with rows is mapped row by
    row and tagged as remote. *)
Lemma getEntries_remote_rows (q : QueryResult) (rows : list JsVal) (w : World) :
  select_reply w = Resolves q ->
  q_error q = None ->
  js_or (q_data q) (JArr []) = JArr rows ->
  Forall (fun row => row <> JUndefined /\ row <> JNull) rows ->
  exists mapped,
    getEntries w = (Ok (mkEntriesResult (JArr mapped) MYSQL false), record EvEntriesSelect w)
    /\ length mapped = length rows.
Proof.
  unfold select_reply. intros Hreply Herr Hdata Hrows.
  destruct (mapM_mapRow_objects rows (record EvEntriesSelect w) Hrows) as (mapped & Hmap & Hlen).
  exists mapped. split; [|done].
  unfold getEntries, try_catch. unfold bind at 1, remote at 1. cbn [kind_of].
  rewrite Hreply, Herr, Hdata. unfold as_array. rewrite bind_ret.
  by rewrite (bind_ok _ _ _ _ _ Hmap).
Qed.

(** C5.  When the remote read fails with the code PGRST205 of a missing
    relation, [getEntries] returns the data of the local cache with source
    LOCAL and the missing-table flag set; when it fails with any other
    error, it returns the data of the local cache with source LOCAL and the
    flag clear; and it returns data with source MYSQL only when the remote
    read came back without an error. *)
Theorem getEntries_classifies (w : World) :
  (forall e d,
     read_error (select_reply w) = Some e ->
     code e = Some MISSING_TABLE_CODE ->
     local_cache w = Some d ->
     getEntries w = (Ok (mkEntriesResult d LOCAL true), record EvEntriesSelect w))
  /\ (forall e d,
        read_error (select_reply w) = Some e ->
        code e <> Some MISSING_TABLE_CODE ->
        local_cache w = Some d ->
        getEntries w = (Ok (mkEntriesResult d LOCAL false), record EvEntriesSelect w))
  /\ (forall r,
        fst (getEntries w) = Ok r ->
        source r = MYSQL ->
        exists q, select_reply w = Resolves q /\ q_error q = None).
Proof.
  split; [|split].
  - intros e d Herr Hcode Hcache.
    rewrite (getEntries_failed_read e w Herr), Hcache, Hcode. reflexivity.
  - intros e d Herr Hcode Hcache.
    rewrite (getEntries_failed_read e w Herr), Hcache.
    destruct (code e) as [c|]; [|done]. cbn [option_is].
    destruct (String.eqb_spec c MISSING_TABLE_CODE) as [->|]; [by destruct Hcode|done].
  - intros r Hrun Hsource.
    destruct (read_error (select_reply w)) as [e|] eqn:Herr.
    + rewrite (getEntries_failed_read e w Herr) in Hrun.
      destruct (local_cache w); [|discriminate].
      injection Hrun as <-. discriminate.
    + unfold read_error in Herr. destruct (select_reply w) as [q|e]; [|discriminate].
      by exists q.
Qed.

End DataService.

Lemma addEntry_mirrors_witness :
  fst (@addEntry reference_platform kandalama (world_of dead_env fresh_storage)) = Ok tt
  /\ items (localStorage (snd (@addEntry reference_platform kandalama
                                 (world_of dead_env fresh_storage))))
       !! LOCAL_STORAGE_KEY
     = Some (cache_text kandalama []).
Proof.
  destruct (@addEntry_mirrors reference_platform kandalama (world_of dead_env fresh_storage))
    as (Hok & Hput & _).
  split; [exact Hok|]. apply Hput.
  - vm_compute. reflexivity.
  - vm_compute. reflexivity.
Defined.

(** C4, as stated, fails: with the storage full, the write of the cache is
    refused, the refusal is swallowed, and the record is not in the cache,
    whether the remote insert succeeded or failed. *)
Lemma addEntry_full_storage_drops_record :
  fst (@addEntry reference_platform kandalama (world_of insert_ok_env full_storage)) = Ok tt
  /\ items (localStorage (snd (@addEntry reference_platform kandalama
                                 (world_of insert_ok_env full_storage))))
       !! LOCAL_STORAGE_KEY = Some "[]"
  /\ fst (@addEntry reference_platform kandalama (world_of dead_env full_storage)) = Ok tt
  /\ items (localStorage (snd (@addEntry reference_platform kandalama
                                 (world_of dead_env full_storage))))
       !! LOCAL_STORAGE_KEY = Some "[]".
Proof. vm_compute. repeat split. Qed.

Lemma getEntries_classifies_witness :
  @getEntries reference_platform (world_of missing_table_env fresh_storage)
  = (Ok (mkEntriesResult (JArr []) LOCAL true),
     record EvEntriesSelect (world_of missing_table_env fresh_storage))
  /\ @getEntries reference_platform (world_of dead_env fresh_storage)
     = (Ok (mkEntriesResult (JArr []) LOCAL false),
        record EvEntriesSelect (world_of dead_env fresh_storage)).
Proof.
  split.
  - destruct (@getEntries_classifies reference_platform
                (world_of missing_table_env fresh_storage)) as (Hmissing & _).
    apply (Hmissing missing_table); reflexivity.
  - destruct (@getEntries_classifies reference_platform
                (world_of dead_env fresh_storage)) as (_ & Hother & _).
    apply (Hother offline); [reflexivity|discriminate|reflexivity].
Defined.

(** ** The cache stays readable *)

(** That the local cache reads as data is an invariant of the services:
    they only ever store the text of an array. *)

Lemma kcw_refl (w : World) : keeps_cache_wellformed w w.
Proof. by intros Hw. Qed.

Lemma kcw_trans (a b c : World) :
  keeps_cache_wellformed a b -> keeps_cache_wellformed b c -> keeps_cache_wellformed a c.
Proof. unfold keeps_cache_wellformed. auto. Qed.

Lemma kcw_record (ev : Event) (w : World) :
  not_storage_kind (kind_of ev) = true -> keeps_cache_wellformed w (record ev w).
Proof.
  intros Hq [Hitems Harr]. unfold cache_wellformed, record.
  cbn [trace localStorage]. by destruct ev.
Qed.

Lemma kcw_setItem_array (l : list JsVal) :
  preserves keeps_cache_wellformed (setItem LOCAL_STORAGE_KEY (array_text l)).
Proof.
  intros w Hw. unfold setItem. destruct (N.leb _ _); [|exact Hw].
  split; cbn [snd trace localStorage items cache_replay]; rewrite String.eqb_refl.
  - apply lookup_insert_eq.
  - intros v [= <-]. by exists l.
Qed.

Lemma kcw_setItem_vault (v : string) :
  preserves keeps_cache_wellformed (setItem BIOMETRIC_VAULT_KEY v).
Proof.
  intros w [Hitems Harr]. unfold setItem. destruct (N.leb _ _); [|by split].
  split; cbn [snd trace localStorage items cache_replay];
    change (String.eqb BIOMETRIC_VAULT_KEY LOCAL_STORAGE_KEY) with false; [|done].
  by rewrite lookup_insert_ne.
Qed.

Lemma kcw_removeItem_vault :
  preserves keeps_cache_wellformed (removeItem BIOMETRIC_VAULT_KEY).
Proof.
  intros w [Hitems Harr]. unfold removeItem.
  split; cbn [snd trace localStorage items cache_replay];
    change (String.eqb BIOMETRIC_VAULT_KEY LOCAL_STORAGE_KEY) with false; [|done].
  by rewrite lookup_delete_ne.
Qed.

Lemma array_text_nonempty (l : list JsVal) : nonempty (array_text l) = true.
Proof. reflexivity. Qed.

Section CacheInvariant.
Context `{Platform}.

Lemma perform_cache_wellformed (c : ApiCall) (w : World) :
  cache_wellformed w -> cache_wellformed (perform c w).
Proof.
  revert w.
  change (preserves keeps_cache_wellformed
            (fun w => (Ok tt, perform c w) : Outcome unit * World)).
  pose proof kcw_refl as Hr. pose proof kcw_trans as Ht. pose proof kcw_record as Hrec.
  destruct c; intros w; cbn [perform snd].
  - by apply (preserves_signUp keeps_cache_wellformed not_storage_kind).
  - by apply (preserves_signIn keeps_cache_wellformed not_storage_kind).
  - by apply (preserves_remote keeps_cache_wellformed not_storage_kind).
  - by apply (preserves_getCurrentUser keeps_cache_wellformed not_storage_kind).
  - by apply (preserves_getUserProfile keeps_cache_wellformed not_storage_kind).
  - apply kcw_refl.
  - apply (preserves_enrollDevice keeps_cache_wellformed not_storage_kind); try done.
    intros v _. apply kcw_setItem_vault.
  - by apply (preserves_faceLogin keeps_cache_wellformed not_storage_kind).
  - apply kcw_removeItem_vault.
  - by apply (preserves_analyzeFaceForAccess keeps_cache_wellformed not_storage_kind).
  - by apply (preserves_getEntries keeps_cache_wellformed not_storage_kind).
  - apply (preserves_addEntry keeps_cache_wellformed not_storage_kind); try done.
    apply kcw_setItem_array.
  - apply (preserves_deleteEntry keeps_cache_wellformed not_storage_kind); try done.
    apply kcw_setItem_array.
Qed.

(** After any sequence of calls on a device that started without a cache,
    the cache reads as data. *)
Lemma session_cache_readable (cs : list ApiCall) (w0 : World) :
  parses_own_arrays ->
  fresh_cache w0 ->
  exists d, local_cache (session cs w0) = Some d.
Proof.
  intros Hparse [Htr Hitems].
  assert (Hwf : cache_wellformed (session cs w0)).
  { assert (Hw0 : cache_wellformed w0) by (split; rewrite Htr; [done|discriminate]).
    clear Htr Hitems. revert w0 Hw0.
    induction cs as [|c cs IH]; intros w0 Hw0; [done|].
    cbn [session fold_left]. apply IH. by apply perform_cache_wellformed. }
  destruct Hwf as [Hheld Harr]. unfold local_cache. rewrite Hheld.
  destruct (cache_replay (trace (session cs w0))) as [v|]; [|by eexists].
  destruct (Harr v eq_refl) as [l ->]. rewrite array_text_nonempty. apply Hparse.
Qed.

End CacheInvariant.

(** ** One verification attempt at a time *)

Lemma same_gate_calls_record (ev : Event) (w : World) :
  not_gate_kind (kind_of ev) = true -> same_gate_calls w (record ev w).
Proof. unfold same_gate_calls. by destruct ev. Qed.

Section ScanningLoop.
Context `{Platform}.

(** An attempt calls the gate at most once. *)
Lemma faceLogin_gate_calls (image : string) (w : World) :
  calls KGenerateContent (trace (snd (faceLogin image w)))
  <= S (calls KGenerateContent (trace w)).
Proof.
  destruct (enrolled w) eqn:Hen.
  - pose proof (faceLogin_after_gate same_gate_calls not_gate_kind
                  (fun w => eq_refl) (fun a b c Hab Hbc => eq_trans Hbc Hab)
                  same_gate_calls_record image w eq_refl eq_refl eq_refl Hen) as Hafter.
    unfold same_gate_calls in Hafter. rewrite Hafter. reflexivity.
  - rewrite (faceLogin_not_enrolled image w Hen). cbn [snd]. lia.
Qed.

(** A tick during an attempt is skipped. *)
Lemma scanTick_skipped (frame : option string) (s : Session) :
  isScanningRef (ui s) = true -> scanTick frame s = s.
Proof.
  intros Hscan. unfold scanTick. rewrite Hscan.
  by destruct (scanIntervalRef (ui s)).
Qed.

Lemma step_invariant (ev : UiEvent) (s : Session) :
  attempt_invariant s -> attempt_invariant (step ev s).
Proof.
  unfold attempt_invariant. intros Hinv. destruct ev as [frame| |m|confirmed|]; cbn [step].
  - destruct (Bool.bool_dec (isScanningRef (ui s)) true) as [Hscan|Hscan].
    { by rewrite (scanTick_skipped frame s Hscan). }
    apply not_true_is_false in Hscan.
    unfold scanTick. destruct (scanIntervalRef (ui s)) as [m|]; [|exact Hinv].
    rewrite Hscan. cbn [orb].
    destruct (negb (Mode_eqb m VERIFY)); [exact Hinv|].
    destruct frame as [image|]; [|exact Hinv].
    destruct (faceLogin image (world s)) as [r w']. cbn [inflight ui].
    destruct (inflight s) as [|r1 [|r2 rest]]; [reflexivity|congruence|done].
  - destruct (inflight s) as [|r1 [|r2 rest]] eqn:Hin; [by rewrite Hin|done|done].
  - cbn [inflight ui]. unfold startScanningLoop.
    destruct (scanIntervalRef (ui s)); exact Hinv.
  - unfold handleReset. destruct confirmed; [|by destruct s].
    destruct (resetEnrollment (world s)) as [r w']. exact Hinv.
  - exact Hinv.
Qed.

Lemma run_invariant (evs : list UiEvent) (s : Session) :
  attempt_invariant s -> attempt_invariant (run evs s).
Proof.
  revert s. induction evs as [|ev evs IH]; intros s Hinv; [done|].
  cbn [run fold_left]. apply IH. by apply step_invariant.
Qed.

(** C8.  From a state with no attempt in flight, whatever ticks,
    settlements, re-arms, resets and cleanups follow, at most one
    verification attempt is in flight; a tick that fires while one is in
    flight changes nothing, so it starts no attempt and calls no gate; and
    a tick that does start an attempt calls the gate at most once. *)
Theorem one_attempt_in_flight (evs : list UiEvent) (s0 : Session) :
  inflight s0 = [] ->
  let s := run evs s0 in
  length (inflight s) <= 1
  /\ (inflight s <> [] -> forall frame, step (Tick frame) s = s)
  /\ (forall frame,
        calls KGenerateContent (trace (world (step (Tick frame) s)))
        <= S (calls KGenerateContent (trace (world s)))).
Proof.
  intros Hstart s.
  assert (Hinv : attempt_invariant s).
  { apply run_invariant. unfold attempt_invariant. by rewrite Hstart. }
  unfold attempt_invariant in Hinv. repeat split.
  - destruct (inflight s) as [|r1 [|r2 rest]]; cbn [length]; [lia|lia|done].
  - intros Hbusy frame. cbn [step]. apply scanTick_skipped.
    destruct (inflight s) as [|r1 [|r2 rest]]; [done|exact Hinv|done].
  - intros frame. cbn [step]. unfold scanTick.
    destruct (scanIntervalRef (ui s)) as [m|]; [|lia].
    destruct (isScanningRef (ui s) || negb (Mode_eqb m VERIFY)); [lia|].
    destruct frame as [image|]; [|lia].
    pose proof (faceLogin_gate_calls image (world s)) as Hgate.
    destruct (faceLogin image (world s)) as [r w']. exact Hgate.
Qed.

End ScanningLoop.

Lemma one_attempt_in_flight_witness :
  length (inflight (@run reference_platform
                      [Tick (Some face); Tick (Some face); Tick None; Tick (Some face)]
                      (mounted (world_of (ai_says rejection_json dead_env) enrolled_storage))))
  <= 1
  /\ calls KGenerateContent
       (trace (world (@run reference_platform
                        [Tick (Some face); Tick (Some face); Tick None; Tick (Some face)]
                        (mounted (world_of (ai_says rejection_json dead_env)
                                    enrolled_storage))))) = 1.
Proof.
  split.
  - apply (@one_attempt_in_flight reference_platform
             [Tick (Some face); Tick (Some face); Tick None; Tick (Some face)]
             (mounted (world_of (ai_says rejection_json dead_env) enrolled_storage))).
    reflexivity.
  - vm_compute. reflexivity.
Defined.

(* ===================================================================== *)
(** * Further properties of the services *)
(* ===================================================================== *)

(** ** The profile resolver and the sign-in *)

(** X1.  A poll of the profile store whose promise is rejected ends
    [getUserProfile] at once with that rejection: the remaining attempts are
    not made and the fallback metadata is not used. *)
Theorem getUserProfile_poll_rejection
    (userId : string) (authUserFallback : JsVal) (w : World) (k : nat) (e : JsError) :
  k < maxAttempts ->
  (forall i, i < k -> attempt_fails (poll_reply w i) = true) ->
  poll_reply w k = Rejects e ->
  getUserProfile userId authUserFallback w
  = (Throw e, extend (backoff_trace userId k) w).
Proof.
  intros Hk Hfail Hrej. unfold getUserProfile.
  apply bind_throw.
  replace maxAttempts with (k + S (maxAttempts - S k)) by lia.
  rewrite poll_profiles_failures by done.
  rewrite poll_profiles_S. cbv zeta.
  rewrite poll_reply_failed_rounds, Hrej. by rewrite record_failed_rounds.
Qed.

Lemma getUserProfile_poll_rejection_witness :
  getUserProfile "u-1" roleless_user (world_of rejecting_poll_env fresh_storage)
  = (Throw offline, extend (backoff_trace "u-1" 1) (world_of rejecting_poll_env fresh_storage)).
Proof.
  apply (getUserProfile_poll_rejection "u-1" roleless_user
           (world_of rejecting_poll_env fresh_storage) 1 offline).
  - unfold maxAttempts. lia.
  - intros [|i] Hi; [reflexivity|lia].
  - reflexivity.
Defined.

Lemma getUserProfile_exclusive
    (userId : string) (authUserFallback : JsVal) (w w' : World) (r : ProfileResult) :
  getUserProfile userId authUserFallback w = (Ok r, w') ->
  (exists u, appUser r = Some u /\ error r = None)
  \/ (exists e, appUser r = None /\ error r = Some e).
Proof.
  unfold getUserProfile, bind.
  destruct (poll_profiles maxAttempts userId w) as [[[u|]|e] w1]; [| |discriminate].
  - intros [= <- _]. left. by exists u.
  - repeat match goal with
           | |- context [match ?x with _ => _ end] => destruct x
           | |- context [if ?b then _ else _] => destruct b
           end;
      first [ discriminate
            | intros [= <- _]; first [ left; by eexists | right; by eexists ] ].
Qed.

(** X2.  Whenever [signIn] returns, its result holds either a user and no
    error, or an error and no user; never both and never neither. *)
Theorem signIn_result_exclusive (email password : JsVal) (w w' : World) (r : ProfileResult) :
  signIn email password w = (Ok r, w') ->
  (exists u, appUser r = Some u /\ error r = None)
  \/ (exists e, appUser r = None /\ error r = Some e).
Proof.
  unfold signIn. unfold bind at 1, remote at 1.
  destruct (auth_signInWithPassword (env w) _) as [reply|e]; [|discriminate].
  destruct (a_error reply) as [ae|].
  - intros [= <- _]. right. by eexists.
  - destruct (a_user reply) as [user|].
    + apply getUserProfile_exclusive.
    + intros [= <- _]. right. by eexists.
Qed.

Lemma signIn_result_exclusive_witness :
  (exists u, appUser (mkProfileResult None (Some (Error "Invalid login credentials"))) = Some u
             /\ error (mkProfileResult None (Some (Error "Invalid login credentials"))) = None)
  \/ (exists e, appUser (mkProfileResult None (Some (Error "Invalid login credentials"))) = None
                /\ error (mkProfileResult None (Some (Error "Invalid login credentials")))
                   = Some e).
Proof.
  apply (signIn_result_exclusive (JStr "a@b") (JStr "pw")
           (world_of refused_signin_env fresh_storage)
           (record (EvSignInWithPassword (JStr "a@b") (JStr "pw"))
              (world_of refused_signin_env fresh_storage))).
  reflexivity.
Defined.


(** ** The enrollment past the registration *)

Lemma setItem_fits (k v : string) (w : World) :
  fits k v w = true -> setItem k v w = (Ok tt, with_item k v w).
Proof. unfold fits, setItem, with_item. by intros ->. Qed.

Lemma signUp_ok_inv `{Platform}
    (email password name : string) (role : UserRole) (w w' : World)
    (r : option AuthUser * option JsError) :
  signUp email password name role w = (Ok r, w') ->
  exists user,
    r = (Some user, None)
    /\ w' = record (EvSignUp email password (signUp_metadata name role)) w.
Proof.
  unfold signUp, bind, remote. destruct (auth_signUp (env w) _) as [reply|e]; [|discriminate].
  destruct (a_error reply) as [ae|].
  - destruct (_ || _); discriminate.
  - destruct (a_user reply) as [user|]; [|discriminate].
    intros [= <- <-]. by exists user.
Qed.

Lemma same_signin_requests_refl (w : World) : same_signin_requests w w.
Proof. reflexivity. Qed.

Lemma same_signin_requests_trans (a b c : World) :
  same_signin_requests a b -> same_signin_requests b c -> same_signin_requests a c.
Proof. unfold same_signin_requests. congruence. Qed.

Lemma same_signin_requests_record (ev : Event) (w : World) :
  not_signIn_kind (kind_of ev) = true -> same_signin_requests w (record ev w).
Proof. unfold same_signin_requests. by destruct ev. Qed.

(** [signIn] sends one sign-in request, with the pair it was given. *)
Lemma signIn_requests (email password : JsVal) (w : World) :
  signin_requests (trace (snd (signIn email password w)))
  = (email, password) :: signin_requests (trace w).
Proof.
  assert (Hrel : same_signin_requests
                   (snd (remote (EvSignInWithPassword email password)
                           auth_signInWithPassword w))
                   (snd (signIn email password w))).
  { unfold signIn.
    apply (bind_snd_related same_signin_requests same_signin_requests_refl).
    intros r. destruct (a_error r); [by intros ?|].
    destruct (a_user r); [|by intros ?].
    apply (preserves_getUserProfile same_signin_requests not_signIn_kind
             same_signin_requests_refl same_signin_requests_trans
             same_signin_requests_record); reflexivity. }
  unfold same_signin_requests in Hrel. rewrite Hrel.
  unfold remote. by destruct (auth_signInWithPassword (env w) _).
Qed.

Lemma only_calls_signIn (email password : JsVal) (w : World) :
  only_calls w (snd (signIn email password w)).
Proof.
  apply only_calls_frame. intros P Hr Ht Hrec.
  by apply (preserves_signIn P not_storage_kind).
Qed.

Section EnrollmentCompleted.
Context `{Platform}.

(** The steps of an approved enrollment up to the vault write. *)
Lemma enrollDevice_written
    (name : string) (role : UserRole) (image : string) (w w2 w3 : World)
    (creds : Credentials) (reg : option AuthUser * option JsError) :
  gate_accepts (gate_value w) = true ->
  generateCredentials (after_gate image w) = (Ok creds, w2) ->
  signUp (c_email creds) (c_password creds) name role w2 = (Ok reg, w3) ->
  fits BIOMETRIC_VAULT_KEY (vault_text creds) w = true ->
  localStorage w3 = localStorage w
  /\ enrollDevice name role image w
     = bind (signIn (JStr (c_email creds)) (JStr (c_password creds)))
         (fun login =>
            match error login, appUser login with
            | None, Some appUser => ret appUser
            | _, _ => throw (Error "Enrollment Login Failed")
            end)
         (with_item BIOMETRIC_VAULT_KEY (vault_text creds) w3).
Proof.
  intros Hacc Hgen Hreg Hfits.
  assert (Hstore : localStorage w3 = localStorage w).
  { pose proof (only_calls_signUp (c_email creds) (c_password creds) name role w2)
      as (_ & Hs3 & _).
    pose proof (only_calls_generateCredentials (after_gate image w)) as (_ & Hs2 & _).
    rewrite Hreg in Hs3. rewrite Hgen in Hs2. simpl in Hs3, Hs2.
    by rewrite Hs3, Hs2. }
  split; [done|].
  rewrite (enrollDevice_accepted _ _ _ _ Hacc).
  rewrite (bind_ok _ _ _ _ _ Hgen).
  rewrite (bind_ok _ _ _ _ _ Hreg).
  destruct (signUp_ok_inv _ _ _ _ _ _ _ Hreg) as (user & -> & _).
  cbn [snd fst]. cbv zeta.
  assert (Hset : setItem BIOMETRIC_VAULT_KEY (vault_text creds) w3
                 = (Ok tt, with_item BIOMETRIC_VAULT_KEY (vault_text creds) w3)).
  { apply setItem_fits. unfold fits in *. by rewrite Hstore. }
  unfold vault_text in Hset |- *. by rewrite (bind_ok _ _ _ _ _ Hset).
Qed.

(** X3.  An enrollment that the gate approves, whose registration returns a
    user and whose vault write finds room, leaves in the vault the encoding
    of exactly the pair it registered, leaves the device enrolled, and sends
    its one sign-in request with that same pair; this holds whether or not
    the sign-in then succeeds. *)
Theorem enrollDevice_stores_registered_credentials
    (name : string) (role : UserRole) (image : string) (w w2 w3 : World)
    (creds : Credentials) (reg : option AuthUser * option JsError) :
  gate_accepts (gate_value w) = true ->
  generateCredentials (after_gate image w) = (Ok creds, w2) ->
  signUp (c_email creds) (c_password creds) name role w2 = (Ok reg, w3) ->
  fits BIOMETRIC_VAULT_KEY (vault_text creds) w = true ->
  items (localStorage (snd (enrollDevice name role image w))) !! BIOMETRIC_VAULT_KEY
  = Some (vault_text creds)
  /\ enrolled (snd (enrollDevice name role image w)) = true
  /\ registered (trace (snd (enrollDevice name role image w)))
     = (c_email creds, c_password creds) :: registered (trace w)
  /\ signin_requests (trace (snd (enrollDevice name role image w)))
     = (JStr (c_email creds), JStr (c_password creds)) :: signin_requests (trace w).
Proof.
  intros Hacc Hgen Hreg Hfits.
  destruct (enrollDevice_written _ _ _ _ _ _ _ _ Hacc Hgen Hreg Hfits) as (Hstore & Hrun).
  assert (Hvault :
    items (localStorage (snd (enrollDevice name role image w))) !! BIOMETRIC_VAULT_KEY
    = Some (vault_text creds)).
  { rewrite Hrun. rewrite bind_silent_snd by silent_tac.
    destruct (only_calls_signIn (JStr (c_email creds)) (JStr (c_password creds))
                (with_item BIOMETRIC_VAULT_KEY (vault_text creds) w3)) as (_ & Hs & _).
    rewrite Hs. unfold with_item. cbn [localStorage items]. apply lookup_insert_eq. }
  split; [done|]. split.
  { unfold enrolled. rewrite Hvault. apply vault_blob_nonempty. }
  split; [by apply (enrollDevice_registers name role image w w2)|].
  rewrite Hrun. rewrite bind_silent_snd by silent_tac.
  rewrite signIn_requests. f_equal.
  destruct (signUp_ok_inv _ _ _ _ _ _ _ Hreg) as (user & _ & ->).
  unfold with_item, record. cbn [trace signin_requests].
  pose proof (preserves_generateCredentials same_signin_requests not_signIn_kind
                same_signin_requests_refl same_signin_requests_trans
                same_signin_requests_record eq_refl eq_refl (after_gate image w)) as Hdrawn.
  rewrite Hgen in Hdrawn. unfold same_signin_requests in Hdrawn. simpl in Hdrawn.
  by rewrite Hdrawn.
Qed.

(** X4.  When the sign-in that follows the vault write reports an error,
    [enrollDevice] throws "Enrollment Login Failed", and the device is
    enrolled all the same: the vault written before the sign-in stays. *)
Theorem enrollDevice_login_failure_leaves_device_enrolled
    (name : string) (role : UserRole) (image : string) (w w2 w3 w4 : World)
    (creds : Credentials) (reg : option AuthUser * option JsError)
    (login : ProfileResult) (e : JsError) :
  gate_accepts (gate_value w) = true ->
  generateCredentials (after_gate image w) = (Ok creds, w2) ->
  signUp (c_email creds) (c_password creds) name role w2 = (Ok reg, w3) ->
  fits BIOMETRIC_VAULT_KEY (vault_text creds) w = true ->
  signIn (JStr (c_email creds)) (JStr (c_password creds))
    (with_item BIOMETRIC_VAULT_KEY (vault_text creds) w3) = (Ok login, w4) ->
  error login = Some e ->
  enrollDevice name role image w = (Throw (Error "Enrollment Login Failed"), w4)
  /\ enrolled w4 = true
  /\ items (localStorage w4) !! BIOMETRIC_VAULT_KEY = Some (vault_text creds).
Proof.
  intros Hacc Hgen Hreg Hfits Hlogin Herr.
  destruct (enrollDevice_written _ _ _ _ _ _ _ _ Hacc Hgen Hreg Hfits) as (Hstore & Hrun).
  assert (Hvault : items (localStorage w4) !! BIOMETRIC_VAULT_KEY = Some (vault_text creds)).
  { destruct (only_calls_signIn (JStr (c_email creds)) (JStr (c_password creds))
                (with_item BIOMETRIC_VAULT_KEY (vault_text creds) w3)) as (_ & Hs & _).
    rewrite Hlogin in Hs. cbn [snd] in Hs.
    rewrite Hs. unfold with_item. cbn [localStorage items]. apply lookup_insert_eq. }
  split.
  - rewrite Hrun. rewrite (bind_ok _ _ _ _ _ Hlogin). by rewrite Herr.
  - split; [|done]. unfold enrolled. rewrite Hvault. apply vault_blob_nonempty.
Qed.

End EnrollmentCompleted.


Lemma enrollDevice_stores_registered_credentials_witness :
  items (localStorage
           (snd (@enrollDevice reference_platform "J. Perera" ADMIN face
                   (world_of refused_login_env fresh_storage)))) !! BIOMETRIC_VAULT_KEY
  = Some (vault_text perera_credentials)
  /\ signin_requests
       (trace (snd (@enrollDevice reference_platform "J. Perera" ADMIN face
                      (world_of refused_login_env fresh_storage))))
     = [(JStr (c_email perera_credentials), JStr (c_password perera_credentials))].
Proof.
  epose proof (@enrollDevice_stores_registered_credentials reference_platform
                 "J. Perera" ADMIN face (world_of refused_login_env fresh_storage)
                 _ _ perera_credentials _) as Hthm.
  edestruct Hthm as (Hvault & _ & _ & Hsent).
  - vm_compute. reflexivity.
  - vm_compute. reflexivity.
  - vm_compute. reflexivity.
  - vm_compute. reflexivity.
  - split; [exact Hvault|exact Hsent].
Defined.

Lemma enrollDevice_login_failure_leaves_device_enrolled_witness :
  fst (@enrollDevice reference_platform "J. Perera" ADMIN face
         (world_of refused_login_env fresh_storage))
  = Throw (Error "Enrollment Login Failed")
  /\ enrolled (snd (@enrollDevice reference_platform "J. Perera" ADMIN face
                      (world_of refused_login_env fresh_storage))) = true.
Proof.
  epose proof (@enrollDevice_login_failure_leaves_device_enrolled reference_platform
                 "J. Perera" ADMIN face (world_of refused_login_env fresh_storage)
                 _ _ _ perera_credentials _ _ _) as Hthm.
  edestruct Hthm as (Hrun & Hen & _).
  - vm_compute. reflexivity.
  - vm_compute. reflexivity.
  - vm_compute. reflexivity.
  - vm_compute. reflexivity.
  - vm_compute. reflexivity.
  - vm_compute. reflexivity.
  - rewrite Hrun. split; [reflexivity|exact Hen].
Defined.

(** ** The verification after an enrollment *)

Section VerificationAfterEnrollment.
Context `{Platform}.

(** X5.  On a device whose vault holds the text that an enrollment wrote for
    a credential pair, and on a platform that decodes that text, an approved
    [faceLogin] sends exactly one sign-in request, with that pair; it returns
    the user of the sign-in when there is one, and "token corrupted" for any
    other outcome of the sign-in. *)
Theorem faceLogin_signs_in_with_vault_credentials
    (image decoded : string) (creds : Credentials) (w : World) :
  items (localStorage w) !! BIOMETRIC_VAULT_KEY = Some (vault_text creds) ->
  atob (vault_text creds) = Some decoded ->
  JSON_parse decoded = Some (Credentials_object creds) ->
  gate_accepts (gate_value w) = true ->
  faceLogin image w
  = (let (r, w') := signIn (JStr (c_email creds)) (JStr (c_password creds))
                      (after_gate image w) in
     match r with
     | Ok login =>
         match error login, appUser login with
         | None, Some user => (Ok user, w')
         | _, _ => (Throw token_corrupted, w')
         end
     | Throw _ => (Throw token_corrupted, w')
     end)
  /\ signin_requests (trace (snd (faceLogin image w)))
     = (JStr (c_email creds), JStr (c_password creds)) :: signin_requests (trace w).
Proof.
  intros Hvault Hatob Hparse Hacc.
  assert (Hrun : faceLogin image w
    = (let (r, w') := signIn (JStr (c_email creds)) (JStr (c_password creds))
                        (after_gate image w) in
       match r with
       | Ok login =>
           match error login, appUser login with
           | None, Some user => (Ok user, w')
           | _, _ => (Throw token_corrupted, w')
           end
       | Throw _ => (Throw token_corrupted, w')
       end)).
  { rewrite faceLogin_accepted; [|unfold enrolled; rewrite Hvault; apply vault_blob_nonempty|done].
    rewrite Hvault. change (default EmptyString (Some (vault_text creds))) with (vault_text creds).
    unfold try_catch.
    unfold atob_M. rewrite Hatob, bind_ret.
    unfold JSON_parse_M. rewrite Hparse, bind_ret.
    rewrite (bind_ok _ _ _ _ _
               (member_get (Credentials_object creds) "email" (JStr (c_email creds)) _
                  eq_refl)).
    rewrite (bind_ok _ _ _ _ _
               (member_get (Credentials_object creds) "password" (JStr (c_password creds)) _
                  eq_refl)).
    unfold bind.
    destruct (signIn _ _ _) as [[login|e] w']; [|done].
    destruct (error login); [done|]. by destruct (appUser login). }
  split; [exact Hrun|].
  rewrite Hrun.
  pose proof (signIn_requests (JStr (c_email creds)) (JStr (c_password creds))
                (after_gate image w)) as Hsent.
  destruct (signIn _ _ _) as [[login|e] w']; cbn [snd] in Hsent.
  - destruct (error login); [exact Hsent|]. by destruct (appUser login).
  - exact Hsent.
Qed.

End VerificationAfterEnrollment.

Lemma faceLogin_signs_in_with_vault_credentials_witness :
  signin_requests
    (trace (snd (@faceLogin reference_platform face (world_of happy_env enrolled_storage))))
  = [(JStr (c_email perera_credentials), JStr (c_password perera_credentials))].
Proof.
  epose proof (@faceLogin_signs_in_with_vault_credentials reference_platform
                 face _ perera_credentials (world_of happy_env enrolled_storage)) as Hthm.
  edestruct Hthm as (_ & Hsent).
  - reflexivity.
  - vm_compute. reflexivity.
  - vm_compute. reflexivity.
  - vm_compute. reflexivity.
  - exact Hsent.
Defined.

(** ** What the calls leave alone *)

Lemma same_item_refl (k : string) (w : World) : same_item k w w.
Proof. reflexivity. Qed.

Lemma same_item_trans (k : string) (a b c : World) :
  same_item k a b -> same_item k b c -> same_item k a c.
Proof. unfold same_item. congruence. Qed.

Lemma same_item_record (k : string) (ev : Event) (w : World) :
  (fun _ : Kind => true) (kind_of ev) = true -> same_item k w (record ev w).
Proof. reflexivity. Qed.

Lemma same_item_setItem (k k' v : string) :
  k' <> k -> preserves (same_item k) (setItem k' v).
Proof.
  intros Hne w. unfold setItem, same_item. destruct (N.leb _ _); [|done].
  cbn [snd localStorage items]. by apply lookup_insert_ne.
Qed.

Lemma same_item_removeItem (k k' : string) :
  k' <> k -> preserves (same_item k) (removeItem k').
Proof.
  intros Hne w. unfold removeItem, same_item.
  cbn [snd localStorage items]. by apply lookup_delete_ne.
Qed.

Lemma storage_keys_differ : LOCAL_STORAGE_KEY <> BIOMETRIC_VAULT_KEY.
Proof. discriminate. Qed.

Section Separation.
Context `{Platform}.

(** X6.  A call of any function other than [enrollDevice],
    [resetEnrollment], [addEntry] and [deleteEntry] leaves the two keys that
    the application keeps in [localStorage] as they were, whatever the
    remote parties answer: the vault and the cache of the entries hold what
    they held, and the device is enrolled after the call exactly if it was
    before. *)
Theorem reading_calls_keep_the_application_keys (c : ApiCall) (w : World) :
  writes_storage c = false ->
  items (localStorage (perform c w)) !! BIOMETRIC_VAULT_KEY
  = items (localStorage w) !! BIOMETRIC_VAULT_KEY
  /\ items (localStorage (perform c w)) !! LOCAL_STORAGE_KEY
     = items (localStorage w) !! LOCAL_STORAGE_KEY
  /\ enrolled (perform c w) = enrolled w.
Proof.
  intros Hc.
  assert (Hkey : forall k, k = BIOMETRIC_VAULT_KEY \/ k = LOCAL_STORAGE_KEY ->
                           same_item k w (perform c w)).
  { intros k _.
    pose proof (same_item_refl k) as Hr. pose proof (same_item_trans k) as Ht.
    pose proof (same_item_record k) as Hrec.
    destruct c; try discriminate Hc; cbn [perform].
    - by apply (preserves_signUp (same_item k) (fun _ => true)).
    - by apply (preserves_signIn (same_item k) (fun _ => true)).
    - by apply (preserves_remote (same_item k) (fun _ => true)).
    - by apply (preserves_getCurrentUser (same_item k) (fun _ => true)).
    - by apply (preserves_getUserProfile (same_item k) (fun _ => true)).
    - apply Hr.
    - by apply (preserves_faceLogin (same_item k) (fun _ => true)).
    - by apply (preserves_analyzeFaceForAccess (same_item k) (fun _ => true)).
    - by apply (preserves_getEntries (same_item k) (fun _ => true)). }
  pose proof (Hkey BIOMETRIC_VAULT_KEY (or_introl eq_refl)) as Hvault.
  pose proof (Hkey LOCAL_STORAGE_KEY (or_intror eq_refl)) as Hcache.
  unfold same_item in Hvault, Hcache.
  split; [exact Hvault|]. split; [exact Hcache|].
  unfold enrolled. by rewrite Hvault.
Qed.

(** X7.  The two services keep to their own keys of [localStorage]:
    [addEntry] and [deleteEntry] never change what is stored under the vault
    key, and [enrollDevice] and [resetEnrollment] never change what is
    stored under the key of the entries. *)
Theorem services_keep_to_their_keys :
  (forall entry w,
     items (localStorage (snd (addEntry entry w))) !! BIOMETRIC_VAULT_KEY
     = items (localStorage w) !! BIOMETRIC_VAULT_KEY)
  /\ (forall id w,
        items (localStorage (snd (deleteEntry id w))) !! BIOMETRIC_VAULT_KEY
        = items (localStorage w) !! BIOMETRIC_VAULT_KEY)
  /\ (forall name role image w,
        items (localStorage (snd (enrollDevice name role image w))) !! LOCAL_STORAGE_KEY
        = items (localStorage w) !! LOCAL_STORAGE_KEY)
  /\ (forall w,
        items (localStorage (snd (resetEnrollment w))) !! LOCAL_STORAGE_KEY
        = items (localStorage w) !! LOCAL_STORAGE_KEY).
Proof.
  repeat split.
  - intros entry.
    apply (preserves_addEntry (same_item BIOMETRIC_VAULT_KEY) (fun _ => true)
             (same_item_refl _) (same_item_trans _) (same_item_record _)); [done|].
    intros l. apply same_item_setItem, storage_keys_differ.
  - intros id.
    apply (preserves_deleteEntry (same_item BIOMETRIC_VAULT_KEY) (fun _ => true)
             (same_item_refl _) (same_item_trans _) (same_item_record _)); [done|].
    intros l. apply same_item_setItem, storage_keys_differ.
  - intros name role image.
    apply (preserves_enrollDevice (same_item LOCAL_STORAGE_KEY) (fun _ => true)
             (same_item_refl _) (same_item_trans _) (same_item_record _)); try done.
    intros v _. apply same_item_setItem. intros Heq. by apply storage_keys_differ.
  - apply same_item_removeItem. intros Heq. by apply storage_keys_differ.
Qed.

(** Any call but an enrollment leaves a device without a vault without
    one. *)
Lemma perform_keeps_unenrolled (c : ApiCall) (w : World) :
  is_enrollment c = false -> enrolled w = false -> enrolled (perform c w) = false.
Proof.
  intros Hc Hw. unfold enrolled in *.
  pose proof (same_item_refl BIOMETRIC_VAULT_KEY) as Hr.
  pose proof (same_item_trans BIOMETRIC_VAULT_KEY) as Ht.
  pose proof (same_item_record BIOMETRIC_VAULT_KEY) as Hrec.
  assert (Hset : forall l, preserves (same_item BIOMETRIC_VAULT_KEY)
                             (setItem LOCAL_STORAGE_KEY (array_text l)))
    by (intros l; apply same_item_setItem, storage_keys_differ).
  destruct c; try discriminate Hc; cbn [perform].
  - by rewrite (preserves_signUp _ (fun _ => true) Hr Ht Hrec email password name role
                  eq_refl w).
  - by rewrite (preserves_signIn _ (fun _ => true) Hr Ht Hrec email password
                  eq_refl eq_refl eq_refl w).
  - unfold signOut.
    by rewrite (preserves_remote _ (fun _ => true) Hrec EvSignOut auth_signOut eq_refl w).
  - by rewrite (preserves_getCurrentUser _ (fun _ => true) Hr Ht Hrec
                  eq_refl eq_refl eq_refl w).
  - by rewrite (preserves_getUserProfile _ (fun _ => true) Hr Ht Hrec userId
                  authUserFallback eq_refl eq_refl w).
  - done.
  - by rewrite (preserves_faceLogin _ (fun _ => true) Hr Ht Hrec faceImageBase64
                  eq_refl eq_refl eq_refl eq_refl w).
  - unfold resetEnrollment, removeItem. cbn [snd localStorage items].
    by rewrite lookup_delete_eq.
  - by rewrite (preserves_analyzeFaceForAccess _ (fun _ => true) Hr Ht Hrec base64Image
                  eq_refl w).
  - by rewrite (preserves_getEntries _ (fun _ => true) Hr Ht Hrec eq_refl w).
  - by rewrite (preserves_addEntry _ (fun _ => true) Hr Ht Hrec entry eq_refl Hset w).
  - by rewrite (preserves_deleteEntry _ (fun _ => true) Hr Ht Hrec id eq_refl Hset w).
Qed.

(** X8.  After [resetEnrollment] the device stays locked: through any
    sequence of calls that contains no [enrollDevice], [faceLogin] answers
    "Device not enrolled" and sends nothing, not even the image to the
    gate. *)
Theorem reset_locks_until_enrollment (cs : list ApiCall) (image : string) (w : World) :
  forallb (fun c => negb (is_enrollment c)) cs = true ->
  faceLogin image (session cs (snd (resetEnrollment w)))
  = (Throw not_enrolled_error, session cs (snd (resetEnrollment w))).
Proof.
  intros Hcs. apply faceLogin_not_enrolled.
  assert (Hstart : enrolled (snd (resetEnrollment w)) = false).
  { unfold enrolled, resetEnrollment, removeItem. cbn [snd localStorage items].
    by rewrite lookup_delete_eq. }
  revert Hstart Hcs. generalize (snd (resetEnrollment w)).
  induction cs as [|c cs IH]; intros w0 Hw0 Hcs; [done|].
  cbn [forallb] in Hcs. apply andb_prop in Hcs as [Hc Hcs].
  cbn [session fold_left]. apply IH; [|done].
  apply perform_keeps_unenrolled; [|done]. by destruct (is_enrollment c).
Qed.

End Separation.

Lemma reading_calls_keep_the_application_keys_witness :
  items (localStorage (@perform reference_platform (CallFaceLogin face)
                         (world_of happy_env enrolled_storage))) !! BIOMETRIC_VAULT_KEY
  = Some perera_vault
  /\ enrolled (@perform reference_platform (CallFaceLogin face)
                 (world_of happy_env enrolled_storage)) = true.
Proof.
  destruct (@reading_calls_keep_the_application_keys reference_platform (CallFaceLogin face)
              (world_of happy_env enrolled_storage)) as (Hvault & _ & Hen).
  - reflexivity.
  - split; [by rewrite Hvault|by rewrite Hen].
Defined.

Lemma reset_locks_until_enrollment_witness :
  @faceLogin reference_platform face
    (@session reference_platform [CallSignIn (JStr "a@b") (JStr "pw"); CallGetEntries]
       (snd (resetEnrollment (world_of happy_env enrolled_storage))))
  = (Throw not_enrolled_error,
     @session reference_platform [CallSignIn (JStr "a@b") (JStr "pw"); CallGetEntries]
       (snd (resetEnrollment (world_of happy_env enrolled_storage)))).
Proof.
  apply (@reset_locks_until_enrollment reference_platform
           [CallSignIn (JStr "a@b") (JStr "pw"); CallGetEntries] face
           (world_of happy_env enrolled_storage)).
  reflexivity.
Defined.

(** ** Deleting an entry *)

Section Deletion.
Context `{Platform}.

(** The remote delete is one request, and none of its outcomes is raised. *)
Lemma delete_remote_run (id : string) (w : World) :
  try_catch (let* _ := remote (EvEntriesDelete id) entries_delete in ret tt)
            (fun e => ret tt) w
  = (Ok tt, record (EvEntriesDelete id) w).
Proof.
  unfold try_catch, bind, remote. by destruct (entries_delete (env w) _).
Qed.

Lemma filter_by_id_run (id : string) (l : list JsVal) (w : World) :
  forallb readable l = true ->
  filterM (fun e => let* e_id := member e "id" in ret (negb (js_is_string e_id id))) l w
  = (Ok (List.filter (other_id id) l), w).
Proof.
  induction l as [|e l IH]; [done|].
  cbn [forallb]. intros [He Hl]%andb_prop.
  cbn [filterM List.filter]. unfold readable in He.
  destruct (get_prop e "id") as [x|] eqn:Hid; [|discriminate].
  assert (Hkeep : (let* e_id := member e "id" in ret (negb (js_is_string e_id id))) w
                  = (Ok (negb (js_is_string x id)), w))
    by (by rewrite (bind_ok _ _ _ _ _ (member_get _ _ _ _ Hid))).
  rewrite (bind_ok _ _ _ _ _ Hkeep). rewrite (bind_ok _ _ _ _ _ (IH Hl)).
  unfold ret, other_id, field. by rewrite Hid.
Qed.

(** [deleteEntry] on a cache that holds a list of readable entries. *)
Lemma deleteEntry_run (id saved : string) (l : list JsVal) (w : World) :
  items (localStorage w) !! LOCAL_STORAGE_KEY = Some saved ->
  nonempty saved = true ->
  JSON_parse saved = Some (JArr l) ->
  forallb readable l = true ->
  fits LOCAL_STORAGE_KEY (array_text (List.filter (other_id id) l)) w = true ->
  deleteEntry id w
  = (Ok tt, with_item LOCAL_STORAGE_KEY (array_text (List.filter (other_id id) l))
              (record (EvEntriesDelete id) w)).
Proof.
  intros Hsaved Hne Hparse Hread Hfits.
  unfold deleteEntry.
  rewrite (bind_ok _ _ _ _ _ (delete_remote_run id w)).
  unfold bind at 1, getItem at 1. cbn [record localStorage].
  rewrite Hsaved. cbn [present]. rewrite Hne.
  change (default EmptyString (Some saved)) with saved.
  unfold JSON_parse_M. rewrite Hparse, bind_ret.
  cbn [as_array]. rewrite bind_ret.
  rewrite (bind_ok _ _ _ _ _ (filter_by_id_run id l _ Hread)).
  fold (array_text (List.filter (other_id id) l)).
  by apply setItem_fits.
Qed.

(** X9.  [deleteEntry] on a cache that holds a list of readable entries:
    whatever the remote delete answers, nothing is raised, and the cache
    becomes the text of the list without the entries whose [id] is the given
    string, the others in their order. *)
Theorem deleteEntry_filters_cache (id saved : string) (l : list JsVal) (w : World) :
  items (localStorage w) !! LOCAL_STORAGE_KEY = Some saved ->
  nonempty saved = true ->
  JSON_parse saved = Some (JArr l) ->
  forallb readable l = true ->
  fits LOCAL_STORAGE_KEY (array_text (List.filter (other_id id) l)) w = true ->
  fst (deleteEntry id w) = Ok tt
  /\ items (localStorage (snd (deleteEntry id w))) !! LOCAL_STORAGE_KEY
     = Some (array_text (List.filter (other_id id) l))
  /\ forallb (other_id id) (List.filter (other_id id) l) = true.
Proof.
  intros Hsaved Hne Hparse Hread Hfits.
  rewrite (deleteEntry_run id saved l w Hsaved Hne Hparse Hread Hfits).
  cbn [fst snd]. split; [done|]. split.
  - unfold with_item. cbn [localStorage items]. apply lookup_insert_eq.
  - apply forallb_forall. intros e He. by apply filter_In in He as [_ He].
Qed.

(** X10.  [deleteEntry] without a cache (none stored, or the empty text):
    the remote delete is sent, its outcome is dropped whatever it is, and
    [localStorage] stays as it was. *)
Theorem deleteEntry_without_cache (id : string) (w : World) :
  present (items (localStorage w) !! LOCAL_STORAGE_KEY) = false ->
  deleteEntry id w = (Ok tt, record (EvEntriesDelete id) w).
Proof.
  intros Habsent. unfold deleteEntry.
  rewrite (bind_ok _ _ _ _ _ (delete_remote_run id w)).
  unfold bind, getItem. cbn [record localStorage]. by rewrite Habsent.
Qed.

End Deletion.

Lemma deleteEntry_filters_cache_witness :
  items (localStorage (snd (@deleteEntry reference_platform "e-1"
                              (world_of dead_env cached_storage)))) !! LOCAL_STORAGE_KEY
  = Some (array_text [JObj [("id", JStr "e-2"); ("name", JStr "Victoria")]]).
Proof.
  epose proof (@deleteEntry_filters_cache reference_platform "e-1" _ two_entries
                 (world_of dead_env cached_storage)) as Hthm.
  edestruct Hthm as (_ & Hcache & _).
  - reflexivity.
  - vm_compute. reflexivity.
  - vm_compute. reflexivity.
  - vm_compute. reflexivity.
  - vm_compute. reflexivity.
  - exact Hcache.
Defined.

Lemma deleteEntry_without_cache_witness :
  @deleteEntry reference_platform "e-1" (world_of dead_env fresh_storage)
  = (Ok tt, record (EvEntriesDelete "e-1") (world_of dead_env fresh_storage)).
Proof.
  apply (@deleteEntry_without_cache reference_platform "e-1" (world_of dead_env fresh_storage)).
  reflexivity.
Defined.


(* ===================================================================== *)
(** * The geofence and the entry form *)
(* ===================================================================== *)

Lemma starts_with_app (a b hay : list N) :
  starts_with (a ++ b) hay = true -> includes_units b hay = true.
Proof.
  revert hay. induction a as [|x a IH]; intros hay.
  - cbn [app]. destruct hay as [|h r]; [done|].
    cbn [includes_units]. by intros ->.
  - destruct hay as [|h r]; [discriminate|].
    cbn [app starts_with]. intros [_ Hrest]%andb_prop.
    cbn [includes_units]. rewrite (IH r Hrest). apply orb_true_r.
Qed.

Lemma includes_units_app (a b hay : list N) :
  includes_units (a ++ b) hay = true -> includes_units b hay = true.
Proof.
  induction hay as [|h r IH].
  - cbn [includes_units]. destruct a as [|x a]; [done|discriminate].
  - change (includes_units (a ++ b) (h :: r))
      with (starts_with (a ++ b) (h :: r) || includes_units (a ++ b) r).
    intros [Hhere|Hlater]%orb_prop.
    + by apply (starts_with_app a).
    + change (includes_units b (h :: r))
        with (starts_with b (h :: r) || includes_units b r).
      rewrite (IH Hlater). apply orb_true_r.
Qed.

(** X11.  A reply whose verdict line says INVALID passes the geofence: the
    test is whether the upper-cased verdict contains VALID, and INVALID
    does.  The location counts as a valid reservoir, and the form opens the
    measurement fields on it. *)
Theorem verdict_INVALID_passes_the_geofence
    (response : GroundedResponse) (line : string) (c : Coordinates) (st : FormState) :
  regex_group (code_units "VERDICT:")
    (text_or (g_response response) "Location analysis unavailable.") = Some line ->
  includes_units (code_units "INVALID") (toUpperCase (trim line)) = true ->
  isValidReservoir (verifyLocationAndFetchDetails (Resolves response)) = true
  /\ locationVerified (handleGetLocation (Position c) (Resolves response) st) = true
  /\ formShown (handleGetLocation (Position c) (Resolves response) st) = true.
Proof.
  intros Hline Hinvalid.
  assert (Hvalid : isValidReservoir (verifyLocationAndFetchDetails (Resolves response)) = true).
  { unfold verifyLocationAndFetchDetails. cbv zeta. cbn [isValidReservoir].
    rewrite Hline. by apply (includes_units_app (code_units "IN")). }
  split; [done|].
  unfold formShown, handleGetLocation. cbv zeta.
  cbn [coords isVerifying locationVerified option_present negb andb].
  by rewrite Hvalid.
Qed.

Lemma verdict_INVALID_passes_the_geofence_witness :
  isValidReservoir (verifyLocationAndFetchDetails (Resolves invalid_verdict)) = true
  /\ locationVerified (handleGetLocation (Position colombo) (Resolves invalid_verdict)
                         empty_form) = true
  /\ formShown (handleGetLocation (Position colombo) (Resolves invalid_verdict) empty_form)
     = true.
Proof.
  apply (verdict_INVALID_passes_the_geofence invalid_verdict "INVALID" colombo empty_form).
  - vm_compute. reflexivity.
  - vm_compute. reflexivity.
Defined.

(** X12.  A location check whose call fails, or whose reply has no verdict
    line, leaves the location unverified and the measurement fields closed;
    after a failed call the form names the location "Manual Location
    (Error)" and has no map link. *)
Theorem failed_check_keeps_the_form_closed
    (reply : Reply GroundedResponse) (c : Coordinates) (st : FormState) :
  gives_no_verdict reply = true ->
  locationVerified (handleGetLocation (Position c) reply st) = false
  /\ formShown (handleGetLocation (Position c) reply st) = false
  /\ (forall e, reply = Rejects e ->
        f_locationName (handleGetLocation (Position c) reply st) = "Manual Location (Error)"
        /\ f_mapLink (handleGetLocation (Position c) reply st) = None).
Proof.
  intros Hno.
  assert (Hinvalid : isValidReservoir (verifyLocationAndFetchDetails reply) = false).
  { destruct reply as [response|e]; [|done].
    unfold gives_no_verdict in Hno.
    unfold verifyLocationAndFetchDetails. cbv zeta. cbn [isValidReservoir].
    by destruct (regex_group (code_units "VERDICT:") _). }
  unfold formShown, handleGetLocation. cbv zeta.
  cbn [coords isVerifying locationVerified option_present negb andb f_locationName f_mapLink].
  rewrite Hinvalid. repeat split; by subst reply.
Qed.

Lemma failed_check_keeps_the_form_closed_witness :
  formShown (handleGetLocation (Position colombo) (Rejects offline) verified_form) = false.
Proof.
  apply (failed_check_keeps_the_form_closed (Rejects offline) colombo verified_form).
  reflexivity.
Defined.

Lemma find_map_link_origin (chunks : list GroundingChunk) (link : string) :
  find_map_link chunks = link ->
  nonempty link = true ->
  exists chunk,
    In chunk chunks
    /\ (ref_uri (maps chunk) = Some link
        \/ (ref_uri (web chunk) = Some link /\ includes link "google.com/maps" = true)).
Proof.
  revert link. induction chunks as [|chunk rest IH]; intros link; cbn [find_map_link].
  - by intros <-.
  - destruct (present (ref_uri (maps chunk))) eqn:Hmaps.
    + intros <- _. exists chunk. split; [by left|]. left.
      by destruct (ref_uri (maps chunk)).
    + destruct (present (ref_uri (web chunk))) eqn:Hweb; cbn [andb].
      * destruct (includes _ _) eqn:Hinc.
        -- intros <- _. exists chunk. split; [by left|]. right.
           destruct (ref_uri (web chunk)); [|discriminate]. by split.
        -- intros Hrest Hne. destruct (IH link Hrest Hne) as (x & Hin & Hx).
           exists x. split; [by right|done].
      * intros Hrest Hne. destruct (IH link Hrest Hne) as (x & Hin & Hx).
        exists x. split; [by right|done].
Qed.

(** X13.  A map link that [verifyLocationAndFetchDetails] returns is never
    taken from the text of the reply: it is the maps address of one of the
    grounding chunks, or a web address of one of them that contains
    "google.com/maps". *)
Theorem mapLink_comes_from_a_chunk (reply : Reply GroundedResponse) (link : string) :
  mapLink (verifyLocationAndFetchDetails reply) = Some link ->
  nonempty link = true ->
  exists response chunks chunk,
    reply = Resolves response
    /\ g_groundingChunks response = Some chunks
    /\ In chunk chunks
    /\ (ref_uri (maps chunk) = Some link
        \/ (ref_uri (web chunk) = Some link /\ includes link "google.com/maps" = true)).
Proof.
  destruct reply as [response|e]; [|discriminate].
  unfold verifyLocationAndFetchDetails. cbv zeta. cbn [mapLink].
  destruct (g_groundingChunks response) as [chunks|] eqn:Hchunks.
  - intros [= Hlink] Hne.
    destruct (find_map_link_origin chunks link Hlink Hne) as (chunk & Hin & Hfrom).
    by exists response, chunks, chunk.
  - intros [= <-]. discriminate.
Qed.

Lemma mapLink_comes_from_a_chunk_witness :
  exists response chunks chunk,
    Resolves valid_verdict = Resolves response
    /\ g_groundingChunks response = Some chunks
    /\ In chunk chunks
    /\ (ref_uri (maps chunk) = Some kandalama_link
        \/ (ref_uri (web chunk) = Some kandalama_link
            /\ includes kandalama_link "google.com/maps" = true)).
Proof.
  apply (mapLink_comes_from_a_chunk (Resolves valid_verdict) kandalama_link).
  - vm_compute. reflexivity.
  - reflexivity.
Defined.

(** The risk analysis is one request; a failed one gives the fixed text. *)
Lemma generateRiskAnalysis_run (name : string) (level capacity : Z) (w : World) :
  generateRiskAnalysis name level capacity w
  = (Ok (risk_text (gate_reply w)),
     record (EvGenerateContent "gemini-2.5-flash" (risk_prompt name level capacity)) w).
Proof.
  unfold generateRiskAnalysis, try_catch, bind, remote, gate_reply. cbn [kind_of].
  by destruct (ai_generateContent (env w) _).
Qed.

(** X14.  [handleSubmit] on a form with a position and a location name
    never raises, whatever the model answers: it hands one entry to
    [onSubmit] and closes the form.  The entry carries the name, the
    position, the map link and the verification flag of the last location
    check, the analysis of the model or "Analysis unavailable." when the
    call fails; its id and its timestamp are two successive readings of the
    clock.  An entry made while the measurement fields are open is marked
    verified. *)
Theorem handleSubmit_builds_the_entry
    (user_name : string) (st : FormState) (c : Coordinates) (w : World) :
  coords st = Some c ->
  nonempty (f_locationName st) = true ->
  exists entry st' w',
    handleSubmit user_name st w = (Ok st', w')
    /\ submitted st' = entry :: submitted st
    /\ e_name entry = f_locationName st
    /\ coordinates entry = c
    /\ groundingUrl entry = f_mapLink st
    /\ isVerified entry = locationVerified st
    /\ (formShown st = true -> isVerified entry = true)
    /\ geminiAnalysis entry = risk_text (gate_reply w)
    /\ e_id entry = pretty (clock_at w 0)
    /\ timestamp entry = clock_at w 1
    /\ coords st' = None
    /\ formShown st' = false.
Proof.
  intros Hc Hname. unfold handleSubmit. rewrite Hc, Hname. cbn [negb].
  rewrite (bind_ok _ _ _ _ _ (generateRiskAnalysis_run _ _ _ w)).
  unfold bind, sample, sleep, ret. cbn [record env trace kind_of calls kind_eqb].
  eexists _, _, _. split; [reflexivity|].
  cbn [submitted e_name coordinates groundingUrl isVerified geminiAnalysis e_id timestamp
       coords].
  unfold clock_at. rewrite Nat.add_0_r, Nat.add_1_r.
  repeat split.
  unfold formShown. by intros [_ ?]%andb_prop.
Qed.

Lemma handleSubmit_builds_the_entry_witness :
  exists entry st' w',
    handleSubmit "J. Perera" verified_form (world_of dead_env fresh_storage) = (Ok st', w')
    /\ submitted st' = [entry]
    /\ isVerified entry = true
    /\ geminiAnalysis entry = Some "Analysis unavailable.".
Proof.
  destruct (handleSubmit_builds_the_entry "J. Perera" verified_form colombo
              (world_of dead_env fresh_storage) eq_refl eq_refl)
    as (entry & st' & w' & Hrun & Hsub & _ & _ & _ & _ & Hver & Han & _).
  exists entry, st', w'. split; [exact Hrun|]. split; [exact Hsub|].
  split; [apply Hver; reflexivity|exact Han].
Defined.

(** [handleSubmit] without a position or without a location name does
    nothing at all: no request, no entry, the form as it was. *)
Lemma handleSubmit_guard (user_name : string) (st : FormState) (w : World) :
  option_present (coords st) && nonempty (f_locationName st) = false ->
  handleSubmit user_name st w = (Ok st, w).
Proof.
  unfold handleSubmit. destruct (coords st) as [c|]; [|done].
  cbn [option_present andb]. by intros ->.
Qed.

(* ===================================================================== *)
(** * The dashboard *)
(* ===================================================================== *)

Lemma same_select_reply_refl (w : World) : same_select_reply w w.
Proof. reflexivity. Qed.

Section DashboardFlow.
Context `{Platform}.

Lemma addEntry_written (entry : ReservoirEntry) (rest : list JsVal) (w : World) :
  cached_entries w = Some rest ->
  fits LOCAL_STORAGE_KEY (cache_text entry rest) w = true ->
  addEntry entry w
  = (Ok tt, with_item LOCAL_STORAGE_KEY (cache_text entry rest)
              (record (EvEntriesInsert (JArr [dbPayload entry])) w)).
Proof.
  intros Hcache Hfits. rewrite addEntry_run, mirror_local_run.
  change (cached_entries (record _ w)) with (cached_entries w). rewrite Hcache.
  change (fits LOCAL_STORAGE_KEY (cache_text entry rest) (record _ w))
    with (fits LOCAL_STORAGE_KEY (cache_text entry rest) w).
  rewrite Hfits. by rewrite setItem_fits.
Qed.

(** [addEntry] does not move the remote read on. *)
Lemma addEntry_select_reply (entry : ReservoirEntry) (w : World) :
  select_reply (snd (addEntry entry w)) = select_reply w.
Proof.
  rewrite addEntry_run. cbn [snd]. rewrite mirror_local_run.
  destruct (cached_entries _) as [rest|]; [|done].
  destruct (fits _ _ _) eqn:Hfits; [|done].
  by rewrite (setItem_fits _ _ _ Hfits).
Qed.

(** When the mirror does not write, [addEntry] is its one request. *)
Lemma addEntry_unwritten (entry : ReservoirEntry) (w : World) :
  (cached_entries w = None
   \/ exists rest, cached_entries w = Some rest
                   /\ fits LOCAL_STORAGE_KEY (cache_text entry rest) w = false) ->
  addEntry entry w = (Ok tt, record (EvEntriesInsert (JArr [dbPayload entry])) w).
Proof.
  intros Hno. rewrite addEntry_run, mirror_local_run.
  change (cached_entries (record _ w)) with (cached_entries w).
  destruct Hno as [->|(rest & -> & Hfits)]; [done|].
  change (fits LOCAL_STORAGE_KEY (cache_text entry rest) (record _ w))
    with (fits LOCAL_STORAGE_KEY (cache_text entry rest) w).
  by rewrite Hfits.
Qed.

(** [loadData] after a failed read shows what the cache reads as. *)
Lemma loadData_offline (st : DashboardState) (w : World) (e : JsError) :
  read_error (select_reply w) = Some e ->
  loadData st w
  = match local_cache w with
    | Some d =>
        (Ok (mkDashboardState d LOCAL (activeTab st) false
               (option_is (code e) MISSING_TABLE_CODE)),
         record EvEntriesSelect w)
    | None =>
        (Throw (Error "SyntaxError: Unexpected token in JSON"), record EvEntriesSelect w)
    end.
Proof.
  intros Herr. unfold loadData. unfold bind.
  rewrite (getEntries_failed_read e w Herr). by destruct (local_cache w).
Qed.

(** X15.  [handleNewEntry] while the remote read fails, by what the mirror
    into the cache does.  When the cache reads as a list and the storage has
    room for the new text, the entry goes to the front of the cache and the
    dashboard shows what the new text reads as, from the source LOCAL, on
    the overview tab, the missing-table flag telling whether the read
    failed with PGRST205.  When the storage has no room, nothing is stored
    and the dashboard shows the cache as it was, without the entry.  When
    the cache text does not parse, nothing is stored and [handleNewEntry]
    raises the error of the parse. *)
Theorem handleNewEntry_offline_shows_the_cache
    (entry : ReservoirEntry) (st : DashboardState) (w : World) (e : JsError) :
  read_error (select_reply w) = Some e ->
  (forall rest d,
     cached_entries w = Some rest ->
     fits LOCAL_STORAGE_KEY (cache_text entry rest) w = true ->
     JSON_parse (cache_text entry rest) = Some d ->
     exists w',
       handleNewEntry entry st w
       = (Ok (mkDashboardState d LOCAL overview false
                (option_is (code e) MISSING_TABLE_CODE)), w')
       /\ items (localStorage w') !! LOCAL_STORAGE_KEY = Some (cache_text entry rest))
  /\ (forall rest d,
        cached_entries w = Some rest ->
        fits LOCAL_STORAGE_KEY (cache_text entry rest) w = false ->
        local_cache w = Some d ->
        exists w',
          handleNewEntry entry st w
          = (Ok (mkDashboardState d LOCAL overview false
                   (option_is (code e) MISSING_TABLE_CODE)), w')
          /\ localStorage w' = localStorage w)
  /\ (local_cache w = None ->
      exists w',
        handleNewEntry entry st w
        = (Throw (Error "SyntaxError: Unexpected token in JSON"), w')
        /\ localStorage w' = localStorage w).
Proof.
  intros Herr. split; [|split].
  - intros rest d Hcache Hfits Hparse.
    unfold handleNewEntry.
    rewrite (bind_ok _ _ _ _ _ (addEntry_written _ _ _ Hcache Hfits)).
    set (w1 := with_item LOCAL_STORAGE_KEY (cache_text entry rest)
                 (record (EvEntriesInsert (JArr [dbPayload entry])) w)).
    assert (Hstored : items (localStorage w1) !! LOCAL_STORAGE_KEY
                      = Some (cache_text entry rest)).
    { unfold w1, with_item. cbn [localStorage items]. apply lookup_insert_eq. }
    assert (Hread : local_cache w1 = Some d).
    { unfold local_cache. rewrite Hstored. unfold cache_text in Hparse |- *.
      by rewrite array_text_nonempty, Hparse. }
    pose proof (loadData_offline st w1 e Herr) as Hload. rewrite Hread in Hload.
    rewrite (bind_ok _ _ _ _ _ Hload).
    exists (record EvEntriesSelect w1). split; [reflexivity|exact Hstored].
  - intros rest d Hcache Hfull Hread.
    unfold handleNewEntry.
    rewrite (bind_ok _ _ _ _ _
               (addEntry_unwritten entry w (or_intror (ex_intro _ rest (conj Hcache Hfull))))).
    set (w1 := record (EvEntriesInsert (JArr [dbPayload entry])) w).
    pose proof (loadData_offline st w1 e Herr) as Hload.
    change (local_cache w1) with (local_cache w) in Hload. rewrite Hread in Hload.
    rewrite (bind_ok _ _ _ _ _ Hload).
    by exists (record EvEntriesSelect w1).
  - intros Hbad.
    assert (Hnone : cached_entries w = None) by (unfold cached_entries; by rewrite Hbad).
    unfold handleNewEntry.
    rewrite (bind_ok _ _ _ _ _ (addEntry_unwritten entry w (or_introl Hnone))).
    set (w1 := record (EvEntriesInsert (JArr [dbPayload entry])) w).
    pose proof (loadData_offline st w1 e Herr) as Hload.
    change (local_cache w1) with (local_cache w) in Hload. rewrite Hbad in Hload.
    rewrite (bind_throw _ _ _ _ _ Hload).
    by exists (record EvEntriesSelect w1).
Qed.

(** A row that can be read is mapped field by field. *)
Lemma mapRow_run (row : JsVal) (w : World) :
  row <> JUndefined -> row <> JNull -> mapRow row w = (Ok (mapped_entry row), w).
Proof.
  intros Hu Hn. unfold mapRow.
  repeat (rewrite (bind_ok _ _ _ _ _ (member_ok _ _ _ Hu Hn))).
  reflexivity.
Qed.

Lemma mapM_mapRow_run (rows : list JsVal) (w : World) :
  Forall (fun row => row <> JUndefined /\ row <> JNull) rows ->
  mapM mapRow rows w = (Ok (List.map mapped_entry rows), w).
Proof.
  induction 1 as [|row rows [Hu Hn] _ IH]; [done|].
  cbn [mapM List.map].
  by rewrite (bind_ok _ _ _ _ _ (mapRow_run row w Hu Hn)), (bind_ok _ _ _ _ _ IH).
Qed.

Lemma getEntries_mapped_rows (q : QueryResult) (rows : list JsVal) (w : World) :
  select_reply w = Resolves q ->
  q_error q = None ->
  js_or (q_data q) (JArr []) = JArr rows ->
  Forall (fun row => row <> JUndefined /\ row <> JNull) rows ->
  getEntries w
  = (Ok (mkEntriesResult (JArr (List.map mapped_entry rows)) MYSQL false),
     record EvEntriesSelect w).
Proof.
  unfold select_reply. intros Hreply Herr Hdata Hrows.
  unfold getEntries, try_catch. unfold bind at 1, remote at 1. cbn [kind_of].
  rewrite Hreply, Herr, Hdata. unfold as_array. rewrite bind_ret.
  by rewrite (bind_ok _ _ _ _ _ (mapM_mapRow_run rows _ Hrows)).
Qed.

(** X16.  [handleNewEntry] while the remote read succeeds: the dashboard
    shows exactly the rows that the read returned, each mapped field by
    field and in their order, from the source MYSQL, on the overview tab.
    What it shows does not depend on the entry handed in nor on what became
    of the insert and of the mirror: when no row of the read has the id of
    the entry, no entry on the screen has it. *)
Theorem handleNewEntry_shows_the_remote_rows
    (entry : ReservoirEntry) (st : DashboardState) (w : World)
    (q : QueryResult) (rows : list JsVal) :
  select_reply w = Resolves q ->
  q_error q = None ->
  js_or (q_data q) (JArr []) = JArr rows ->
  Forall (fun row => row <> JUndefined /\ row <> JNull) rows ->
  handleNewEntry entry st w
  = (Ok (mkDashboardState (JArr (List.map mapped_entry rows)) MYSQL overview false false),
     record EvEntriesSelect (snd (addEntry entry w)))
  /\ (forallb (other_id (e_id entry)) rows = true ->
      forallb (other_id (e_id entry)) (List.map mapped_entry rows) = true).
Proof.
  intros Hreply Herr Hdata Hrows. split.
  - pose proof (addEntry_select_reply entry w) as Hsel.
    pose proof (addEntry_run entry w) as Hadd.
    rewrite Hadd. cbn [snd].
    set (w1 := snd (mirror_local entry
                      (record (EvEntriesInsert (JArr [dbPayload entry])) w))) in *.
    rewrite Hadd in Hsel. cbn [snd] in Hsel. fold w1 in Hsel. rewrite Hreply in Hsel.
    pose proof (getEntries_mapped_rows q rows w1 Hsel Herr Hdata Hrows) as Hget.
    unfold handleNewEntry. rewrite (bind_ok _ _ _ _ _ Hadd).
    assert (Hload : loadData st w1
                    = (Ok (mkDashboardState (JArr (List.map mapped_entry rows)) MYSQL
                             (activeTab st) false false),
                       record EvEntriesSelect w1)).
    { unfold loadData. by rewrite (bind_ok _ _ _ _ _ Hget). }
    by rewrite (bind_ok _ _ _ _ _ Hload).
  - clear. induction rows as [|row rows IH]; [done|].
    cbn [forallb List.map]. intros [Hrow Hrest]%andb_prop.
    rewrite (IH Hrest), andb_true_r. exact Hrow.
Qed.

(** X17.  [handleDeleteEntry], confirmed, while the remote read fails: the
    dashboard then shows what the cache text without the deleted entries
    reads as, from the source LOCAL, on the tab it was on; declined, it
    sends nothing and changes nothing. *)
Theorem handleDeleteEntry_offline_shows_the_cache
    (id saved : string) (l : list JsVal) (st : DashboardState) (w : World)
    (e : JsError) (d : JsVal) :
  items (localStorage w) !! LOCAL_STORAGE_KEY = Some saved ->
  nonempty saved = true ->
  JSON_parse saved = Some (JArr l) ->
  forallb readable l = true ->
  fits LOCAL_STORAGE_KEY (array_text (List.filter (other_id id) l)) w = true ->
  read_error (select_reply w) = Some e ->
  JSON_parse (array_text (List.filter (other_id id) l)) = Some d ->
  (exists w',
     handleDeleteEntry true id st w
     = (Ok (mkDashboardState d LOCAL (activeTab st) false
              (option_is (code e) MISSING_TABLE_CODE)), w')
     /\ items (localStorage w') !! LOCAL_STORAGE_KEY
        = Some (array_text (List.filter (other_id id) l)))
  /\ handleDeleteEntry false id st w = (Ok st, w).
Proof.
  intros Hsaved Hne Hparse Hread Hfits Herr Hback. split; [|reflexivity].
  unfold handleDeleteEntry.
  rewrite (bind_ok _ _ _ _ _ (deleteEntry_run id saved l w Hsaved Hne Hparse Hread Hfits)).
  set (w1 := with_item LOCAL_STORAGE_KEY (array_text (List.filter (other_id id) l))
               (record (EvEntriesDelete id) w)).
  assert (Hstored : items (localStorage w1) !! LOCAL_STORAGE_KEY
                    = Some (array_text (List.filter (other_id id) l))).
  { unfold w1, with_item. cbn [localStorage items]. apply lookup_insert_eq. }
  assert (Hget : getEntries w1
                 = (Ok (mkEntriesResult d LOCAL (option_is (code e) MISSING_TABLE_CODE)),
                    record EvEntriesSelect w1)).
  { rewrite (getEntries_failed_read e w1 Herr).
    unfold local_cache. rewrite Hstored.
    by rewrite array_text_nonempty, Hback. }
  exists (record EvEntriesSelect w1). split; [|exact Hstored].
  unfold loadData. by rewrite (bind_ok _ _ _ _ _ Hget).
Qed.

End DashboardFlow.

Lemma handleDeleteEntry_offline_shows_the_cache_witness :
  exists w',
    @handleDeleteEntry reference_platform true "e-1" empty_dashboard
      (world_of dead_env cached_storage)
    = (Ok (mkDashboardState (JArr [JObj [("id", JStr "e-2"); ("name", JStr "Victoria")]])
             LOCAL entry_tab false false), w').
Proof.
  epose proof (@handleDeleteEntry_offline_shows_the_cache reference_platform "e-1" _
                 two_entries empty_dashboard (world_of dead_env cached_storage) offline _)
    as Hthm.
  edestruct Hthm as ((w' & Hrun & _) & _).
  - reflexivity.
  - vm_compute. reflexivity.
  - vm_compute. reflexivity.
  - vm_compute. reflexivity.
  - vm_compute. reflexivity.
  - reflexivity.
  - vm_compute. reflexivity.
  - exists w'. exact Hrun.
Defined.

Lemma handleNewEntry_offline_shows_the_cache_witness :
  (exists d w',
     @handleNewEntry reference_platform kandalama empty_dashboard
       (world_of dead_env fresh_storage)
     = (Ok (mkDashboardState (JArr [d]) LOCAL overview false false), w')
     /\ field d "name" = JStr "Kandalama")
  /\ (exists w',
        @handleNewEntry reference_platform kandalama empty_dashboard
          (world_of dead_env full_storage)
        = (Ok (mkDashboardState (JArr []) LOCAL overview false false), w')
        /\ localStorage w' = full_storage).
Proof.
  split.
  - destruct (@handleNewEntry_offline_shows_the_cache reference_platform kandalama
                empty_dashboard (world_of dead_env fresh_storage) offline eq_refl)
      as (Hwritten & _).
    edestruct Hwritten as (w' & Hrun & _).
    + reflexivity.
    + vm_compute. reflexivity.
    + vm_compute. reflexivity.
    + eexists _, w'. split; [exact Hrun|reflexivity].
  - destruct (@handleNewEntry_offline_shows_the_cache reference_platform kandalama
                empty_dashboard (world_of dead_env full_storage) offline eq_refl)
      as (_ & Hfull & _).
    edestruct Hfull as (w' & Hrun & Hstore).
    + vm_compute. reflexivity.
    + vm_compute. reflexivity.
    + vm_compute. reflexivity.
    + exists w'. split; [exact Hrun|exact Hstore].
Defined.

Lemma handleNewEntry_shows_the_remote_rows_witness :
  fst (@handleNewEntry reference_platform kandalama empty_dashboard
         (world_of other_row_env fresh_storage))
  = Ok (mkDashboardState (JArr [entry_object victoria]) MYSQL overview false false)
  /\ forallb (other_id "e-1") [mapped_entry (dbPayload victoria)] = true.
Proof.
  destruct (@handleNewEntry_shows_the_remote_rows reference_platform kandalama
              empty_dashboard (world_of other_row_env fresh_storage)
              (mkQueryResult (JArr [dbPayload victoria]) None) [dbPayload victoria])
    as (Hrun & Hother).
  - reflexivity.
  - reflexivity.
  - reflexivity.
  - constructor; [split; discriminate|constructor].
  - split; [by rewrite Hrun|apply Hother; reflexivity].
Defined.

(* ===================================================================== *)
(** * The component after a verification, a reset and an enrollment *)
(* ===================================================================== *)

Section AfterVerification.
Context `{Platform}.

Lemma step_scan_stopped (ev : UiEvent) (s : Session) :
  scan_stopped s ->
  scan_stopped (step ev s)
  /\ same_gate_calls (world s) (world (step ev s))
  /\ loginSuccesses (ui (step ev s)) = loginSuccesses (ui s).
Proof.
  intros [Hscan Hin]. destruct ev as [frame| |m|confirmed|]; cbn [step].
  - by rewrite (scanTick_skipped frame s Hscan).
  - by rewrite Hin.
  - unfold startScanningLoop, scan_stopped.
    by destruct (scanIntervalRef (ui s)).
  - unfold handleReset, scan_stopped. by destruct confirmed.
  - done.
Qed.

Lemma run_scan_stopped (evs : list UiEvent) (s : Session) :
  scan_stopped s ->
  scan_stopped (run evs s)
  /\ same_gate_calls (world s) (world (run evs s))
  /\ loginSuccesses (ui (run evs s)) = loginSuccesses (ui s).
Proof.
  revert s. induction evs as [|ev evs IH]; intros s Hs; [done|].
  destruct (step_scan_stopped ev s Hs) as (Hs1 & Hg1 & Hl1).
  destruct (IH (step ev s) Hs1) as (Hs2 & Hg2 & Hl2).
  change (run (ev :: evs) s) with (run evs (step ev s)).
  split; [done|]. unfold same_gate_calls in *. split; congruence.
Qed.

(** X18.  Once a verification has succeeded, this instance of the component
    never scans again: the success is reported once, and whatever follows -
    ticks with frames, the loop armed anew, a reset - no image is sent to
    the gate and no second login is reported.  The success branch of
    [handleAutoVerify] leaves the reentrancy flag set. *)
Theorem verified_component_never_scans_again
    (evs : list UiEvent) (s : Session) (u : User) :
  inflight s = [Ok u] ->
  attempt_invariant s ->
  calls KGenerateContent (trace (world (run (Settle :: evs) s)))
  = calls KGenerateContent (trace (world s))
  /\ loginSuccesses (ui (run (Settle :: evs) s)) = S (loginSuccesses (ui s))
  /\ inflight (run (Settle :: evs) s) = [].
Proof.
  intros Hin Hinv. unfold attempt_invariant in Hinv. rewrite Hin in Hinv.
  change (run (Settle :: evs) s) with (run evs (step Settle s)).
  assert (Hstopped : scan_stopped (step Settle s)).
  { cbn [step]. rewrite Hin. by split. }
  destruct (run_scan_stopped evs (step Settle s) Hstopped) as ((_ & Hrest) & Hgate & Hlogin).
  unfold same_gate_calls in Hgate. rewrite Hgate, Hlogin.
  split; [|split; [|exact Hrest]]; cbn [step]; by rewrite Hin.
Qed.

(** X19.  A reset does not cancel the verification in flight: when its
    [faceLogin] settles with a user after the reset, the login is reported
    all the same, on a device that is no longer enrolled and a component
    that shows the enrollment. *)
Theorem reset_does_not_cancel_the_attempt_in_flight
    (s : Session) (u : User) (rest : list (Outcome User)) :
  inflight s = Ok u :: rest ->
  enrolled (world (run [Reset true; Settle] s)) = false
  /\ mode (ui (run [Reset true; Settle] s)) = ENROLL
  /\ statusMessage (ui (run [Reset true; Settle] s)) = "Identity Verified"
  /\ loginSuccesses (ui (run [Reset true; Settle] s)) = S (loginSuccesses (ui s)).
Proof.
  intros Hin. unfold run. cbn [fold_left step handleReset].
  unfold resetEnrollment, removeItem. cbn [inflight]. rewrite Hin.
  cbn [ui world handleAutoVerify_settle stopCamera stopScanningLoop mode statusMessage
       loginSuccesses].
  split; [|done].
  unfold enrolled. cbn [localStorage items]. by rewrite lookup_delete_eq.
Qed.

(** X20.  An enrollment whose closing sign-in reports an error: the
    component shows "Enrollment Login Failed", goes back to the enrollment
    form and reports no login, and yet the device is enrolled, so that the
    next mount of the component starts in the mode VERIFY. *)
Theorem enrollment_login_failure_strands_the_device
    (name : string) (role : UserRole) (image : string) (st : AuthState)
    (w w2 w3 w4 : World) (creds : Credentials) (reg : option AuthUser * option JsError)
    (login : ProfileResult) (e : JsError) :
  gate_accepts (gate_value (capture_start w)) = true ->
  generateCredentials (after_gate image (capture_start w)) = (Ok creds, w2) ->
  signUp (c_email creds) (c_password creds) name role w2 = (Ok reg, w3) ->
  fits BIOMETRIC_VAULT_KEY (vault_text creds) (capture_start w) = true ->
  signIn (JStr (c_email creds)) (JStr (c_password creds))
    (with_item BIOMETRIC_VAULT_KEY (vault_text creds) w3) = (Ok login, w4) ->
  error login = Some e ->
  exists st',
    performEnrollmentCapture name role (Some image) st w = (st', w4)
    /\ ui_error st' = Some "Enrollment Login Failed"
    /\ isEnrollmentStarted st' = false
    /\ loginSuccesses st' = loginSuccesses st
    /\ mode (fst (checkEnrollment st' w4)) = VERIFY.
Proof.
  intros Hacc Hgen Hreg Hfits Hlogin Herr.
  destruct (enrollDevice_written _ _ _ _ _ _ _ _ Hacc Hgen Hreg Hfits) as (Hstore & Hrun).
  assert (Hthrown : enrollDevice name role image (capture_start w)
                    = (Throw (Error "Enrollment Login Failed"), w4)).
  { rewrite Hrun. rewrite (bind_ok _ _ _ _ _ Hlogin). by rewrite Herr. }
  assert (Hen : enrolled w4 = true).
  { destruct (only_calls_signIn (JStr (c_email creds)) (JStr (c_password creds))
                (with_item BIOMETRIC_VAULT_KEY (vault_text creds) w3)) as (_ & Hs & _).
    rewrite Hlogin in Hs. cbn [snd] in Hs.
    unfold enrolled. rewrite Hs. unfold with_item. cbn [localStorage items].
    rewrite lookup_insert_eq. apply vault_blob_nonempty. }
  unfold performEnrollmentCapture, sleep. fold (capture_start w). rewrite Hthrown.
  eexists. split; [reflexivity|].
  cbn [ui_error isEnrollmentStarted loginSuccesses message Error nonempty].
  repeat split.
  unfold checkEnrollment, isDeviceEnrolled, bind, getItem, ret.
  unfold enrolled in Hen. by rewrite Hen.
Qed.

End AfterVerification.

Lemma verified_component_never_scans_again_witness :
  calls KGenerateContent
    (trace (world (@run reference_platform
                     [Settle; Tick (Some face); ArmLoop VERIFY; Tick (Some face)]
                     (verification_in_flight perera
                        (world_of happy_env enrolled_storage)))))
  = 0
  /\ loginSuccesses
       (ui (@run reference_platform
              [Settle; Tick (Some face); ArmLoop VERIFY; Tick (Some face)]
              (verification_in_flight perera (world_of happy_env enrolled_storage))))
     = 1.
Proof.
  destruct (@verified_component_never_scans_again reference_platform
              [Tick (Some face); ArmLoop VERIFY; Tick (Some face)]
              (verification_in_flight perera (world_of happy_env enrolled_storage)) perera)
    as (Hgate & Hlogin & _).
  - reflexivity.
  - reflexivity.
  - split; [exact Hgate|exact Hlogin].
Defined.

Lemma reset_does_not_cancel_the_attempt_in_flight_witness :
  enrolled (world (@run reference_platform [Reset true; Settle]
                     (verification_in_flight perera
                        (world_of happy_env enrolled_storage)))) = false
  /\ loginSuccesses (ui (@run reference_platform [Reset true; Settle]
                           (verification_in_flight perera
                              (world_of happy_env enrolled_storage)))) = 1.
Proof.
  destruct (@reset_does_not_cancel_the_attempt_in_flight reference_platform
              (verification_in_flight perera (world_of happy_env enrolled_storage))
              perera []) as (Hen & _ & _ & Hlogin).
  - reflexivity.
  - split; [exact Hen|exact Hlogin].
Defined.

Lemma enrollment_login_failure_strands_the_device_witness :
  exists st',
    fst (@performEnrollmentCapture reference_platform "J. Perera" ADMIN (Some face)
           verifying (world_of refused_login_env fresh_storage)) = st'
    /\ ui_error st' = Some "Enrollment Login Failed"
    /\ enrolled (snd (@performEnrollmentCapture reference_platform "J. Perera" ADMIN
                        (Some face) verifying (world_of refused_login_env fresh_storage)))
       = true.
Proof.
  epose proof (@enrollment_login_failure_strands_the_device reference_platform
                 "J. Perera" ADMIN face verifying (world_of refused_login_env fresh_storage)
                 _ _ _ perera_credentials _ _ _) as Hthm.
  edestruct Hthm as (st' & Hrun & Herr & _ & _ & Hmode).
  - vm_compute. reflexivity.
  - vm_compute. reflexivity.
  - vm_compute. reflexivity.
  - vm_compute. reflexivity.
  - vm_compute. reflexivity.
  - vm_compute. reflexivity.
  - exists st'. rewrite Hrun. cbn [fst snd]. split; [reflexivity|]. split; [exact Herr|].
    vm_compute. reflexivity.
Defined.

(* ===================================================================== *)
(** * The session *)
(* ===================================================================== *)

(** With the profile store down, [getUserProfile] answers from the
    metadata it was handed. *)
Lemma getUserProfile_fallback (userId : string) (authUserFallback : JsVal) (w : World) :
  (forall i, i < maxAttempts -> attempt_fails (poll_reply w i) = true) ->
  metadata_supplied authUserFallback = true ->
  getUserProfile userId authUserFallback w
  = (Ok (mkProfileResult
           (Some (fallback_profile userId (field authUserFallback "user_metadata"))) None),
     extend (backoff_trace userId 4) w).
Proof.
  intros Hfail Hmeta. unfold getUserProfile.
  rewrite (bind_ok _ _ _ _ _ (poll_profiles_exhausted userId w Hfail)).
  unfold metadata_supplied in Hmeta. apply andb_prop in Hmeta as [Hfb Hmd].
  rewrite Hfb. unfold bind.
  rewrite (member_truthy _ _ _ Hfb). cbv beta iota. rewrite Hmd.
  rewrite (member_truthy _ _ _ Hfb). cbv beta iota.
  repeat (rewrite (member_truthy _ _ _ Hmd); cbv beta iota).
  reflexivity.
Qed.

(** X21.  [getCurrentUser] with a session while the profile store is down:
    the user is made up from the metadata of the session itself once the
    five polls have failed, so the role it returns is the role that the
    metadata names, and DATA_ENTRY_WORKER when it names none. *)
Theorem getCurrentUser_falls_back_to_the_session (w : World) (user : AuthUser) :
  session_reply w = Resolves (Some user) ->
  truthy (au_user_metadata user) = true ->
  (forall i, i < maxAttempts -> attempt_fails (poll_reply w i) = true) ->
  getCurrentUser w
  = (Ok (Some (fallback_profile (au_id user) (au_user_metadata user))),
     extend (backoff_trace (au_id user) 4) (record EvGetSession w))
  /\ u_role (fallback_profile (au_id user) (au_user_metadata user))
     = js_or (field (au_user_metadata user) "role") (JStr "DATA_ENTRY_WORKER").
Proof.
  unfold session_reply. intros Hsession Hmeta Hfail. split; [|reflexivity].
  unfold getCurrentUser. unfold bind at 1, remote at 1. cbn [kind_of].
  rewrite Hsession.
  assert (Hprofile := getUserProfile_fallback (au_id user) (AuthUser_object user)
                        (record EvGetSession w) Hfail Hmeta).
  by rewrite (bind_ok _ _ _ _ _ Hprofile).
Qed.

Lemma getCurrentUser_falls_back_to_the_session_witness :
  fst (getCurrentUser (world_of session_only_env fresh_storage))
  = Ok (Some (mkUser (JStr "u-9") (JStr "K. Silva") (JStr "SUPER_ADMIN")
                (JStr "https://ui-avatars.com/api/?name=User&background=random"))).
Proof.
  destruct (getCurrentUser_falls_back_to_the_session
              (world_of session_only_env fresh_storage) self_styled_admin) as (Hrun & _).
  - reflexivity.
  - reflexivity.
  - intros i _. reflexivity.
  - rewrite Hrun. reflexivity.
Defined.


(* ===================================================================== *)
(** * The registration *)
(* ===================================================================== *)

Lemma setItem_full (k v : string) (w : World) :
  fits k v w = false -> setItem k v w = (Throw (Error "QuotaExceededError"), w).
Proof. unfold fits, setItem. by intros ->. Qed.

Lemma substring_from_short (n : nat) (s : string) :
  String.length s <= n -> substring_from n s = EmptyString.
Proof.
  revert s. induction n as [|n IH]; intros [|c s]; cbn [String.length substring_from];
    intros Hlen; try done; [lia|apply IH; lia].
Qed.

Section Registration.
Context `{Platform}.

(** X22.  Whenever [signUp] returns, it returns a user and no error: every
    failure of the registration is thrown, none is handed back in the
    [error] field of the result. *)
Theorem signUp_never_returns_an_error
    (email password name : string) (role : UserRole) (w w' : World)
    (r : option AuthUser * option JsError) :
  signUp email password name role w = (Ok r, w') ->
  snd r = None
  /\ (exists user, fst r = Some user
                   /\ signUp_reply w = Resolves (mkAuthResult (Some user) None))
  /\ w' = record (EvSignUp email password (signUp_metadata name role)) w.
Proof.
  unfold signUp, bind, remote, signUp_reply. cbn [kind_of].
  destruct (auth_signUp (env w) _) as [[reply_user reply_error]|e]; [|discriminate].
  cbn [a_error a_user]. destruct reply_error as [ae|].
  - destruct (_ || _); discriminate.
  - destruct reply_user as [user|]; [|discriminate].
    intros [= <- <-]. split; [done|]. split; [|done]. by exists user.
Qed.

(** X23.  An enrollment whose vault has no room in the storage as it is
    before the attempt: [enrollDevice] throws the error of the storage after
    the account has been registered.  The account exists remotely, the vault
    key holds what it held, so the device is enrolled after the attempt
    exactly if it was before, and no sign-in is sent. *)
Theorem enrollDevice_vault_write_failure
    (name : string) (role : UserRole) (image : string) (w w2 w3 : World)
    (creds : Credentials) (reg : option AuthUser * option JsError) :
  gate_accepts (gate_value w) = true ->
  generateCredentials (after_gate image w) = (Ok creds, w2) ->
  signUp (c_email creds) (c_password creds) name role w2 = (Ok reg, w3) ->
  fits BIOMETRIC_VAULT_KEY (vault_text creds) w = false ->
  enrollDevice name role image w = (Throw (Error "QuotaExceededError"), w3)
  /\ items (localStorage w3) !! BIOMETRIC_VAULT_KEY
     = items (localStorage w) !! BIOMETRIC_VAULT_KEY
  /\ enrolled w3 = enrolled w
  /\ registered (trace w3) = (c_email creds, c_password creds) :: registered (trace w)
  /\ signin_requests (trace w3) = signin_requests (trace w).
Proof.
  intros Hacc Hgen Hreg Hfull.
  assert (Hstore : localStorage w3 = localStorage w).
  { pose proof (only_calls_signUp (c_email creds) (c_password creds) name role w2)
      as (_ & Hs3 & _).
    pose proof (only_calls_generateCredentials (after_gate image w)) as (_ & Hs2 & _).
    rewrite Hreg in Hs3. rewrite Hgen in Hs2. simpl in Hs3, Hs2.
    by rewrite Hs3, Hs2. }
  assert (Hrun : enrollDevice name role image w = (Throw (Error "QuotaExceededError"), w3)).
  { rewrite (enrollDevice_accepted _ _ _ _ Hacc).
    rewrite (bind_ok _ _ _ _ _ Hgen).
    rewrite (bind_ok _ _ _ _ _ Hreg).
    destruct (signUp_ok_inv _ _ _ _ _ _ _ Hreg) as (user & -> & _).
    cbn [snd fst]. cbv zeta.
    assert (Hset : setItem BIOMETRIC_VAULT_KEY (vault_text creds) w3
                   = (Throw (Error "QuotaExceededError"), w3)).
    { apply setItem_full. unfold fits in *. by rewrite Hstore. }
    unfold vault_text in Hset |- *. by rewrite (bind_throw _ _ _ _ _ Hset). }
  split; [done|]. split; [by rewrite Hstore|]. split; [unfold enrolled; by rewrite Hstore|].
  pose proof (enrollDevice_registers name role image w w2 creds Hacc Hgen) as Hregd.
  rewrite Hrun in Hregd. cbn [snd] in Hregd. split; [done|].
  destruct (signUp_ok_inv _ _ _ _ _ _ _ Hreg) as (user & _ & ->).
  pose proof (preserves_generateCredentials same_signin_requests not_signIn_kind
                same_signin_requests_refl same_signin_requests_trans
                same_signin_requests_record eq_refl eq_refl (after_gate image w)) as Hdrawn.
  rewrite Hgen in Hdrawn. unfold same_signin_requests in Hdrawn. simpl in Hdrawn.
  cbn [record trace signin_requests]. by rewrite Hdrawn.
Qed.

End Registration.

Lemma signUp_never_returns_an_error_witness :
  exists user,
    signUp_reply (world_of happy_env fresh_storage)
    = Resolves (mkAuthResult (Some user) None).
Proof.
  epose proof (@signUp_never_returns_an_error reference_platform "a@b" "pw" "J. Perera" ADMIN
                 (world_of happy_env fresh_storage) _ _) as Hthm.
  edestruct Hthm as (_ & (user & _ & Hreply) & _).
  - reflexivity.
  - exists user. exact Hreply.
Defined.

Lemma enrollDevice_vault_write_failure_witness :
  fst (@enrollDevice reference_platform "J. Perera" ADMIN face
         (world_of happy_env cramped_storage))
  = Throw (Error "QuotaExceededError")
  /\ enrolled (snd (@enrollDevice reference_platform "J. Perera" ADMIN face
                      (world_of happy_env cramped_storage))) = false
  /\ registered (trace (snd (@enrollDevice reference_platform "J. Perera" ADMIN face
                               (world_of happy_env cramped_storage))))
     = [(c_email perera_credentials, c_password perera_credentials)].
Proof.
  epose proof (@enrollDevice_vault_write_failure reference_platform
                 "J. Perera" ADMIN face (world_of happy_env cramped_storage)
                 _ _ perera_credentials _) as Hthm.
  edestruct Hthm as (Hrun & _ & Hen & Hreg & _).
  - vm_compute. reflexivity.
  - vm_compute. reflexivity.
  - vm_compute. reflexivity.
  - vm_compute. reflexivity.
  - rewrite Hrun. split; [reflexivity|]. split; [exact Hen|exact Hreg].
Defined.

(** X24.  When the first random draw reads as at most seven characters in
    base 36, as 0.5 does, its part of the email is empty: the email that
    [generateCredentials] makes is then fixed by the clock alone. *)
Theorem generateCredentials_short_draw (w : World) :
  String.length (random_draw w 0) <= 7 ->
  exists creds w',
    generateCredentials w = (Ok creds, w')
    /\ c_email creds = bare_email (clock_reading w).
Proof.
  unfold random_draw, clock_reading. rewrite Nat.add_0_r. intros Hshort.
  unfold generateCredentials, bind, sample, ret.
  cbn [record env trace kind_of calls kind_eqb].
  eexists _, _. split; [reflexivity|]. cbn [c_email].
  by rewrite (substring_from_short 7 _ Hshort).
Qed.

Lemma generateCredentials_short_draw_witness :
  exists creds w',
    generateCredentials (world_of short_draw_env fresh_storage) = (Ok creds, w')
    /\ c_email creds = "officer.1764498001000.@lankareservoir.secure".
Proof.
  apply (generateCredentials_short_draw (world_of short_draw_env fresh_storage)).
  vm_compute. lia.
Defined.


(* ===================================================================== *)
(** * The rows and the entries *)
(* ===================================================================== *)

Section Rows.
Context `{Platform}.

(** The row that [addEntry] inserts for an entry reads back as that entry. *)
Lemma mapRow_dbPayload (entry : ReservoirEntry) (w : World) :
  mapRow (dbPayload entry) w = (Ok (entry_object entry), w).
Proof. reflexivity. Qed.

Lemma mapM_mapRow_dbPayload (es : list ReservoirEntry) (w : World) :
  mapM mapRow (List.map dbPayload es) w = (Ok (List.map entry_object es), w).
Proof.
  induction es as [|entry es IH]; [done|].
  cbn [List.map mapM].
  rewrite (bind_ok _ _ _ _ _ (mapRow_dbPayload entry w)).
  by rewrite (bind_ok _ _ _ _ _ IH).
Qed.

(** X25.  The columns that [addEntry] writes and the fields that
    [getEntries] reads agree: when the remote read returns the rows that
    were inserted for a list of entries, [getEntries] returns exactly those
    entries, field by field and in the order of the rows, from the source
    MYSQL. *)
Theorem getEntries_reads_back_inserted_rows (es : list ReservoirEntry) (w : World) :
  select_reply w = Resolves (mkQueryResult (JArr (List.map dbPayload es)) None) ->
  getEntries w
  = (Ok (mkEntriesResult (JArr (List.map entry_object es)) MYSQL false),
     record EvEntriesSelect w).
Proof.
  unfold select_reply. intros Hreply.
  unfold getEntries, try_catch. unfold bind at 1, remote at 1. cbn [kind_of].
  rewrite Hreply. cbn [q_error q_data js_or truthy as_array]. rewrite bind_ret.
  by rewrite (bind_ok _ _ _ _ _ (mapM_mapRow_dbPayload es _)).
Qed.

End Rows.

Lemma getEntries_reads_back_inserted_rows_witness :
  @getEntries reference_platform (world_of stored_rows_env fresh_storage)
  = (Ok (mkEntriesResult (JArr [entry_object victoria; entry_object kandalama]) MYSQL false),
     record EvEntriesSelect (world_of stored_rows_env fresh_storage)).
Proof.
  apply (@getEntries_reads_back_inserted_rows reference_platform [victoria; kandalama]
           (world_of stored_rows_env fresh_storage)).
  reflexivity.
Defined.
